(** * backilli storage backends: local file system and Yandex object storage

    A shallow embedding of the two storage clients of [pkg/fs] (package
    [local] and package [yandex]) together with a model of the parts of the
    Go runtime, the operating system and the S3 service they call. *)

From Stdlib Require Import ZArith Ascii DecimalString.
From Stdlib.Strings Require Import Byte.
From stdpp Require Import gmap strings list fin_maps sorting.

Local Open Scope Z_scope.

(** ** Go values *)

(** Go's [error] values that the two packages create or receive.  A Go value
    of type [error] is an [option error]; [None] is [nil]. *)
Inductive error : Type :=
| EOF                                (* io.EOF *)
| ENOENT (path : string)             (* *PathError: no such file or directory *)
| ENOTDIR (path : string)            (* *PathError: not a directory *)
| EISDIR (path : string)             (* *PathError: is a directory *)
| EEXIST (path : string)             (* *PathError: file exists *)
| ENOTEMPTY (path : string)          (* *PathError: directory not empty *)
| EBADF (path : string)              (* *PathError: bad file descriptor *)
| ErrLoadingConfiguration            (* the package variable of that name *)
| Errorf (msg : string)              (* fmt.Errorf(msg) *)
| NoSuchKey (key : string)           (* the service's answer for a missing object *)
| TransportError (msg : string).     (* a connection failure while a body is read *)

(** A call that returns [(T, error)] where the value is meaningless on error. *)
Inductive res (T : Type) : Type :=
| Ok (t : T)
| Err (e : error).
Arguments Ok {T} t.
Arguments Err {T} e.

(** [os.IsNotExist] and [os.IsExist]. *)
Definition IsNotExist (err : option error) : bool :=
  match err with
  | Some (ENOENT _) => true
  | _ => false
  end.

Definition IsExist (err : option error) : bool :=
  match err with
  | Some (EEXIST _) | Some (ENOTEMPTY _) => true
  | _ => false
  end.

(** ** Strings *)

(** Go strings are byte sequences, as Rocq's [string] is. *)
Definition slash : ascii := "047"%char.      (* 0x2f *)
Definition backslash : ascii := "092"%char.  (* 0x5c *)

Definition len (s : string) : Z := Z.of_nat (String.length s).

(** [strings.Split(s, sep)] for a separator of one byte: never empty. *)
Fixpoint Split (s : string) (sep : ascii) : list string :=
  match s with
  | EmptyString => [EmptyString]
  | String c r =>
      if Ascii.eqb c sep then EmptyString :: Split r sep
      else match Split r sep with
           | h :: t => String c h :: t
           | [] => [String c EmptyString]
           end
  end.

(** [strings.Join(l, sep)]. *)
Fixpoint Join (l : list string) (sep : string) : string :=
  match l with
  | [] => ""
  | [x] => x
  | x :: t => x +:+ sep +:+ Join t sep
  end.

(** [strings.HasPrefix(s, p)]. *)
Definition HasPrefix (s p : string) : bool := String.prefix p s.

(** [bytes.ReplaceAll(s, old, new)] for a non-empty [old]: the
    non-overlapping occurrences of [old], leftmost first, become [new]. *)
Fixpoint strip_prefix (p s : string) : option string :=
  match p, s with
  | EmptyString, _ => Some s
  | String a p', String b s' => if Ascii.eqb a b then strip_prefix p' s' else None
  | String _ _, EmptyString => None
  end.

Fixpoint ReplaceAll_go (fuel : nat) (s old new : string) : string :=
  match fuel, s with
  | O, _ => s
  | _, EmptyString => EmptyString
  | S f, String c s' =>
      match strip_prefix old s with
      | Some rest => new +:+ ReplaceAll_go f rest old new
      | None => String c (ReplaceAll_go f s' old new)
      end
  end.

Definition ReplaceAll (s old new : string) : string :=
  match old with
  | EmptyString => s
  | _ => ReplaceAll_go (String.length s) s old new
  end.

(** [fmt.Sprintf("%03d", n)]: decimal, padded with zeros to width 3, the
    sign counted in the width. *)
Definition digits (n : Z) : string :=
  NilZero.string_of_uint (N.to_uint (Z.to_N (Z.abs n))).

Definition zero_pad (width : nat) (s : string) : string :=
  String.string_of_list_ascii
    (replicate (width - String.length s)%nat "0"%char) +:+ s.

Definition Sprintf_03d (n : Z) : string :=
  if n <? 0 then "-" +:+ zero_pad 2 (digits n) else zero_pad 3 (digits n).

(** ** The world the clients act on *)

(** A node of the local file system, with its modification time. *)
Inductive Node : Type :=
| RegularFile (data : list byte) (mtime : Z)
| Directory (mtime : Z).

(** An object of the bucket. *)
Record Object : Type := { Data : list byte; Modified : Z }.

(** The outcome of one [Read] on a response body: the bytes delivered and
    the error returned with them. *)
Definition Stream : Type := list (list byte * option error).

(** The local file system is a finite map from clean paths to nodes (["/"]
    and ["."] always exist); the process has its environment variables and
    temporary directory; the bucket is a finite map from keys to objects,
    with the log of the put-object requests it received. [config_error] says
    whether the SDK's configuration sources can be loaded, and [wire] how
    the network delivers the body of an object. *)
Record World : Type := {
  nodes : gmap string Node;
  TempDir : string;
  clock : Z;
  environ : gmap string string;
  config_error : option error;
  objects : gmap string Object;
  requests : list (string * list byte);
  wire : string → list byte → Stream;
}.

Definition set_nodes (f : gmap string Node → gmap string Node) (w : World) : World :=
  {| nodes := f (nodes w); TempDir := TempDir w; clock := clock w;
     environ := environ w; config_error := config_error w;
     objects := objects w; requests := requests w; wire := wire w |}.

Definition set_environ (f : gmap string string → gmap string string) (w : World) : World :=
  {| nodes := nodes w; TempDir := TempDir w; clock := clock w;
     environ := f (environ w); config_error := config_error w;
     objects := objects w; requests := requests w; wire := wire w |}.

Definition set_objects (f : gmap string Object → gmap string Object) (w : World) : World :=
  {| nodes := nodes w; TempDir := TempDir w; clock := clock w;
     environ := environ w; config_error := config_error w;
     objects := f (objects w); requests := requests w; wire := wire w |}.

Definition log_request (r : string * list byte) (w : World) : World :=
  {| nodes := nodes w; TempDir := TempDir w; clock := clock w;
     environ := environ w; config_error := config_error w;
     objects := objects w; requests := requests w ++ [r]; wire := wire w |}.

(** ** Computations: state, panics and divergence

    Errors are ordinary Go values and are returned as such; a computation
    can besides panic, or run for ever (a loop out of fuel). *)
Inductive outcome (A : Type) : Type :=
| Done (a : A)
| Panics (msg : string)
| Diverges.
Arguments Done {A} a.
Arguments Panics {A} msg.
Arguments Diverges {A}.

Definition M (A : Type) : Type := World → outcome A * World.

#[global] Instance M_ret : MRet M := λ A a w, (Done a, w).

#[global] Instance M_bind : MBind M := λ A B f m w,
  match m w with
  | (Done a, w') => f a w'
  | (Panics msg, w') => (Panics msg, w')
  | (Diverges, w') => (Diverges, w')
  end.

Definition get_world : M World := λ w, (Done w, w).
Definition modify (f : World → World) : M () := λ w, (Done (), f w).
Definition panic {A} (msg : string) : M A := λ w, (Panics msg, w).
Definition diverge {A} : M A := λ w, (Diverges, w).

(** [s[i]] and [s[:j]] on a string, with Go's bounds checks. *)
Definition index_string (s : string) (i : Z) : M ascii :=
  if (i <? 0) || (len s <=? i) then panic "index out of range"
  else match String.get (Z.to_nat i) s with
       | Some c => mret c
       | None => panic "index out of range"
       end.

Definition slice_to (s : string) (j : Z) : M string :=
  if (j <? 0) || (len s <? j) then panic "slice bounds out of range"
  else mret (String.substring 0 (Z.to_nat j) s).

(** ** Paths *)

(** The final segment of a path and the path of its parent directory. *)
Definition path_base (p : string) : string := List.last (Split p slash) "".

Definition path_dir (p : string) : string :=
  match removelast (Split p slash) with
  | [] => "."
  | [EmptyString] => "/"
  | parts => Join parts "/"
  end.

(** The path itself and the directories above it, outermost first. *)
Definition ancestors (p : string) : list string :=
  let parts := Split p slash in
  List.filter (λ a, negb (String.eqb a ""))
    (List.map (λ k, Join (take k parts) "/") (seq 1 (length parts))).

(** [k] is [p] or lies below it. *)
Definition under (p k : string) : bool :=
  String.eqb k p || HasPrefix k (p +:+ "/").

(** ** Package os (and io/ioutil) *)
Module os.

Record FileInfo : Type :=
  { Name : string; Size : Z; IsDir : bool; ModTime : Z }.

Inductive access : Type := O_RDONLY | O_WRONLY | O_RDWR.

(** An open file: its path, how it was opened and the offset of its next
    read or write. A descriptor names its file by path, so the model does
    not cover the use of a file after it was unlinked. *)
Record File : Type := { name : string; mode : access; offset : nat }.

Definition advance (fd : File) (n : nat) : File :=
  {| name := name fd; mode := mode fd; offset := (offset fd + n)%nat |}.

Definition node_at (w : World) (p : string) : option Node :=
  if String.eqb p "/" || String.eqb p "." then Some (Directory 0)
  else nodes w !! p.

(** The size of a directory is the system's; 4096 is a usual one. *)
Definition info (p : string) (n : Node) : FileInfo :=
  match n with
  | RegularFile d t =>
      {| Name := path_base p; Size := Z.of_nat (length d); IsDir := false; ModTime := t |}
  | Directory t =>
      {| Name := path_base p; Size := 4096; IsDir := true; ModTime := t |}
  end.

Definition Stat (p : string) : M (res FileInfo) :=
  w ← get_world;
  mret (match node_at w p with
        | Some n => Ok (info p n)
        | None => Err (ENOENT p)
        end).

Definition TempDir : M string := w ← get_world; mret (TempDir w).

(** [MkdirAll]: every missing directory of the path is created; a regular
    file in the way is an error. *)
Fixpoint mkdirs (ps : list string) (w : World) : option error * World :=
  match ps with
  | [] => (None, w)
  | p :: ps' =>
      match node_at w p with
      | Some (Directory _) => mkdirs ps' w
      | Some (RegularFile _ _) => (Some (ENOTDIR p), w)
      | None => mkdirs ps' (set_nodes (insert p (Directory (clock w))) w)
      end
  end.

Definition MkdirAll (p : string) : M (option error) := λ w,
  let '(err, w') := mkdirs (ancestors p) w in (Done err, w').

(** [OpenFile(p, a | O_CREATE? | O_TRUNC?, perm)]. *)
Definition OpenFile (p : string) (a : access) (create trunc : bool) : M (res File) :=
  w ← get_world;
  let fd := {| name := p; mode := a; offset := 0 |} in
  match node_at w p with
  | Some (Directory _) =>
      match a with
      | O_RDONLY => mret (Ok fd)
      | _ => mret (Err (EISDIR p))
      end
  | Some (RegularFile d t) =>
      if trunc
      then modify (set_nodes (insert p (RegularFile [] (clock w))));; mret (Ok fd)
      else mret (Ok fd)
  | None =>
      if create
      then match node_at w (path_dir p) with
           | Some (Directory _) =>
               modify (set_nodes (insert p (RegularFile [] (clock w))));; mret (Ok fd)
           | Some (RegularFile _ _) => mret (Err (ENOTDIR p))
           | None => mret (Err (ENOENT p))
           end
      else mret (Err (ENOENT p))
  end.

Definition Open (p : string) : M (res File) := OpenFile p O_RDONLY false false.
Definition Create (p : string) : M (res File) := OpenFile p O_RDWR true true.

(** [fd.Read(buf)]: up to [len(buf)] bytes go to the front of the buffer;
    the rest of the buffer keeps what it held. The results are [n], [err],
    the buffer and the descriptor afterwards. *)
Definition Read (fd : File) (buf : list byte) : M (Z * option error * list byte * File) :=
  w ← get_world;
  match mode fd, node_at w (name fd) with
  | O_WRONLY, _ => mret (0, Some (EBADF (name fd)), buf, fd)
  | _, Some (RegularFile d _) =>
      match buf, take (length buf) (drop (offset fd) d) with
      | [], _ => mret (0, None, buf, fd)
      | _, [] => mret (0, Some EOF, buf, fd)
      | _, chunk =>
          mret (Z.of_nat (length chunk), None,
                chunk ++ drop (length chunk) buf, advance fd (length chunk))
      end
  | _, Some (Directory _) => mret (0, Some (EISDIR (name fd)), buf, fd)
  | _, None => mret (0, Some (EBADF (name fd)), buf, fd)
  end.

(** [fd.Write(b)]: the bytes replace those at the offset and extend the
    file beyond its end. *)
Definition overwrite (d : list byte) (off : nat) (b : list byte) : list byte :=
  take off d ++ replicate (off - length d) x00 ++ b ++ drop (off + length b) d.

Definition Write (fd : File) (b : list byte) : M (Z * option error * File) :=
  w ← get_world;
  match mode fd, node_at w (name fd) with
  | O_RDONLY, _ => mret (0, Some (EBADF (name fd)), fd)
  | _, Some (RegularFile d _) =>
      modify (set_nodes (insert (name fd)
                (RegularFile (overwrite d (offset fd) b) (clock w))));;
      mret (Z.of_nat (length b), None, advance fd (length b))
  | _, _ => mret (0, Some (EBADF (name fd)), fd)
  end.

Definition File_Stat (fd : File) : M (res FileInfo) := Stat (name fd).

(** The iterations a loop needs to read the file at [p] to its end, each
    one but the last reading a byte at least. *)
Definition reads_to_end (w : World) (p : string) : nat :=
  match node_at w p with
  | Some (RegularFile d _) => S (length d)
  | _ => 1
  end.

Definition Close (fd : File) : M (option error) := mret None.

Definition has_children (w : World) (p : string) : bool :=
  existsb (λ kv, String.eqb (path_dir kv.1) p) (map_to_list (nodes w)).

(** [Remove]: a file or an empty directory. *)
Definition Remove (p : string) : M (option error) :=
  w ← get_world;
  match nodes w !! p with
  | None => mret (Some (ENOENT p))
  | Some (RegularFile _ _) => modify (set_nodes (delete p));; mret None
  | Some (Directory _) =>
      if has_children w p then mret (Some (ENOTEMPTY p))
      else modify (set_nodes (delete p));; mret None
  end.

(** [RemoveAll]: the path and everything below it; no error when the path
    does not exist, and nothing happens for the empty path. *)
Definition RemoveAll (p : string) : M (option error) :=
  if String.eqb p "" then mret None
  else modify (set_nodes (filter (λ kv, under p kv.1 = false)));; mret None.

(** [ioutil.ReadDir]: the children of a directory, sorted by name. *)
Definition by_name (a b : FileInfo) : Prop := String.leb (Name a) (Name b) = true.

#[global] Instance by_name_dec : RelDecision by_name :=
  λ a b, bool_eq_dec (String.leb (Name a) (Name b)) true.

Definition children (w : World) (p : string) : list FileInfo :=
  merge_sort by_name
    (List.map (λ kv, info kv.1 kv.2)
       (List.filter (λ kv, String.eqb (path_dir kv.1) p) (map_to_list (nodes w)))).

Definition ReadDir (p : string) : M (res (list FileInfo)) :=
  w ← get_world;
  match node_at w p with
  | Some (Directory _) => mret (Ok (children w p))
  | Some (RegularFile _ _) => mret (Err (ENOTDIR p))
  | None => mret (Err (ENOENT p))
  end.

End os.

(** ** Packages fs, fs/environment and fs/unit *)
Module fs.

(** Modelled from the spec: [GetFullPath] of package [pkg/fs] is not among
    the sources. The spec has it join a root and a name with the native
    separator (the one given, when it is not empty). *)
Definition GetFullPath (sep root name : string) : string :=
  root +:+ (if String.eqb sep "" then "/" else sep) +:+ name.

(** Modelled from the spec: [Dir] of package [pkg/fs] is not among the
    sources. The spec has it give the parent directory of a path. *)
Definition Dir (p : string) : string := path_dir p.

(** Modelled from the spec: [Base] of package [pkg/fs] is not among the
    sources. The spec has it give the base name of a path. *)
Definition Base (p : string) : string := path_base p.

End fs.

Module env.

(** Modelled from the spec: [Set] of package [pkg/fs/environment] is not
    among the sources. The spec has it write a value into the process-wide
    environment. *)
Definition Set_ (k v : string) : M () := modify (set_environ (insert k v)).

End env.

Module unit.

(** Modelled from the spec: the declaration of [ClientConfig] is not among
    the sources. The spec gives its five fields, [NewClient] their names. *)
Record ClientConfig : Type :=
  { Region : string; KeyId : string; KeySecret : string;
    BucketName : string; Root : string }.

(** [unit.File]; the descriptor is [nil] in every entry the clients make. *)
Record File : Type :=
  { Descriptor : option os.File; Name : string; Date : Z }.

(** The methods of [unit.File] hand the call to the descriptor; a call on
    the [nil] descriptor panics. *)
Definition Close (f : File) : M (option error) :=
  match Descriptor f with
  | None => panic "invalid memory address or nil pointer dereference"
  | Some fd => os.Close fd
  end.

Definition Read (f : File) (b : list byte) : M (Z * option error * list byte * os.File) :=
  match Descriptor f with
  | None => panic "invalid memory address or nil pointer dereference"
  | Some fd => os.Read fd b
  end.

Definition Write (f : File) (b : list byte) : M (Z * option error * os.File) :=
  match Descriptor f with
  | None => panic "invalid memory address or nil pointer dereference"
  | Some fd => os.Write fd b
  end.

Definition Stat (f : File) : M (res os.FileInfo) :=
  match Descriptor f with
  | None => panic "invalid memory address or nil pointer dereference"
  | Some fd => os.File_Stat fd
  end.

End unit.

(** ** Package local *)
Module local.

Record LocalClient : Type := { root : string }.

Definition NewClient (conf : unit.ClientConfig) : LocalClient :=
  {| root := unit.Root conf |}.

(** [for i := 0; i < n; i++ { res[offs+i] = buffer[i] }], with [count]
    the iterations left. *)
Fixpoint store (res buffer : list byte) (offs i : Z) (count : nat) : M (list byte) :=
  match count with
  | O => mret res
  | S count' =>
      match buffer !! Z.to_nat i with
      | None => panic "index out of range"
      | Some b =>
          if (offs + i <? 0) || (Z.of_nat (length res) <=? offs + i)
          then panic "index out of range"
          else store (<[Z.to_nat (offs + i) := b]> res) buffer offs (i + 1) count'
      end
  end.

Fixpoint Read_loop (fuel : nat) (fd : os.File) (buffer res : list byte) (offs : Z)
  : M (list byte * option error) :=
  match fuel with
  | O => diverge
  | S fuel' =>
      '(n, err, buffer, fd) ← os.Read fd buffer;
      match err with
      | Some EOF => mret (res, None)
      | Some e => mret ([], Some e)
      | None =>
          res ← store res buffer offs 0 (Z.to_nat n);
          Read_loop fuel' fd buffer res (offs + Z.of_nat (length buffer))
      end
  end.

Definition Read (c : LocalClient) (path : string) : M (list byte * option error) :=
  r ← os.OpenFile path os.O_RDWR false false;
  match r with
  | Err e => mret ([], Some e)
  | Ok fd =>
      st ← os.File_Stat fd;
      match st with
      | Err e => mret ([], Some e)
      | Ok stat =>
          let res := replicate (Z.to_nat (os.Size stat)) x00 in
          let buffer := replicate 2048 x00 in
          w ← get_world;
          Read_loop (os.reads_to_end w path) fd buffer res 0
      end
  end.

(** The block that [Write] runs for the root and for the parent of the
    destination: [Stat], and [MkdirAll] when the directory is missing. *)
Definition stat_or_mkdir (dir : string) : M (option error) :=
  st ← os.Stat dir;
  match st with
  | Ok _ => mret None
  | Err e =>
      if IsNotExist (Some e) then os.MkdirAll dir
      else mret (Some e)
  end.

Fixpoint Write_loop (fuel : nat) (rd fd : os.File) (buf : list byte) : M (option error) :=
  match fuel with
  | O => diverge
  | S fuel' =>
      '(n, err, buf, rd) ← os.Read rd buf;
      match err with
      | Some EOF => mret None
      | Some e => mret (Some e)
      | None =>
          if 0 <? n
          then '(_, werr, fd) ← os.Write fd buf;
               match werr with
               | Some e => mret (Some e)
               | None => Write_loop fuel' rd fd buf
               end
          else Write_loop fuel' rd fd buf
      end
  end.

Definition bufferOffset : Z := 4096.

Definition Write (c : LocalClient) (src dst : string) : M (option error) :=
  err ← stat_or_mkdir (root c);
  match err with
  | Some e => mret (Some e)
  | None =>
      let fpf := fs.GetFullPath "" (root c) dst in
      let fpd := fs.Dir fpf in
      err ← stat_or_mkdir fpd;
      match err with
      | Some e => mret (Some e)
      | None =>
          st ← os.Stat fpf;
          let err := match st with Ok _ => None | Err e => Some e end in
          err ← (if IsExist err then os.RemoveAll fpf else mret None);
          match err with
          | Some e => mret (Some e)
          | None =>
              r ← os.OpenFile fpf os.O_WRONLY true false;
              match r with
              | Err e => mret (Some e)
              | Ok fd =>
                  r ← os.OpenFile src os.O_RDONLY false false;
                  match r with
                  | Err e => mret (Some e)
                  | Ok rd =>
                      w ← get_world;
                      Write_loop (os.reads_to_end w src) rd fd
                        (replicate (Z.to_nat bufferOffset) x00)
                  end
              end
          end
      end
  end.

Definition Ls (c : LocalClient) (path : string) : M (list unit.File * option error) :=
  st ← os.Stat path;
  match st with
  | Err e => mret ([], Some e)
  | Ok stat =>
      if negb (os.IsDir stat)
      then mret ([], Some (Errorf "file is not a directory"))
      else
        r ← os.ReadDir path;
        match r with
        | Err e => mret ([], Some e)
        | Ok ls =>
            mret (List.map (λ f, {| unit.Descriptor := None;
                                    unit.Name := os.Name f;
                                    unit.Date := os.ModTime f |}) ls, None)
        end
  end.

Definition Remove (c : LocalClient) (path : string) : M (option error) :=
  os.RemoveAll path.

Definition Close (c : LocalClient) : M (option error) := mret None.

End local.

(** ** The AWS SDK and the object storage behind it *)
Module aws.

Record Endpoint : Type :=
  { PartitionID : string; URL : string; SigningRegion : string }.

(** What [config.LoadDefaultConfig] builds: the region and the credentials
    of the environment, and the endpoint resolver it was given. *)
Record Config : Type :=
  { Region : string; AccessKeyID : string; SecretAccessKey : string;
    EndpointResolverWithOptions : string → string → Endpoint * option error }.

End aws.

Module config.

(** The configuration is read from the environment; the resolver is kept
    for the requests to come, it is not called here. *)
Definition LoadDefaultConfig
    (resolver : string → string → aws.Endpoint * option error) : M (res aws.Config) :=
  w ← get_world;
  match config_error w with
  | Some e => mret (Err e)
  | None =>
      mret (Ok {| aws.Region := default "" (environ w !! "AWS_REGION");
                  aws.AccessKeyID := default "" (environ w !! "AWS_ACCESS_KEY_ID");
                  aws.SecretAccessKey := default "" (environ w !! "AWS_SECRET_ACCESS_KEY");
                  aws.EndpointResolverWithOptions := resolver |})
  end.

End config.

Module s3.

Definition ServiceID : string := "S3".

Record Client : Type := { cfg : aws.Config }.

Definition NewFromConfig (cfg : aws.Config) : Client := {| cfg := cfg |}.

Record GetObjectOutput : Type := { ContentLength : Z; Body : Stream }.

Record ObjectInfo : Type := { Key : string; LastModified : Z }.

(** Every request starts by resolving the endpoint of the service in the
    client's region; the world holds the one bucket the clients name. *)
Definition resolve (c : Client) : option error :=
  (aws.EndpointResolverWithOptions (cfg c) ServiceID (aws.Region (cfg c))).2.

Definition GetObject (c : Client) (bucket key : string) : M (res GetObjectOutput) :=
  w ← get_world;
  match resolve c with
  | Some e => mret (Err e)
  | None =>
      match objects w !! key with
      | None => mret (Err (NoSuchKey key))
      | Some o =>
          mret (Ok {| ContentLength := Z.of_nat (length (Data o));
                      Body := wire w key (Data o) |})
      end
  end.

(** [Body.Read(buf)]: the next delivery of the body, as much of it as the
    buffer holds; [io.EOF] once the body is exhausted. *)
Definition Body_Read (body : Stream) (buf : list byte)
  : Z * option error * list byte * Stream :=
  match body with
  | [] => (0, Some EOF, buf, [])
  | (chunk, err) :: rest =>
      let got := take (length buf) chunk in
      (Z.of_nat (length got), err, got ++ drop (length got) buf, rest)
  end.

(** The body of the request is what the file holds from the descriptor's
    offset on. *)
Definition PutObject (c : Client) (bucket key : string) (body : os.File)
    (contentLength : Z) : M (option error) :=
  w ← get_world;
  match resolve c with
  | Some e => mret (Some e)
  | None =>
      match os.node_at w (os.name body) with
      | Some (RegularFile d _) =>
          let sent := drop (os.offset body) d in
          modify (set_objects (insert key {| Data := sent; Modified := clock w |}));;
          modify (log_request (key, sent));;
          mret None
      | Some (Directory _) => mret (Some (EISDIR (os.name body)))
      | None => mret (Some (EBADF (os.name body)))
      end
  end.

Definition by_key (a b : ObjectInfo) : Prop := String.leb (Key a) (Key b) = true.

#[global] Instance by_key_dec : RelDecision by_key :=
  λ a b, bool_eq_dec (String.leb (Key a) (Key b)) true.

(** The keys that start with the prefix, in the order of the keys, a
    thousand at most. *)
Definition contents (w : World) (prefix : string) : list ObjectInfo :=
  take 1000
    (merge_sort by_key
       (List.map (λ kv, {| Key := kv.1; LastModified := Modified kv.2 |})
          (List.filter (λ kv, HasPrefix kv.1 prefix) (map_to_list (objects w))))).

Definition ListObjectsV2 (c : Client) (bucket prefix : string) : M (res (list ObjectInfo)) :=
  w ← get_world;
  match resolve c with
  | Some e => mret (Err e)
  | None => mret (Ok (contents w prefix))
  end.

(** Deleting a key that is not there is a success for the service. *)
Definition DeleteObject (c : Client) (bucket key : string) : M (option error) :=
  match resolve c with
  | Some e => mret (Some e)
  | None => modify (set_objects (delete key));; mret None
  end.

End s3.

(** ** Package yandex *)
Module yandex.

Definition limit : Z := 536870912.

Record YandexClient : Type :=
  { s3client : s3.Client; bucketName : string;
    cloudSep : string; cloudRoot : string }.

Definition yandexResolver (service region : string) : aws.Endpoint * option error :=
  if String.eqb service s3.ServiceID && String.eqb region "ru-central1"
  then ({| aws.PartitionID := "yc";
           aws.URL := "https://storage.yandexcloud.net";
           aws.SigningRegion := "ru-central1" |}, None)
  else ({| aws.PartitionID := ""; aws.URL := ""; aws.SigningRegion := "" |},
        Some (Errorf "unknown endpoint requested")).

Definition NewClient (conf : unit.ClientConfig) : M (option YandexClient * option error) :=
  env.Set_ "AWS_REGION" (unit.Region conf);;
  env.Set_ "AWS_ACCESS_KEY_ID" (unit.KeyId conf);;
  env.Set_ "AWS_SECRET_ACCESS_KEY" (unit.KeySecret conf);;
  let customResolver := yandexResolver in
  r ← config.LoadDefaultConfig customResolver;
  match r with
  | Err _ => mret (None, Some ErrLoadingConfiguration)
  | Ok cfg =>
      let s3client := s3.NewFromConfig cfg in
      mret (Some {| s3client := s3client;
                    cloudRoot := unit.Root conf;
                    cloudSep := "/";
                    bucketName := unit.BucketName conf |}, None)
  end.

(** The loop of [Read]: [buffer] is the [bytes.Buffer] filled so far. *)
Fixpoint Read_loop (fuel : nat) (body : Stream) (buf buffer : list byte) : M (list byte) :=
  match fuel with
  | O => diverge
  | S fuel' =>
      let '(num, rerr, buf, body) := s3.Body_Read body buf in
      if 0 <? num
      then Read_loop fuel' body buf (buffer ++ take (Z.to_nat num) buf)
      else match rerr with
           | Some _ => mret buffer
           | None => Read_loop fuel' body buf buffer
           end
  end.

Definition Read (c : YandexClient) (path : string) : M (list byte * option error) :=
  r ← s3.GetObject (s3client c) (bucketName c) path;
  match r with
  | Err e => mret ([], Some e)
  | Ok resp =>
      if s3.ContentLength resp <? 0 then panic "makeslice: len out of range"
      else
        let buf := replicate (Z.to_nat (s3.ContentLength resp)) x00 in
        bytes ← Read_loop (S (length (s3.Body resp))) (s3.Body resp) buf [];
        mret (bytes, None)
  end.

Definition put (c : YandexClient) (src dst : string) : M (option error) :=
  r ← os.Open src;
  match r with
  | Err e => mret (Some e)
  | Ok fd =>
      st ← os.File_Stat fd;
      match st with
      | Err e => mret (Some e)
      | Ok stat =>
          let cloudRoot := cloudRoot c in
          last ← index_string cloudRoot (len cloudRoot - 1);
          sep ← (if Ascii.eqb last backslash then mret true
                 else last ← index_string cloudRoot (len cloudRoot - 1);
                      mret (Ascii.eqb last slash));
          cloudRoot ← (if sep : bool then slice_to cloudRoot (len cloudRoot - 1)
                       else mret cloudRoot);
          let s := ReplaceAll dst (String backslash "") (String slash "") in
          let yapath := cloudRoot +:+ cloudSep c +:+ s in
          s3.PutObject (s3client c) (bucketName c) yapath fd (os.Size stat)
      end
  end.

Definition putOnce (c : YandexClient) (src dst : string) : M (option error) :=
  put c src dst.

(** The results are [stopped], [err], and the buffer and the source
    descriptor as the call leaves them. *)
Definition writeAndPutPartOfFiles (c : YandexClient) (fd : os.File) (buf : list byte)
    (part : Z) (dst : string) : M (bool * option error * list byte * os.File) :=
  '(n, err, buf, fd) ← os.Read fd buf;
  match err with
  | Some EOF => mret (true, None, buf, fd)
  | Some e => mret (true, Some e, buf, fd)
  | None =>
      if n =? 0 then mret (true, None, buf, fd)
      else
        tmp ← os.TempDir;
        let fp := fs.GetFullPath "" tmp ("zip." +:+ Sprintf_03d part) in
        r ← os.Create fp;
        match r with
        | Err e => mret (true, Some e, buf, fd)
        | Ok tfd =>
            '(_, werr, tfd) ← os.Write tfd buf;
            match werr with
            | Some e => mret (true, Some e, buf, fd)
            | None =>
                cerr ← os.Close tfd;
                match cerr with
                | Some e => mret (true, Some e, buf, fd)
                | None =>
                    perr ← put c fp (fs.GetFullPath "" dst (fs.Base fp));
                    match perr with
                    | Some e => mret (false, Some e, buf, fd)
                    | None =>
                        rerr ← os.Remove fp;
                        match rerr with
                        | Some e => mret (true, Some e, buf, fd)
                        | None => mret (false, None, buf, fd)
                        end
                    end
                end
            end
        end
  end.

Fixpoint putSplitedFile_loop (fuel : nat) (c : YandexClient) (fd : os.File)
    (buf : list byte) (i : Z) (dst : string) : M (option error) :=
  match fuel with
  | O => diverge
  | S fuel' =>
      '(stopped, err, buf, fd) ← writeAndPutPartOfFiles c fd buf i dst;
      match err with
      | Some e => mret (Some e)
      | None =>
          if stopped : bool then mret None
          else putSplitedFile_loop fuel' c fd buf (i + 1) dst
      end
  end.

Definition putSplitedFile (c : YandexClient) (src dst : string) : M (option error) :=
  let buf := replicate (Z.to_nat limit) x00 in
  r ← os.Open src;
  match r with
  | Err e => mret (Some e)
  | Ok fd =>
      w ← get_world;
      putSplitedFile_loop (os.reads_to_end w src) c fd buf 1 dst
  end.

Definition Write (c : YandexClient) (src dst : string) : M (option error) :=
  st ← os.Stat src;
  match st with
  | Err e => mret (Some e)
  | Ok stat =>
      if 0 <? Z.quot (os.Size stat) limit
      then putSplitedFile c src dst
      else putOnce c src dst
  end.

(** One step of the loop of [Ls] over the listed objects. *)
Definition Ls_step (files : list unit.File) (object : s3.ObjectInfo) : list unit.File :=
  let path := Split (s3.Key object) slash in
  let name := List.last path "" in
  if negb (String.eqb name "")
  then files ++ [{| unit.Descriptor := None;
                    unit.Date := s3.LastModified object;
                    unit.Name := name |}]
  else files.

Definition Ls (c : YandexClient) (path : string) : M (list unit.File * option error) :=
  r ← s3.ListObjectsV2 (s3client c) (bucketName c) path;
  match r with
  | Err e => mret ([], Some e)
  | Ok ls => mret (foldl Ls_step [] ls, None)
  end.

Definition Remove (c : YandexClient) (path : string) : M (option error) :=
  s3.DeleteObject (s3client c) (bucketName c) path.

Definition Close (c : YandexClient) : M (option error) := mret None.

End yandex.

(** ** The statements' vocabulary *)

(** The key normalizer as the specification words it: one trailing
    separator off the root, every backslash of the destination turned into
    a slash, and the two joined by one slash. *)
Definition is_separator (c : ascii) : bool :=
  Ascii.eqb c slash || Ascii.eqb c backslash.

Fixpoint strip_trailing_separator (root : string) : string :=
  match root with
  | EmptyString => EmptyString
  | String c EmptyString => if is_separator c then EmptyString else root
  | String c r => String c (strip_trailing_separator r)
  end.

Fixpoint to_slashes (dst : string) : string :=
  match dst with
  | EmptyString => EmptyString
  | String c r => String (if Ascii.eqb c backslash then slash else c) (to_slashes r)
  end.

Definition normalize (root dst : string) : string :=
  strip_trailing_separator root +:+ "/" +:+ to_slashes dst.

(** The last byte of the string [String c r]. *)
Fixpoint last_char (c : ascii) (r : string) : ascii :=
  match r with
  | EmptyString => c
  | String b r' => last_char b r'
  end.

(** The final segment of a key: what follows its last slash. *)
Fixpoint final_segment_from (seg s : string) : string :=
  match s with
  | EmptyString => seg
  | String c r =>
      if Ascii.eqb c slash then final_segment_from "" r
      else final_segment_from (seg +:+ String c "") r
  end.

Definition final_segment (key : string) : string := final_segment_from "" key.

(** The world after one object was put under [key] with content [d]. *)
Definition uploaded (key : string) (d : list byte) (w : World) : World :=
  log_request (key, d)
    (set_objects (insert key {| Data := d; Modified := clock w |}) w).

(** A client whose requests reach the bucket, with the separator that
    [NewClient] sets. *)
Definition ready (c : yandex.YandexClient) : Prop :=
  s3.resolve (yandex.s3client c) = None ∧ yandex.cloudSep c = "/".

(** The entries that the specification has [Ls] return for the listed
    objects: one for each key whose final segment is not empty. *)
Definition entry_of (o : s3.ObjectInfo) : unit.File :=
  {| unit.Descriptor := None;
     unit.Name := final_segment (s3.Key o);
     unit.Date := s3.LastModified o |}.

Definition has_name (o : s3.ObjectInfo) : bool :=
  negb (String.eqb (final_segment (s3.Key o)) "").

Definition entries (ls : list s3.ObjectInfo) : list unit.File :=
  List.map entry_of (List.filter has_name ls).

(** The client that [NewClient] builds from a configuration it can load. *)
Definition client_of (conf : unit.ClientConfig) : yandex.YandexClient :=
  {| yandex.s3client :=
       s3.NewFromConfig
         {| aws.Region := unit.Region conf;
            aws.AccessKeyID := unit.KeyId conf;
            aws.SecretAccessKey := unit.KeySecret conf;
            aws.EndpointResolverWithOptions := yandex.yandexResolver |};
     yandex.bucketName := unit.BucketName conf;
     yandex.cloudSep := "/";
     yandex.cloudRoot := unit.Root conf |}.

(** ** Scenarios *)

(** A network that delivers a body in one piece, and one that breaks after
    the first three bytes. *)
Definition in_one_piece (key : string) (d : list byte) : Stream := [(d, None)].

Definition breaks_after_three (key : string) (d : list byte) : Stream :=
  [(take 3 d, None); ([], Some (TransportError "connection reset by peer"))].

(** A machine with the given files, an empty bucket and a loadable
    configuration. *)
Definition machine (files : gmap string Node) : World :=
  {| nodes := files; TempDir := "/tmp"; clock := 1700000000;
     environ := ∅; config_error := None;
     objects := ∅; requests := []; wire := in_one_piece |}.

Definition conf_ru (root : string) : unit.ClientConfig :=
  {| unit.Region := "ru-central1"; unit.KeyId := "id"; unit.KeySecret := "secret";
     unit.BucketName := "backups"; unit.Root := root |}.

Definition conf_us : unit.ClientConfig :=
  {| unit.Region := "us-east-1"; unit.KeyId := "id"; unit.KeySecret := "secret";
     unit.BucketName := "backups"; unit.Root := "a/b/" |}.

(** A dump of exactly the threshold's size, and one a byte longer. *)
Definition dump_at_limit : list byte := replicate (Z.to_nat yandex.limit) "a"%byte.

Definition dump_over_limit : list byte :=
  replicate (Z.to_nat yandex.limit) "a"%byte ++ ["b"%byte].

Definition dump_machine (dump : list byte) : World :=
  machine {[ "/tmp" := Directory 0; "/data" := Directory 0;
             "/data/dump.bin" := RegularFile dump 0 ]}.

(** A machine with a one-byte file, an empty file and an older, longer copy
    at a destination; the local client rooted at [/tmp/store]. *)
Definition host_machine : World :=
  machine {[ "/etc" := Directory 0;
             "/etc/hostname" := RegularFile ["h"%byte] 0;
             "/etc/empty" := RegularFile [] 0;
             "/tmp" := Directory 0;
             "/tmp/store" := Directory 0;
             "/tmp/store/old.txt" := RegularFile ["o"%byte; "l"%byte; "d"%byte] 0 ]}.

Definition store_client : local.LocalClient := {| local.root := "/tmp/store" |}.

(** A bucket with one object of six bytes behind a network that breaks. *)
Definition broken_network : World :=
  {| nodes := ∅; TempDir := "/tmp"; clock := 1700000000;
     environ := ∅; config_error := None;
     objects := {[ "a/b/k" := {| Data := [x01; x02; x03; x04; x05; x06];
                                 Modified := 0 |} ]};
     requests := []; wire := breaks_after_three |}.

(** ** What the copy loops write *)

(** The bytes that a copy loop writes for what is left of its source,
    [rest], when after each read it writes the whole buffer: the bytes read
    and, behind them, what the buffer held before. *)
Fixpoint blocks_written (fuel : nat) (buf rest : list byte) : list byte :=
  match fuel with
  | O => []
  | S fuel' =>
      match take (length buf) rest with
      | [] => []
      | chunk =>
          let buf' := chunk ++ drop (length chunk) buf in
          buf' ++ blocks_written fuel' buf' (drop (length chunk) rest)
      end
  end.

(** ** More scenarios *)

(** The machine of the scenario with a file of one block besides. *)
Definition block_machine : World :=
  set_nodes (insert "/etc/block" (RegularFile (replicate 4096 "a"%byte) 0)) host_machine.

(** ** The network and the keys *)

(** A network that delivers every body whole and without an error, in
    however many pieces. *)
Definition delivers_whole (w : World) : Prop :=
  ∀ key d, ∃ pieces,
    wire w key d = List.map (λ piece, (piece, None)) pieces ∧ concat pieces = d.

Fixpoint has_slash (s : string) : bool :=
  match s with
  | EmptyString => false
  | String c r => Ascii.eqb c slash || has_slash r
  end.

(** ** The parts of a chunked upload *)

(** The temporary file of part [i] and the key the part is put under. *)
Definition part_path (w : World) (i : Z) : string :=
  fs.GetFullPath "" (TempDir w) ("zip." +:+ Sprintf_03d i).

Definition part_key (c : yandex.YandexClient) (w : World) (dst : string) (i : Z) : string :=
  normalize (yandex.cloudRoot c) (fs.GetFullPath "" dst (fs.Base (part_path w i))).

(** The buffers that the loop of [putSplitedFile] uploads for what is left
    of its source, [rest]: after each read the whole buffer, the bytes read
    and, behind them, what the buffer held before. *)
Fixpoint parts_written (fuel : nat) (buf rest : list byte) : list (list byte) :=
  match fuel with
  | O => []
  | S fuel' =>
      match take (length buf) rest with
      | [] => []
      | chunk =>
          let buf' := chunk ++ drop (length chunk) buf in
          buf' :: parts_written fuel' buf' (drop (length chunk) rest)
      end
  end.

(** The world after the parts were put, one after the other, from part
    number [i] on. *)
Fixpoint upload_parts (c : yandex.YandexClient) (dst : string) (i : Z)
    (parts : list (list byte)) (w : World) : World :=
  match parts with
  | [] => w
  | part :: parts' =>
      upload_parts c dst (i + 1) parts' (uploaded (part_key c w dst i) part w)
  end.

(** The machine of the dump with a directory in the place of the temporary
    file of the second part. *)
Definition blocked_machine : World :=
  set_nodes (insert "/tmp/zip.002" (Directory 0)) (dump_machine dump_over_limit).

(** * Properties *)

Ltac unfold_M :=
  unfold mbind, M_bind, mret, M_ret, get_world, modify, panic, diverge in *.

(** ** Strings *)

Lemma Split_nonempty s sep : Split s sep ≠ [].
Proof.
  induction s as [|c r IH]; simpl; [done|].
  destruct (Ascii.eqb c sep); [done|].
  destruct (Split r sep); done.
Qed.

Lemma strip_prefix_one a s :
  strip_prefix (String a "") s =
    match s with
    | String b s' => if Ascii.eqb a b then Some s' else None
    | EmptyString => None
    end.
Proof. destruct s as [|b s']; simpl; [done|]. by destruct (Ascii.eqb a b). Qed.

Lemma ReplaceAll_go_backslash fuel s :
  (String.length s ≤ fuel)%nat →
  ReplaceAll_go fuel s (String backslash "") (String slash "") = to_slashes s.
Proof.
  revert s. induction fuel as [|f IH]; intros [|c r] Hlen;
    cbn [ReplaceAll_go String.length to_slashes] in *; try done; try lia.
  rewrite strip_prefix_one, (Ascii.eqb_sym backslash c).
  destruct (Ascii.eqb c backslash); cbn [String.append]; rewrite IH; (done || lia).
Qed.

Lemma ReplaceAll_backslash s :
  ReplaceAll s (String backslash "") (String slash "") = to_slashes s.
Proof. unfold ReplaceAll. by apply ReplaceAll_go_backslash. Qed.

Lemma get_last c r :
  String.get (String.length r) (String c r) = Some (last_char c r).
Proof.
  revert c. induction r as [|b r IH]; intros c; [reflexivity|].
  change (String.get (String.length (String b r)) (String c (String b r)))
    with (String.get (String.length r) (String b r)).
  by rewrite IH.
Qed.

Lemma strip_trailing_separator_last c r :
  strip_trailing_separator (String c r) =
    if is_separator (last_char c r)
    then String.substring 0 (String.length r) (String c r)
    else String c r.
Proof.
  revert c. induction r as [|b r IH]; intros c.
  - simpl. by destruct (is_separator c).
  - change (strip_trailing_separator (String c (String b r)))
      with (String c (strip_trailing_separator (String b r))).
    rewrite IH. cbn [last_char].
    by destruct (is_separator _).
Qed.

(** The key construction of [put], run on a root that is not empty. *)
Lemma index_last c r w :
  index_string (String c r) (len (String c r) - 1) w = (Done (last_char c r), w).
Proof.
  unfold index_string, len.
  replace (Z.of_nat (String.length (String c r)) - 1) with (Z.of_nat (String.length r))
    by (cbn [String.length]; lia).
  rewrite Nat2Z.id, get_last.
  destruct (Z.ltb_spec (Z.of_nat (String.length r)) 0); [lia|].
  destruct (Z.leb_spec (Z.of_nat (String.length (String c r))) (Z.of_nat (String.length r)));
    [cbn [String.length] in *; lia|].
  done.
Qed.

Lemma slice_last c r w :
  slice_to (String c r) (len (String c r) - 1) w =
    (Done (String.substring 0 (String.length r) (String c r)), w).
Proof.
  unfold slice_to, len.
  replace (Z.of_nat (String.length (String c r)) - 1) with (Z.of_nat (String.length r))
    by (cbn [String.length]; lia).
  rewrite Nat2Z.id.
  destruct (Z.ltb_spec (Z.of_nat (String.length r)) 0); [lia|].
  destruct (Z.ltb_spec (Z.of_nat (String.length (String c r))) (Z.of_nat (String.length r)));
    [cbn [String.length] in *; lia|].
  done.
Qed.

Lemma index_empty i w : index_string "" i w = (Panics "index out of range", w).
Proof.
  unfold index_string, len. cbn [String.length].
  destruct (Z.ltb_spec i 0); [done|].
  destruct (Z.leb_spec (Z.of_nat 0) i); [done|lia].
Qed.

(** ** The upload of one file *)

Lemma Open_existing src w n :
  os.node_at w src = Some n →
  os.Open src w =
    (Done (Ok {| os.name := src; os.mode := os.O_RDONLY; os.offset := 0 |}), w).
Proof.
  intros Hn. unfold os.Open, os.OpenFile. unfold_M. rewrite Hn.
  by destruct n.
Qed.

Lemma Stat_existing p w n :
  os.node_at w p = Some n → os.Stat p w = (Done (Ok (os.info p n)), w).
Proof. intros Hn. unfold os.Stat. unfold_M. by rewrite Hn. Qed.

Lemma put_key c w :
  yandex.cloudRoot c ≠ "" →
  ∀ A (k : string → M A),
    (last ← index_string (yandex.cloudRoot c) (len (yandex.cloudRoot c) - 1);
     sep ← (if Ascii.eqb last backslash then mret true
            else last ← index_string (yandex.cloudRoot c) (len (yandex.cloudRoot c) - 1);
                 mret (Ascii.eqb last slash));
     cloudRoot ← (if sep : bool
                  then slice_to (yandex.cloudRoot c) (len (yandex.cloudRoot c) - 1)
                  else mret (yandex.cloudRoot c));
     k cloudRoot) w = k (strip_trailing_separator (yandex.cloudRoot c)) w.
Proof.
  intros Hroot A k. destruct (yandex.cloudRoot c) as [|a r]; [done|].
  rewrite strip_trailing_separator_last. unfold is_separator.
  unfold mbind, M_bind at 1. rewrite index_last.
  destruct (Ascii.eqb (last_char a r) backslash) eqn:Hb.
  - rewrite orb_true_r. unfold mbind, M_bind, mret, M_ret. by rewrite slice_last.
  - rewrite orb_false_r. unfold mbind, M_bind, mret, M_ret. rewrite index_last.
    destruct (Ascii.eqb (last_char a r) slash); [by rewrite slice_last|done].
Qed.

Lemma put_uploads c src dst w d t :
  ready c → yandex.cloudRoot c ≠ "" →
  os.node_at w src = Some (RegularFile d t) →
  yandex.put c src dst w = (Done None, uploaded (normalize (yandex.cloudRoot c) dst) d w).
Proof.
  intros [Hres Hsep] Hroot Hsrc. unfold yandex.put.
  unfold mbind at 1, M_bind at 1. rewrite (Open_existing _ _ _ Hsrc).
  unfold mbind at 1, M_bind at 1. unfold os.File_Stat. cbn [os.name].
  rewrite (Stat_existing _ _ _ Hsrc).
  rewrite put_key by done.
  unfold s3.PutObject. unfold_M. rewrite Hres. cbn [os.name os.offset]. rewrite Hsrc.
  rewrite ReplaceAll_backslash, Hsep. by rewrite drop_0.
Qed.

Lemma put_empty_root c src dst w n :
  yandex.cloudRoot c = "" → os.node_at w src = Some n →
  yandex.put c src dst w = (Panics "index out of range", w).
Proof.
  intros Hroot Hsrc. unfold yandex.put.
  unfold mbind at 1, M_bind at 1. rewrite (Open_existing _ _ _ Hsrc).
  unfold mbind at 1, M_bind at 1. unfold os.File_Stat. cbn [os.name].
  rewrite (Stat_existing _ _ _ Hsrc).
  unfold mbind at 1, M_bind at 1. by rewrite Hroot, index_empty.
Qed.

(** ** Running a computation step by step *)

Lemma bind_Done {A B} (m : M A) (k : A → M B) w a w' :
  m w = (Done a, w') → (m ≫= k) w = k a w'.
Proof. intros Hm. unfold mbind, M_bind. by rewrite Hm. Qed.

Lemma bind_Panics {A B} (m : M A) (k : A → M B) w msg w' :
  m w = (Panics msg, w') → (m ≫= k) w = (Panics msg, w').
Proof. intros Hm. unfold mbind, M_bind. by rewrite Hm. Qed.

(** ** Files *)

Lemma node_at_insert w p n :
  os.node_at w p = None → os.node_at (set_nodes (insert p n) w) p = Some n.
Proof.
  unfold os.node_at. destruct (String.eqb p "/" || String.eqb p "."); [done|].
  intros _. cbn [nodes set_nodes]. apply lookup_insert_eq.
Qed.

Lemma node_at_insert_ne w p q n :
  p ≠ q → os.node_at (set_nodes (insert p n) w) q = os.node_at w q.
Proof.
  intros Hne. unfold os.node_at. destruct (String.eqb q "/" || String.eqb q "."); [done|].
  cbn [nodes set_nodes]. by apply lookup_insert_ne.
Qed.

Lemma node_at_nodes w p : os.node_at w p = None → nodes w !! p = None.
Proof. unfold os.node_at. by destruct (String.eqb p "/" || String.eqb p "."). Qed.

Lemma Read_chunk fd buf w d t :
  os.mode fd ≠ os.O_WRONLY →
  os.node_at w (os.name fd) = Some (RegularFile d t) →
  buf ≠ [] → take (length buf) (drop (os.offset fd) d) ≠ [] →
  os.Read fd buf w =
    (Done (Z.of_nat (length (take (length buf) (drop (os.offset fd) d))), None,
           take (length buf) (drop (os.offset fd) d)
             ++ drop (length (take (length buf) (drop (os.offset fd) d))) buf,
           os.advance fd (length (take (length buf) (drop (os.offset fd) d)))), w).
Proof.
  intros Hmode Hnode Hbuf Hchunk. unfold os.Read. unfold_M. rewrite Hnode.
  destruct buf as [|b buf]; [done|].
  destruct (take (length (b :: buf)) (drop (os.offset fd) d)); [done|].
  by destruct (os.mode fd).
Qed.

Lemma Read_at_end fd buf w d t :
  os.mode fd ≠ os.O_WRONLY →
  os.node_at w (os.name fd) = Some (RegularFile d t) →
  buf ≠ [] → (length d ≤ os.offset fd)%nat →
  os.Read fd buf w = (Done (0, Some EOF, buf, fd), w).
Proof.
  intros Hmode Hnode Hbuf Hoff. unfold os.Read. unfold_M. rewrite Hnode.
  destruct buf as [|b buf]; [done|].
  rewrite drop_ge, take_nil by done.
  by destruct (os.mode fd).
Qed.

Lemma Create_fresh p w td :
  os.node_at w p = None → os.node_at w (path_dir p) = Some (Directory td) →
  os.Create p w =
    (Done (Ok {| os.name := p; os.mode := os.O_RDWR; os.offset := 0 |}),
     set_nodes (insert p (RegularFile [] (clock w))) w).
Proof.
  intros Hp Hdir. unfold os.Create, os.OpenFile. unfold_M. by rewrite Hp, Hdir.
Qed.

Lemma Write_file fd b w d t :
  os.mode fd ≠ os.O_RDONLY →
  os.node_at w (os.name fd) = Some (RegularFile d t) →
  os.Write fd b w =
    (Done (Z.of_nat (length b), None, os.advance fd (length b)),
     set_nodes (insert (os.name fd)
                  (RegularFile (os.overwrite d (os.offset fd) b) (clock w))) w).
Proof.
  intros Hmode Hnode. unfold os.Write. unfold_M. rewrite Hnode.
  by destruct (os.mode fd).
Qed.

Lemma Remove_file p w d t :
  nodes w !! p = Some (RegularFile d t) →
  os.Remove p w = (Done None, set_nodes (delete p) w).
Proof. intros Hp. unfold os.Remove. unfold_M. by rewrite Hp. Qed.

Lemma overwrite_fresh b : os.overwrite [] 0 b = b.
Proof. unfold os.overwrite. cbn. by rewrite drop_nil, app_nil_r. Qed.

(** ** One part of the chunked upload *)

(** A part that is read is written whole to its temporary file and put
    under its key, and the temporary file is gone afterwards. *)
Lemma writeAndPutPartOfFiles_part c src off buf part dst w d t td chunk fp :
  chunk = take (length buf) (drop off d) →
  fp = fs.GetFullPath "" (TempDir w) ("zip." +:+ Sprintf_03d part) →
  ready c → yandex.cloudRoot c ≠ "" →
  os.node_at w src = Some (RegularFile d t) →
  buf ≠ [] → chunk ≠ [] →
  os.node_at w fp = None →
  os.node_at w (path_dir fp) = Some (Directory td) →
  yandex.writeAndPutPartOfFiles c
    {| os.name := src; os.mode := os.O_RDONLY; os.offset := off |} buf part dst w =
    (Done (false, None, chunk ++ drop (length chunk) buf,
           {| os.name := src; os.mode := os.O_RDONLY; os.offset := (off + length chunk)%nat |}),
     uploaded (normalize (yandex.cloudRoot c) (fs.GetFullPath "" dst (fs.Base fp)))
       (chunk ++ drop (length chunk) buf) w).
Proof.
  intros Hchunk_eq Hfp_eq Hc Hroot Hsrc Hbuf Hchunk Hfp Hdir.
  unfold yandex.writeAndPutPartOfFiles.
  erewrite bind_Done; [|apply (Read_chunk _ buf w d t); cbn; (done || congruence)].
  cbn [os.offset os.name os.mode]. rewrite <- Hchunk_eq. cbv beta iota.
  destruct (Z.eqb_spec (Z.of_nat (length chunk)) 0) as [Hz|_].
  { destruct chunk; [done|simpl in Hz; lia]. }
  erewrite bind_Done; [|reflexivity]. rewrite <- Hfp_eq.
  erewrite bind_Done; [|by eapply Create_fresh]. cbv beta iota.
  erewrite bind_Done;
    [|eapply (Write_file _ _ _ [] (clock w)); [done|by apply node_at_insert]].
  cbn [os.name os.offset]. rewrite overwrite_fresh. cbv beta iota.
  erewrite bind_Done; [|reflexivity]. cbv beta iota.
  set (w1 := set_nodes (insert fp (RegularFile [] (clock w))) w).
  set (buf' := chunk ++ drop (length chunk) buf).
  set (w2 := set_nodes (insert fp (RegularFile buf' (clock w1))) w1).
  assert (os.node_at w2 fp = Some (RegularFile buf' (clock w1))) as Hfp2.
  { unfold w2, w1, os.node_at in *.
    destruct (String.eqb fp "/" || String.eqb fp "."); [done|].
    cbn [nodes set_nodes]. apply lookup_insert_eq. }
  erewrite bind_Done; [|by apply (put_uploads c fp _ w2 buf' (clock w1))].
  cbv beta iota.
  erewrite bind_Done;
    [|apply (Remove_file _ _ buf' (clock w1)); apply lookup_insert_eq].
  cbv beta iota. unfold mret, M_ret. f_equal.
  unfold uploaded, log_request, set_objects, set_nodes, w2, w1.
  cbn [nodes TempDir clock environ config_error objects requests wire set_nodes].
  rewrite delete_insert_eq, delete_insert_id by by apply node_at_nodes.
  done.
Qed.

Lemma node_at_uploaded key b w p : os.node_at (uploaded key b w) p = os.node_at w p.
Proof. reflexivity. Qed.

Lemma writeAndPutPartOfFiles_end c src off buf part dst w d t :
  os.node_at w src = Some (RegularFile d t) →
  buf ≠ [] → (length d ≤ off)%nat →
  yandex.writeAndPutPartOfFiles c
    {| os.name := src; os.mode := os.O_RDONLY; os.offset := off |} buf part dst w =
    (Done (true, None, buf,
           {| os.name := src; os.mode := os.O_RDONLY; os.offset := off |}), w).
Proof.
  intros Hsrc Hbuf Hoff. unfold yandex.writeAndPutPartOfFiles.
  erewrite bind_Done; [|by apply (Read_at_end _ buf w d t)].
  done.
Qed.

(** A file of one buffer's length goes up as one part. *)
Lemma putSplitedFile_loop_one c src dst w d t td buf fuel :
  ready c → yandex.cloudRoot c ≠ "" →
  os.node_at w src = Some (RegularFile d t) →
  d ≠ [] → length buf = length d → (2 ≤ fuel)%nat →
  os.node_at w (fs.GetFullPath "" (TempDir w) "zip.001") = None →
  os.node_at w (path_dir (fs.GetFullPath "" (TempDir w) "zip.001")) = Some (Directory td) →
  yandex.putSplitedFile_loop fuel c
    {| os.name := src; os.mode := os.O_RDONLY; os.offset := 0 |} buf 1 dst w =
    (Done None,
     uploaded (normalize (yandex.cloudRoot c)
                 (fs.GetFullPath "" dst (fs.Base (fs.GetFullPath "" (TempDir w) "zip.001"))))
       d w).
Proof.
  intros Hc Hroot Hsrc Hd Hlen Hfuel Hfp Hdir.
  destruct fuel as [|[|fuel]]; [lia|lia|].
  assert (take (length buf) (drop 0 d) = d) as Hchunk
    by (rewrite drop_0, Hlen; apply firstn_all).
  assert (buf ≠ []) as Hbuf by (destruct buf, d; done).
  cbn [yandex.putSplitedFile_loop].
  erewrite bind_Done;
    [|eapply (writeAndPutPartOfFiles_part c src 0 buf 1 dst w d t td d); eauto].
  cbv beta iota. rewrite <- Hlen, drop_all, app_nil_r.
  erewrite bind_Done;
    [|eapply (writeAndPutPartOfFiles_end c src _ d _ dst _ d t); [done..|cbn; lia]].
  reflexivity.
Qed.

(** A file longer than the buffer, and no longer than two, goes up as two
    parts; the second is a whole buffer again: what was read, and behind it
    what the first part left there. *)
Lemma putSplitedFile_loop_two c src dst w d t td buf fuel :
  ready c → yandex.cloudRoot c ≠ "" →
  os.node_at w src = Some (RegularFile d t) →
  (length buf < length d ≤ 2 * length buf)%nat → (3 ≤ fuel)%nat →
  os.node_at w (fs.GetFullPath "" (TempDir w) "zip.001") = None →
  os.node_at w (fs.GetFullPath "" (TempDir w) "zip.002") = None →
  os.node_at w (path_dir (fs.GetFullPath "" (TempDir w) "zip.001")) = Some (Directory td) →
  os.node_at w (path_dir (fs.GetFullPath "" (TempDir w) "zip.002")) = Some (Directory td) →
  yandex.putSplitedFile_loop fuel c
    {| os.name := src; os.mode := os.O_RDONLY; os.offset := 0 |} buf 1 dst w =
    (Done None,
     uploaded (normalize (yandex.cloudRoot c)
                 (fs.GetFullPath "" dst (fs.Base (fs.GetFullPath "" (TempDir w) "zip.002"))))
       (drop (length buf) d ++ drop (length d - length buf) (take (length buf) d))
       (uploaded (normalize (yandex.cloudRoot c)
                    (fs.GetFullPath "" dst (fs.Base (fs.GetFullPath "" (TempDir w) "zip.001"))))
          (take (length buf) d) w)).
Proof.
  intros Hc Hroot Hsrc Hlen Hfuel Hfp1 Hfp2 Hdir1 Hdir2.
  destruct fuel as [|[|[|fuel]]]; [lia..|].
  assert (buf ≠ []) as Hbuf.
  { intros ->. simpl in Hlen. lia. }
  assert (take (length buf) d ≠ []) as Hchunk1.
  { assert (0 < length buf)%nat by (destruct buf; [done|cbn [length]; lia]).
    intros Hnil. apply (f_equal length) in Hnil. rewrite length_take in Hnil.
    cbn [length] in Hnil. lia. }
  assert (length (take (length buf) d) = length buf) as Hlen1
    by (rewrite length_take; lia).
  assert (take (length buf) (drop (length buf) d) = drop (length buf) d) as Hchunk2.
  { apply take_ge. rewrite length_drop. lia. }
  assert (drop (length buf) d ≠ []) as Hne2.
  { intros Hnil. apply (f_equal length) in Hnil. rewrite length_drop in Hnil.
    cbn [length] in Hnil. lia. }
  cbn [yandex.putSplitedFile_loop].
  erewrite bind_Done;
    [|eapply (writeAndPutPartOfFiles_part c src 0 buf 1 dst w d t td (take (length buf) d));
      eauto; by rewrite drop_0].
  cbv beta iota. rewrite Hlen1, drop_all, app_nil_r.
  erewrite bind_Done;
    [|eapply (writeAndPutPartOfFiles_part c src _ _ (1 + 1) dst _ d t td
                (drop (length buf) d));
      [by rewrite Hlen1|reflexivity|done|done|done|done|done|exact Hfp2|exact Hdir2]].
  cbv beta iota.
  erewrite bind_Done;
    [|eapply (writeAndPutPartOfFiles_end c src _ _ _ dst _ d t);
      [done| |rewrite length_drop; lia]].
  2:{ intros Hnil. apply app_eq_nil in Hnil. by destruct Hnil. }
  rewrite length_drop. reflexivity.
Qed.

(** ** The threshold of [Write] *)

Lemma quot_limit size :
  0 ≤ size → (0 <? Z.quot size yandex.limit) = (yandex.limit <=? size).
Proof.
  intros Hsize. rewrite Z.quot_div_nonneg by done.
  destruct (Z.leb_spec yandex.limit size) as [Hle|Hlt].
  - apply Z.ltb_lt. apply Z.div_str_pos. unfold yandex.limit in *. lia.
  - rewrite Z.div_small by lia. done.
Qed.

Lemma Write_branch_node c src dst w n :
  os.node_at w src = Some n →
  yandex.Write c src dst w =
    if yandex.limit <=? os.Size (os.info src n)
    then yandex.putSplitedFile c src dst w
    else yandex.putOnce c src dst w.
Proof.
  intros Hsrc. unfold yandex.Write.
  erewrite bind_Done; [|by apply Stat_existing].
  cbv beta iota. rewrite quot_limit by (destruct n; cbn [os.info os.Size]; lia).
  by destruct (yandex.limit <=? os.Size (os.info src n)).
Qed.

Lemma Write_branch c src dst w d t :
  os.node_at w src = Some (RegularFile d t) →
  yandex.Write c src dst w =
    if yandex.limit <=? Z.of_nat (length d)
    then yandex.putSplitedFile c src dst w
    else yandex.putOnce c src dst w.
Proof. apply Write_branch_node. Qed.

Lemma putSplitedFile_loop_eq c src dst w n :
  os.node_at w src = Some n →
  yandex.putSplitedFile c src dst w =
    yandex.putSplitedFile_loop (os.reads_to_end w src) c
      {| os.name := src; os.mode := os.O_RDONLY; os.offset := 0 |}
      (replicate (Z.to_nat yandex.limit) x00) 1 dst w.
Proof.
  intros Hsrc. unfold yandex.putSplitedFile.
  erewrite bind_Done; [|by eapply Open_existing].
  reflexivity.
Qed.

(** ** The dumps *)

Lemma limit_pos : (0 < Z.to_nat yandex.limit)%nat.
Proof. unfold yandex.limit. lia. Qed.

Lemma length_dump_at_limit : length dump_at_limit = Z.to_nat yandex.limit.
Proof. apply length_replicate. Qed.

Lemma length_dump_over_limit : length dump_over_limit = S (Z.to_nat yandex.limit).
Proof. unfold dump_over_limit. rewrite length_app, length_replicate. cbn [length]. lia. Qed.

Lemma dump_machine_src dump :
  os.node_at (dump_machine dump) "/data/dump.bin" = Some (RegularFile dump 0).
Proof.
  unfold os.node_at, dump_machine, machine. cbn [nodes orb String.eqb Ascii.eqb Bool.eqb].
  rewrite !lookup_insert_ne by done. apply lookup_singleton_eq.
Qed.

Lemma dump_machine_tmp dump :
  os.node_at (dump_machine dump) "/tmp" = Some (Directory 0).
Proof.
  unfold os.node_at, dump_machine, machine. cbn [nodes orb String.eqb Ascii.eqb Bool.eqb].
  apply lookup_insert_eq.
Qed.

Lemma dump_machine_free dump p :
  p ≠ "/tmp" → p ≠ "/data" → p ≠ "/data/dump.bin" → p ≠ "/" → p ≠ "." →
  os.node_at (dump_machine dump) p = None.
Proof.
  intros H1 H2 H3 H4 H5. unfold os.node_at.
  destruct (String.eqb_spec p "/"); [done|].
  destruct (String.eqb_spec p "."); [done|].
  unfold dump_machine, machine. cbn [nodes orb].
  rewrite !lookup_insert_ne by done. by apply lookup_singleton_ne.
Qed.

Lemma ready_client_ru root : ready (client_of (conf_ru root)).
Proof. split; reflexivity. Qed.

Lemma Write_dump_at_limit :
  yandex.Write (client_of (conf_ru "a/b/")) "/data/dump.bin" "dump.bin"
    (dump_machine dump_at_limit) =
  (Done None, uploaded "a/b/dump.bin/zip.001" dump_at_limit (dump_machine dump_at_limit)).
Proof.
  rewrite (Write_branch _ _ _ _ _ _ (dump_machine_src _)).
  rewrite length_dump_at_limit, Z2Nat.id by (unfold yandex.limit; lia).
  rewrite Z.leb_refl.
  rewrite (putSplitedFile_loop_eq _ _ _ _ _ (dump_machine_src _)).
  change "a/b/dump.bin/zip.001"
    with (normalize (yandex.cloudRoot (client_of (conf_ru "a/b/")))
            (fs.GetFullPath "" "dump.bin"
               (fs.Base (fs.GetFullPath "" (TempDir (dump_machine dump_at_limit)) "zip.001")))).
  apply (putSplitedFile_loop_one _ _ _ _ _ 0 0).
  - apply ready_client_ru.
  - done.
  - apply dump_machine_src.
  - intros Hnil. apply (f_equal length) in Hnil.
    rewrite length_dump_at_limit in Hnil. pose proof limit_pos. cbn [length] in Hnil. lia.
  - by rewrite length_replicate, length_dump_at_limit.
  - unfold os.reads_to_end. rewrite dump_machine_src, length_dump_at_limit.
    pose proof limit_pos. lia.
  - by apply dump_machine_free.
  - apply dump_machine_tmp.
Qed.

Lemma putOnce_dump_at_limit :
  yandex.putOnce (client_of (conf_ru "a/b/")) "/data/dump.bin" "dump.bin"
    (dump_machine dump_at_limit) =
  (Done None, uploaded "a/b/dump.bin" dump_at_limit (dump_machine dump_at_limit)).
Proof.
  unfold yandex.putOnce.
  rewrite (put_uploads _ _ _ _ dump_at_limit 0);
    [reflexivity|apply ready_client_ru|done|apply dump_machine_src].
Qed.

Lemma one_byte_over n (a b : byte) :
  (0 < n)%nat →
  take n (replicate n a ++ [b]) = replicate n a ∧
  drop n (replicate n a ++ [b]) ++ drop (S n - n) (take n (replicate n a ++ [b]))
    = b :: replicate (n - 1) a.
Proof.
  intros Hn.
  rewrite take_app_length', drop_app_length' by (by rewrite length_replicate).
  replace (S n - n)%nat with 1%nat by lia.
  by rewrite drop_replicate.
Qed.

(** ** The key normalizer *)

Lemma strip_trailing_separator_cons_snoc c r s :
  strip_trailing_separator (String c (r +:+ String s "")) =
    if is_separator s then String c r else String c (r +:+ String s "").
Proof.
  revert c. induction r as [|b r IH]; intros c.
  - change (strip_trailing_separator (String c ("" +:+ String s "")))
      with (String c (if is_separator s then "" else String s "")).
    by destruct (is_separator s).
  - change (strip_trailing_separator (String c (String b r +:+ String s "")))
      with (String c (strip_trailing_separator (String b (r +:+ String s "")))).
    rewrite IH. by destruct (is_separator s).
Qed.

Lemma strip_trailing_separator_snoc r s :
  strip_trailing_separator (r +:+ String s "") =
    if is_separator s then r else r +:+ String s "".
Proof.
  destruct r as [|c r]; [reflexivity|].
  apply strip_trailing_separator_cons_snoc.
Qed.

(** C7: for every root that is not empty, [put] stores the file under the
    key that the normalizer of the specification gives: the root without
    one trailing separator, a slash, and the destination with its
    backslashes turned into slashes; root ["a/b/"] and destination
    ["c\d.txt"] give ["a/b/c/d.txt"]. *)
Theorem put_key_is_normalized c src dst w d t :
  ready c → yandex.cloudRoot c ≠ "" →
  os.node_at w src = Some (RegularFile d t) →
  yandex.put c src dst w =
    (Done None, uploaded (normalize (yandex.cloudRoot c) dst) d w)
  ∧ (∀ r s, is_separator s = true →
       normalize (r +:+ String s "") dst = r +:+ "/" +:+ to_slashes dst)
  ∧ (∀ r s, is_separator s = false →
       normalize (r +:+ String s "") dst = (r +:+ String s "") +:+ "/" +:+ to_slashes dst)
  ∧ normalize "a/b/" "c\d.txt" = "a/b/c/d.txt".
Proof.
  intros Hc Hroot Hsrc. split; [by apply (put_uploads c src dst w d t)|].
  repeat split.
  - intros r s Hs. unfold normalize. by rewrite strip_trailing_separator_snoc, Hs.
  - intros r s Hs. unfold normalize. by rewrite strip_trailing_separator_snoc, Hs.
Qed.

(** The theorem at root [a/b/] and destination [c\d.txt]. *)
Lemma put_key_is_normalized_witness :
  yandex.put (client_of (conf_ru "a/b/")) "/etc/hostname" "c\d.txt" host_machine =
    (Done None, uploaded "a/b/c/d.txt" ["h"%byte] host_machine).
Proof.
  exact (proj1 (put_key_is_normalized (client_of (conf_ru "a/b/")) "/etc/hostname"
                  "c\d.txt" host_machine ["h"%byte] 0
                  (conj eq_refl eq_refl) ltac:(discriminate) eq_refl)).
Defined.

(** ** The empty root *)

Lemma NewClient_loaded conf w :
  config_error w = None →
  (yandex.NewClient conf w).1 = Done (Some (client_of conf), None).
Proof.
  intros Hcfg. unfold yandex.NewClient, env.Set_, config.LoadDefaultConfig. unfold_M.
  cbn [config_error set_environ environ]. rewrite Hcfg.
  cbn [fst]. unfold client_of. do 4 f_equal.
  by rewrite lookup_insert_ne, lookup_insert_ne, lookup_insert_eq,
    lookup_insert_ne, lookup_insert_eq, lookup_insert_eq by done.
Qed.

Lemma bind_Panics_fst {A B} (m : M A) (k : A → M B) w msg :
  (m w).1 = Panics msg → ((m ≫= k) w).1 = Panics msg.
Proof.
  unfold mbind, M_bind. destruct (m w) as [o w']. cbn [fst]. by intros ->.
Qed.

Lemma node_at_insert_twice w p n1 n2 :
  os.node_at w p = None →
  os.node_at (set_nodes (insert p n2) (set_nodes (insert p n1) w)) p = Some n2.
Proof.
  unfold os.node_at. destruct (String.eqb p "/" || String.eqb p "."); [done|].
  intros _. cbn [nodes set_nodes]. apply lookup_insert_eq.
Qed.

Lemma writeAndPutPartOfFiles_empty_root c src buf dst w d t td :
  yandex.cloudRoot c = "" →
  os.node_at w src = Some (RegularFile d t) →
  buf ≠ [] → d ≠ [] →
  os.node_at w (fs.GetFullPath "" (TempDir w) "zip.001") = None →
  os.node_at w (path_dir (fs.GetFullPath "" (TempDir w) "zip.001")) = Some (Directory td) →
  (yandex.writeAndPutPartOfFiles c
     {| os.name := src; os.mode := os.O_RDONLY; os.offset := 0 |} buf 1 dst w).1 =
    Panics "index out of range".
Proof.
  intros Hroot Hsrc Hbuf Hd Hfp Hdir.
  assert (take (length buf) (drop 0 d) ≠ []) as Hchunk.
  { rewrite drop_0. destruct buf, d; done. }
  unfold yandex.writeAndPutPartOfFiles.
  erewrite bind_Done; [|by apply (Read_chunk _ buf w d t)].
  cbn [os.offset os.name os.mode]. cbv beta iota.
  destruct (Z.eqb_spec (Z.of_nat (length (take (length buf) (drop 0 d)))) 0) as [Hz|_].
  { destruct (take (length buf) (drop 0 d)); [done|cbn [length] in Hz; lia]. }
  erewrite bind_Done; [|reflexivity].
  change ("zip." +:+ Sprintf_03d 1) with "zip.001".
  erewrite bind_Done; [|by eapply Create_fresh]. cbv beta iota.
  erewrite bind_Done;
    [|eapply (Write_file _ _ _ [] (clock w)); [done|by apply node_at_insert]].
  cbv beta iota.
  erewrite bind_Done; [|reflexivity]. cbv beta iota.
  erewrite bind_Panics; [done|].
  eapply put_empty_root; [done|].
  cbn [os.name]. by apply node_at_insert_twice.
Qed.

(** C10: with an empty root the key construction of [put] panics with an
    index out of range, whatever it is given to upload; so does every
    [Write] of a source under the threshold, and every [Write] of a larger
    file whose first part gets its temporary file. [NewClient] takes the
    empty root as it is. *)
Theorem Write_panics_on_empty_root c src dst w :
  yandex.cloudRoot c = "" →
  (∀ n, os.node_at w src = Some n →
        yandex.put c src dst w = (Panics "index out of range", w))
  ∧ (∀ n, os.node_at w src = Some n →
          os.Size (os.info src n) < yandex.limit →
          yandex.Write c src dst w = (Panics "index out of range", w))
  ∧ (∀ d t td, os.node_at w src = Some (RegularFile d t) →
               yandex.limit ≤ Z.of_nat (length d) →
               os.node_at w (fs.GetFullPath "" (TempDir w) "zip.001") = None →
               os.node_at w (path_dir (fs.GetFullPath "" (TempDir w) "zip.001"))
                 = Some (Directory td) →
               (yandex.Write c src dst w).1 = Panics "index out of range")
  ∧ (∀ conf w', unit.Root conf = "" → config_error w' = None →
                ∃ c', (yandex.NewClient conf w').1 = Done (Some c', None)
                      ∧ yandex.cloudRoot c' = "").
Proof.
  intros Hroot. repeat split.
  - intros n Hsrc. by apply (put_empty_root c src dst w n).
  - intros n Hsrc Hsize. rewrite (Write_branch_node c src dst w n Hsrc).
    destruct (Z.leb_spec yandex.limit (os.Size (os.info src n))); [lia|].
    by apply (put_empty_root c src dst w n).
  - intros d t td Hsrc Hsize Hfp Hdir. rewrite (Write_branch c src dst w d t Hsrc).
    destruct (Z.leb_spec yandex.limit (Z.of_nat (length d))); [|lia].
    rewrite (putSplitedFile_loop_eq _ _ _ _ _ Hsrc).
    assert (d ≠ []) as Hd.
    { intros ->. cbn [length] in *. unfold yandex.limit in *. lia. }
    unfold os.reads_to_end. rewrite Hsrc. cbn [yandex.putSplitedFile_loop].
    apply bind_Panics_fst.
    apply (writeAndPutPartOfFiles_empty_root c src _ dst w d t td);
      [exact Hroot|exact Hsrc| |exact Hd|exact Hfp|exact Hdir].
    intros Hnil. apply (f_equal length) in Hnil. rewrite length_replicate in Hnil.
    pose proof limit_pos. cbn [length] in Hnil. lia.
  - intros conf w' Hconf Hcfg. exists (client_of conf).
    split; [by apply NewClient_loaded|done].
Qed.

(** The theorem at a client with the empty root and a file of one byte. *)
Lemma Write_panics_on_empty_root_witness :
  yandex.Write (client_of (conf_ru "")) "/etc/hostname" "hostname.txt" host_machine =
    (Panics "index out of range", host_machine).
Proof.
  apply (proj1 (proj2 (Write_panics_on_empty_root (client_of (conf_ru "")) "/etc/hostname"
                         "hostname.txt" host_machine eq_refl))
           (RegularFile ["h"%byte] 0) eq_refl).
  reflexivity.
Defined.

(** ** The claims on the remote [Write] *)

(** C1, for every source longer than the threshold and no longer than two:
    [Write] puts two parts, under the destination joined with the base
    names of the temporary files [zip.001] and [zip.002]. Each part is a
    whole buffer of the threshold's length: the second holds the rest of
    the source and, behind it, what the first part left in the buffer. So
    the parts together are not the source, unless it is two thresholds
    long. *)
Theorem Write_pads_the_last_part c src dst w d t td :
  ready c → yandex.cloudRoot c ≠ "" →
  os.node_at w src = Some (RegularFile d t) →
  yandex.limit < Z.of_nat (length d) ≤ 2 * yandex.limit →
  os.node_at w (fs.GetFullPath "" (TempDir w) "zip.001") = None →
  os.node_at w (fs.GetFullPath "" (TempDir w) "zip.002") = None →
  os.node_at w (path_dir (fs.GetFullPath "" (TempDir w) "zip.001")) = Some (Directory td) →
  os.node_at w (path_dir (fs.GetFullPath "" (TempDir w) "zip.002")) = Some (Directory td) →
  let lim := Z.to_nat yandex.limit in
  let part1 := take lim d in
  let part2 := drop lim d ++ drop (length d - lim) (take lim d) in
  yandex.Write c src dst w =
    (Done None,
     uploaded (normalize (yandex.cloudRoot c)
                 (fs.GetFullPath "" dst (fs.Base (fs.GetFullPath "" (TempDir w) "zip.002"))))
       part2
       (uploaded (normalize (yandex.cloudRoot c)
                    (fs.GetFullPath "" dst (fs.Base (fs.GetFullPath "" (TempDir w) "zip.001"))))
          part1 w))
  ∧ length part1 = lim ∧ length part2 = lim
  ∧ take (length d - lim) part2 = drop lim d
  ∧ (Z.of_nat (length d) < 2 * yandex.limit → part1 ++ part2 ≠ d).
Proof.
  intros Hc Hroot Hsrc Hsize Hfp1 Hfp2 Hdir1 Hdir2 lim part1 part2.
  assert (lim < length d ≤ 2 * lim)%nat as Hlen by (unfold lim; lia).
  assert (length part1 = lim) as Hlen1 by (unfold part1; rewrite length_take; lia).
  assert (length part2 = lim) as Hlen2.
  { unfold part2. rewrite length_app, !length_drop, length_take. lia. }
  split_and!; [|done|done| |].
  - rewrite (Write_branch c src dst w d t Hsrc).
    destruct (Z.leb_spec yandex.limit (Z.of_nat (length d))); [|lia].
    rewrite (putSplitedFile_loop_eq _ _ _ _ _ Hsrc).
    rewrite (putSplitedFile_loop_two c src dst w d t td).
    + by rewrite length_replicate.
    + done.
    + done.
    + done.
    + by rewrite length_replicate.
    + unfold os.reads_to_end. rewrite Hsrc. lia.
    + done.
    + done.
    + done.
    + done.
  - unfold part2. rewrite take_app_length'; [done|]. rewrite length_drop. lia.
  - intros Hshort Heq. apply (f_equal length) in Heq.
    rewrite length_app, Hlen1, Hlen2 in Heq. unfold lim in *. lia.
Qed.

(** The theorem at a dump of 536870913 bytes: the two parts hold
    1073741824 bytes. *)
Lemma Write_pads_the_last_part_witness :
  Z.of_nat (length dump_over_limit) = 536870913
  ∧ yandex.Write (client_of (conf_ru "a/b/")) "/data/dump.bin" "dump.bin"
      (dump_machine dump_over_limit) =
    (Done None,
     uploaded "a/b/dump.bin/zip.002"
       ("b"%byte :: replicate (Z.to_nat yandex.limit - 1) "a"%byte)
       (uploaded "a/b/dump.bin/zip.001" (replicate (Z.to_nat yandex.limit) "a"%byte)
          (dump_machine dump_over_limit)))
  ∧ Z.of_nat (length (replicate (Z.to_nat yandex.limit) "a"%byte
                        ++ "b"%byte :: replicate (Z.to_nat yandex.limit - 1) "a"%byte))
    = 1073741824.
Proof.
  pose proof limit_pos as Hpos.
  pose proof (one_byte_over (Z.to_nat yandex.limit) "a" "b" Hpos) as [Htake Hdrop].
  split_and!.
  - rewrite length_dump_over_limit. unfold yandex.limit. lia.
  - destruct (Write_pads_the_last_part (client_of (conf_ru "a/b/")) "/data/dump.bin"
                "dump.bin" (dump_machine dump_over_limit) dump_over_limit 0 0)
      as [HWrite _].
    + apply ready_client_ru.
    + discriminate.
    + apply dump_machine_src.
    + rewrite length_dump_over_limit. unfold yandex.limit. lia.
    + apply dump_machine_free; discriminate.
    + apply dump_machine_free; discriminate.
    + apply dump_machine_tmp.
    + apply dump_machine_tmp.
    + rewrite HWrite, length_dump_over_limit. unfold dump_over_limit.
      rewrite Hdrop, Htake. reflexivity.
  - rewrite length_app, length_cons, !length_replicate. unfold yandex.limit. lia.
Defined.

(** C2, as the code has it: a file under the threshold of 536870912 bytes
    goes up whole, as one object under the normalized key; a file of the
    threshold's size or more goes to the chunked upload. *)
Theorem Write_splits_from_the_threshold c src dst w d t :
  os.node_at w src = Some (RegularFile d t) →
  yandex.limit = 536870912
  ∧ (Z.of_nat (length d) < yandex.limit →
       yandex.Write c src dst w = yandex.putOnce c src dst w
       ∧ (ready c → yandex.cloudRoot c ≠ "" →
          yandex.Write c src dst w =
            (Done None, uploaded (normalize (yandex.cloudRoot c) dst) d w)))
  ∧ (yandex.limit ≤ Z.of_nat (length d) →
       yandex.Write c src dst w = yandex.putSplitedFile c src dst w).
Proof.
  intros Hsrc. rewrite (Write_branch c src dst w d t Hsrc).
  split; [done|]. split.
  - intros Hsize. destruct (Z.leb_spec yandex.limit (Z.of_nat (length d))); [lia|].
    split; [done|]. intros Hc Hroot. by apply (put_uploads c src dst w d t).
  - intros Hsize. by destruct (Z.leb_spec yandex.limit (Z.of_nat (length d))); [|lia].
Qed.

(** The theorem at a file of one byte. *)
Lemma Write_splits_from_the_threshold_witness :
  yandex.Write (client_of (conf_ru "a/b/")) "/etc/hostname" "hostname.txt" host_machine =
    (Done None, uploaded "a/b/hostname.txt" ["h"%byte] host_machine).
Proof.
  apply (proj1 (proj2 (Write_splits_from_the_threshold (client_of (conf_ru "a/b/"))
                         "/etc/hostname" "hostname.txt" host_machine ["h"%byte] 0 eq_refl))).
  - reflexivity.
  - apply ready_client_ru.
  - discriminate.
Defined.

(** C2 fails at a dump of exactly the threshold's size: [Write] does not put
    it whole under its key, as [putOnce] would, but as the part [zip.001]. *)
Lemma Write_at_the_threshold_is_chunked :
  Z.of_nat (length dump_at_limit) = 536870912
  ∧ yandex.Write (client_of (conf_ru "a/b/")) "/data/dump.bin" "dump.bin"
      (dump_machine dump_at_limit) =
    (Done None, uploaded "a/b/dump.bin/zip.001" dump_at_limit (dump_machine dump_at_limit))
  ∧ yandex.putOnce (client_of (conf_ru "a/b/")) "/data/dump.bin" "dump.bin"
      (dump_machine dump_at_limit) =
    (Done None, uploaded "a/b/dump.bin" dump_at_limit (dump_machine dump_at_limit))
  ∧ yandex.Write (client_of (conf_ru "a/b/")) "/data/dump.bin" "dump.bin"
      (dump_machine dump_at_limit) ≠
    yandex.putOnce (client_of (conf_ru "a/b/")) "/data/dump.bin" "dump.bin"
      (dump_machine dump_at_limit).
Proof.
  split; [|split; [|split]].
  - rewrite length_dump_at_limit. unfold yandex.limit. lia.
  - apply Write_dump_at_limit.
  - apply putOnce_dump_at_limit.
  - rewrite Write_dump_at_limit, putOnce_dump_at_limit. intros Heq.
    apply (f_equal (λ r, List.map fst (requests r.2))) in Heq.
    discriminate Heq.
Qed.

(** ** The local backend *)

(** C3, on the machine of the scenario: the root and the parent directory
    of the destination are made, but the one byte of [/etc/hostname]
    arrives as a block of 4096 bytes, the byte and 4095 zeros; and the
    empty file written over [old.txt] leaves the three old bytes in place,
    the file that was there being neither removed nor cut. *)
Theorem local_Write_copies_whole_blocks :
  (local.Write store_client "/etc/hostname" "sub/hostname.txt" host_machine).1 = Done None
  ∧ nodes (local.Write store_client "/etc/hostname" "sub/hostname.txt" host_machine).2
      !! "/tmp/store/sub" = Some (Directory 1700000000)
  ∧ nodes (local.Write store_client "/etc/hostname" "sub/hostname.txt" host_machine).2
      !! "/tmp/store/sub/hostname.txt"
    = Some (RegularFile ("h"%byte :: replicate 4095 x00) 1700000000)
  ∧ (local.Write store_client "/etc/empty" "old.txt" host_machine).1 = Done None
  ∧ nodes (local.Write store_client "/etc/empty" "old.txt" host_machine).2
      !! "/tmp/store/old.txt"
    = Some (RegularFile ["o"%byte; "l"%byte; "d"%byte] 0).
Proof. split_and!; vm_compute; reflexivity. Qed.

(** C6 fails on the same machine: after [Write] of the one-byte file, [Read]
    of the key finds no file, since [Read] does not join the key to the
    root; and [Read] of the written path returns 4096 bytes, not the
    source's one. *)
Lemma local_Read_after_Write_differs :
  (local.Write store_client "/etc/hostname" "sub/hostname.txt" host_machine).1 = Done None
  ∧ (local.Read store_client "/tmp/store/sub/hostname.txt"
       (local.Write store_client "/etc/hostname" "sub/hostname.txt" host_machine).2).1
    = Done ("h"%byte :: replicate 4095 x00, None)
  ∧ (local.Read store_client "sub/hostname.txt"
       (local.Write store_client "/etc/hostname" "sub/hostname.txt" host_machine).2).1
    = Done ([], Some (ENOENT "sub/hostname.txt"))
  ∧ (local.Read store_client "/etc/hostname" host_machine).1 = Done (["h"%byte], None).
Proof. split_and!; vm_compute; reflexivity. Qed.

(** ** The remote [Read] *)

(** The loop of [Read] ends for every body, and never with an error. *)
Lemma yandex_Read_loop_ends fuel body buf buffer w :
  (length body < fuel)%nat →
  ∃ bytes, yandex.Read_loop fuel body buf buffer w = (Done bytes, w).
Proof.
  revert body buf buffer. induction fuel as [|fuel IH]; intros body buf buffer Hfuel; [lia|].
  cbn [yandex.Read_loop]. destruct body as [|[chunk err] body]; cbn [s3.Body_Read].
  - cbn. by eexists.
  - destruct (0 <? _).
    + apply IH. cbn [length] in Hfuel. lia.
    + destruct err; [by eexists|]. apply IH. cbn [length] in Hfuel. lia.
Qed.

(** Whatever the network does to the body, [Read] of an object that is
    there returns no error. *)
Lemma yandex_Read_returns_no_error c key w o :
  s3.resolve (yandex.s3client c) = None → objects w !! key = Some o →
  ∃ bytes, yandex.Read c key w = (Done (bytes, None), w).
Proof.
  intros Hres Hkey. unfold yandex.Read.
  erewrite bind_Done.
  2:{ unfold s3.GetObject. unfold_M. rewrite Hres, Hkey. reflexivity. }
  cbv beta iota. cbn [s3.ContentLength s3.Body].
  destruct (Z.ltb_spec (Z.of_nat (length (Data o))) 0); [lia|].
  destruct (yandex_Read_loop_ends (S (length (wire w key (Data o)))) (wire w key (Data o))
              (replicate (Z.to_nat (Z.of_nat (length (Data o)))) x00) [] w)
    as [bytes Hloop]; [lia|].
  exists bytes. by erewrite bind_Done.
Qed.

(** A body that arrives whole, in pieces that fit the buffer, is drained to
    its last byte. *)
Lemma yandex_Read_loop_drains fuel (pieces : list (list byte)) buf buffer w :
  (length pieces < fuel)%nat →
  Forall (λ piece, length piece ≤ length buf)%nat pieces →
  yandex.Read_loop fuel (List.map (λ piece, (piece, None)) pieces) buf buffer w =
    (Done (buffer ++ concat pieces), w).
Proof.
  revert pieces buf buffer.
  induction fuel as [|fuel IH]; intros pieces buf buffer Hfuel Hfit; [lia|].
  cbn [yandex.Read_loop]. destruct pieces as [|piece pieces]; cbn [List.map s3.Body_Read].
  - cbn. by rewrite app_nil_r.
  - apply Forall_cons in Hfit as [Hpiece Hfit].
    rewrite take_ge by done.
    destruct (Z.ltb_spec 0 (Z.of_nat (length piece))) as [Hpos|Hzero].
    + rewrite IH.
      * rewrite Nat2Z.id, take_app_length. cbn [concat]. by rewrite app_assoc.
      * cbn [length] in Hfuel. lia.
      * rewrite length_app, length_drop.
        eapply Forall_impl; [exact Hfit|]. cbn beta. intros piece' Hle. lia.
    + assert (piece = []) as -> by (destruct piece; [done|cbn [length] in Hzero; lia]).
      cbn [app drop length concat]. apply IH; [cbn [length] in Hfuel; lia|done].
Qed.

(** C4, on a bucket behind a network that breaks after three of the six
    bytes of an object: [Read] returns the three bytes and no error. *)
Theorem Read_drops_the_transport_error :
  yandex.Read (client_of (conf_ru "a/b/")) "a/b/k" broken_network =
    (Done ([x01; x02; x03], None), broken_network).
Proof. vm_compute. reflexivity. Qed.

(** ** Construction and the endpoint resolver *)

Lemma NewClient_not_loaded conf w e :
  config_error w = Some e →
  (yandex.NewClient conf w).1 = Done (None, Some ErrLoadingConfiguration).
Proof.
  intros Hcfg. unfold yandex.NewClient, env.Set_, config.LoadDefaultConfig. unfold_M.
  cbn [config_error set_environ environ]. by rewrite Hcfg.
Qed.

Lemma yandexResolver_other service region :
  region ≠ "ru-central1" →
  yandex.yandexResolver service region =
    ({| aws.PartitionID := ""; aws.URL := ""; aws.SigningRegion := "" |},
     Some (Errorf "unknown endpoint requested")).
Proof.
  intros Hregion. unfold yandex.yandexResolver.
  destruct (String.eqb_spec region "ru-central1"); [done|].
  by rewrite andb_false_r.
Qed.

Lemma resolve_other conf :
  unit.Region conf ≠ "ru-central1" →
  s3.resolve (yandex.s3client (client_of conf)) = Some (Errorf "unknown endpoint requested").
Proof.
  intros Hregion. unfold s3.resolve, client_of.
  cbn [yandex.s3client s3.cfg s3.NewFromConfig aws.EndpointResolverWithOptions aws.Region].
  by rewrite yandexResolver_other.
Qed.

(** C5, as the code has it: the resolver that [NewClient] installs sends the
    S3 service in region [ru-central1] to [https://storage.yandexcloud.net]
    and answers any other region with the error [unknown endpoint
    requested]. [NewClient] does not consult it: it fails with
    [ErrLoadingConfiguration] when the configuration cannot be loaded, and
    returns a client otherwise, whatever the region; with another region it
    is the requests of that client that fail, with the resolver's error. *)
Theorem resolver_is_consulted_by_requests :
  yandex.yandexResolver s3.ServiceID "ru-central1" =
    ({| aws.PartitionID := "yc";
        aws.URL := "https://storage.yandexcloud.net";
        aws.SigningRegion := "ru-central1" |}, None)
  ∧ (∀ service region, region ≠ "ru-central1" →
       (yandex.yandexResolver service region).2 = Some (Errorf "unknown endpoint requested"))
  ∧ (∀ conf w,
       (yandex.NewClient conf w).1 =
         match config_error w with
         | None => Done (Some (client_of conf), None)
         | Some _ => Done (None, Some ErrLoadingConfiguration)
         end)
  ∧ (∀ conf key w, unit.Region conf ≠ "ru-central1" →
       yandex.Read (client_of conf) key w =
         (Done ([], Some (Errorf "unknown endpoint requested")), w)
       ∧ yandex.Ls (client_of conf) key w =
         (Done ([], Some (Errorf "unknown endpoint requested")), w)
       ∧ yandex.Remove (client_of conf) key w =
         (Done (Some (Errorf "unknown endpoint requested")), w)).
Proof.
  split_and!.
  - reflexivity.
  - intros service region Hregion. by rewrite yandexResolver_other.
  - intros conf w. destruct (config_error w) as [e|] eqn:Hcfg.
    + by apply (NewClient_not_loaded conf w e).
    + by apply NewClient_loaded.
  - intros conf key w Hregion. pose proof (resolve_other conf Hregion) as Hres.
    split_and!.
    + unfold yandex.Read, s3.GetObject. unfold_M. by rewrite Hres.
    + unfold yandex.Ls, s3.ListObjectsV2. unfold_M. by rewrite Hres.
    + unfold yandex.Remove, s3.DeleteObject. by rewrite Hres.
Qed.

(** The theorem at a client for region [us-east-1]. *)
Lemma resolver_is_consulted_by_requests_witness :
  yandex.Remove (client_of conf_us) "a/b/k" (machine ∅) =
    (Done (Some (Errorf "unknown endpoint requested")), machine ∅).
Proof.
  apply (proj2 (proj2 (proj2 resolver_is_consulted_by_requests)) conf_us "a/b/k" (machine ∅)).
  discriminate.
Defined.

(** C5 fails for region [us-east-1]: [NewClient] returns a client. *)
Lemma NewClient_accepts_another_region :
  unit.Region conf_us = "us-east-1"
  ∧ (yandex.NewClient conf_us (machine ∅)).1 = Done (Some (client_of conf_us), None).
Proof. split; [reflexivity|]. by apply NewClient_loaded. Qed.

(** ** Listing *)

Lemma append_empty_r s : s +:+ "" = s.
Proof.
  induction s as [|c s IH]; [done|].
  change (String c s +:+ "") with (String c (s +:+ "")). by rewrite IH.
Qed.

Lemma append_assoc_char seg c x : (seg +:+ String c "") +:+ x = seg +:+ String c x.
Proof.
  induction seg as [|a seg IH]; [done|].
  change (String a (((seg +:+ String c "") +:+ x)) = String a (seg +:+ String c x)).
  by rewrite IH.
Qed.

Lemma final_segment_from_Split seg s :
  final_segment_from seg s =
    match Split s slash with
    | [x] => seg +:+ x
    | l => List.last l ""
    end.
Proof.
  revert seg. induction s as [|c r IH]; intros seg.
  - cbn [final_segment_from Split]. by rewrite append_empty_r.
  - cbn [final_segment_from Split]. destruct (Ascii.eqb c slash).
    + rewrite IH. pose proof (Split_nonempty r slash).
      destruct (Split r slash) as [|x [|y l]]; done.
    + rewrite IH. pose proof (Split_nonempty r slash).
      destruct (Split r slash) as [|x [|y l]]; [done| |done].
      apply append_assoc_char.
Qed.

Lemma final_segment_last key : final_segment key = List.last (Split key slash) "".
Proof.
  unfold final_segment. rewrite final_segment_from_Split.
  by destruct (Split key slash) as [|x [|y l]].
Qed.

Lemma foldl_Ls_step files ls :
  foldl yandex.Ls_step files ls = files ++ entries ls.
Proof.
  revert files. induction ls as [|o ls IH]; intros files.
  - unfold entries. cbn. by rewrite app_nil_r.
  - cbn [foldl]. rewrite IH. unfold entries, yandex.Ls_step.
    cbn [List.filter]. unfold has_name at 2. rewrite final_segment_last.
    destruct (negb _) eqn:Hname; [|done].
    cbn [List.map]. unfold entry_of at 2. rewrite final_segment_last.
    by rewrite <- app_assoc.
Qed.

Lemma filter_none {A} (f : A → bool) (l : list A) :
  (∀ x, x ∈ l → f x = false) → List.filter f l = [].
Proof.
  induction l as [|a l IH]; intros Hall; [done|].
  cbn [List.filter]. rewrite (Hall a) by apply list_elem_of_here.
  apply IH. intros x Hx. apply Hall. by apply list_elem_of_further.
Qed.

Lemma contents_none w prefix :
  (∀ key o, objects w !! key = Some o → HasPrefix key prefix = false) →
  s3.contents w prefix = [].
Proof.
  intros Hnone. unfold s3.contents. rewrite filter_none; [done|].
  intros [key o] Hin. apply elem_of_map_to_list in Hin. by apply (Hnone key o).
Qed.

Lemma Stat_missing p w :
  os.node_at w p = None → os.Stat p w = (Done (Err (ENOENT p)), w).
Proof. intros Hp. unfold os.Stat. unfold_M. by rewrite Hp. Qed.

(** C8: the local [Ls] fails whenever the path is not an existing
    directory, with [ENOENT] when nothing is there and with [file is not a
    directory] when a file is; the remote [Ls] returns one entry for each
    listed key whose final segment is not empty, named by that segment, and
    no entry at all when no key of the bucket starts with the prefix. *)
Theorem Ls_local_fails_remote_lists :
  (∀ c path w,
     (os.node_at w path = None →
      local.Ls c path w = (Done ([], Some (ENOENT path)), w))
     ∧ (∀ d t, os.node_at w path = Some (RegularFile d t) →
        local.Ls c path w = (Done ([], Some (Errorf "file is not a directory")), w)))
  ∧ (∀ c path w, s3.resolve (yandex.s3client c) = None →
       yandex.Ls c path w = (Done (entries (s3.contents w path), None), w)
       ∧ ((∀ key o, objects w !! key = Some o → HasPrefix key path = false) →
          yandex.Ls c path w = (Done ([], None), w)))
  ∧ (∀ ls f, f ∈ entries ls →
       unit.Name f ≠ ""
       ∧ ∃ o, o ∈ ls ∧ unit.Name f = final_segment (s3.Key o)
              ∧ unit.Date f = s3.LastModified o).
Proof.
  split_and!.
  - intros c path w. split.
    + intros Hpath. unfold local.Ls.
      erewrite bind_Done; [|by apply Stat_missing]. done.
    + intros d t Hpath. unfold local.Ls.
      erewrite bind_Done; [|by apply Stat_existing]. done.
  - intros c path w Hres.
    assert (yandex.Ls c path w = (Done (entries (s3.contents w path), None), w)) as HLs.
    { unfold yandex.Ls, s3.ListObjectsV2. unfold_M. rewrite Hres.
      by rewrite foldl_Ls_step. }
    split; [done|]. intros Hnone. by rewrite HLs, contents_none.
  - intros ls f Hf. unfold entries in Hf.
    apply list_elem_of_fmap in Hf as (o & -> & Ho).
    apply list_elem_of_In, filter_In in Ho as [Ho Hname].
    split.
    + unfold has_name in Hname. cbn [unit.Name entry_of].
      intros Heq. rewrite Heq in Hname. done.
    + exists o. split; [by apply list_elem_of_In|done].
Qed.

(** The theorem at a path that is a regular file. *)
Lemma Ls_local_fails_remote_lists_witness :
  local.Ls store_client "/etc/hostname" host_machine =
    (Done ([], Some (Errorf "file is not a directory")), host_machine).
Proof.
  exact (proj2 (proj1 Ls_local_fails_remote_lists store_client "/etc/hostname" host_machine)
           ["h"%byte] 0 eq_refl).
Defined.

(** ** Removing *)

Lemma set_objects_same f w : f (objects w) = objects w → set_objects f w = w.
Proof. intros Heq. unfold set_objects. rewrite Heq. by destruct w. Qed.

Lemma set_nodes_same f w : f (nodes w) = nodes w → set_nodes f w = w.
Proof. intros Heq. unfold set_nodes. rewrite Heq. by destruct w. Qed.

Lemma RemoveAll_run p w :
  os.RemoveAll p w =
    (Done None,
     if String.eqb p "" then w
     else set_nodes (filter (λ kv, under p kv.1 = false)) w).
Proof. unfold os.RemoveAll. by destruct (String.eqb p ""). Qed.

(** C9: [Remove] of the local backend always succeeds, and a second
    [Remove] of the same path succeeds and changes nothing; when nothing is
    at the path or below it, the first changes nothing either. [Remove] of
    the remote backend, by a client whose requests reach the bucket,
    succeeds whether the key is there or not, a second one changes nothing,
    and so does the first when the key is not there. *)
Theorem Remove_is_idempotent :
  (∀ c path w,
     (local.Remove c path w).1 = Done None
     ∧ local.Remove c path (local.Remove c path w).2 =
         (Done None, (local.Remove c path w).2)
     ∧ ((∀ k n, nodes w !! k = Some n → under path k = false) →
        local.Remove c path w = (Done None, w)))
  ∧ (∀ c key w, s3.resolve (yandex.s3client c) = None →
       yandex.Remove c key w = (Done None, set_objects (delete key) w)
       ∧ yandex.Remove c key (yandex.Remove c key w).2 =
           (Done None, (yandex.Remove c key w).2)
       ∧ (objects w !! key = None → yandex.Remove c key w = (Done None, w))).
Proof.
  split.
  - intros c path w. unfold local.Remove. rewrite !RemoveAll_run. cbn [fst snd].
    split; [done|]. destruct (String.eqb path "") eqn:Hpath.
    + done.
    + split.
      * f_equal. apply set_nodes_same. cbn [nodes set_nodes].
        apply map_filter_id. intros k n Hk.
        by apply map_lookup_filter_Some in Hk as [_ Hk].
      * intros Hfree. f_equal. apply set_nodes_same.
        apply map_filter_id. intros k n Hk. by apply (Hfree k n).
  - intros c key w Hres.
    assert (∀ w', yandex.Remove c key w' = (Done None, set_objects (delete key) w')) as Hrun.
    { intros w'. unfold yandex.Remove, s3.DeleteObject. by rewrite Hres. }
    rewrite !Hrun. cbn [snd]. split_and!; [done| |].
    + f_equal. apply set_objects_same. cbn [objects set_objects].
      apply delete_id, lookup_delete_eq.
    + intros Hkey. f_equal. apply set_objects_same. by apply delete_id.
Qed.

(** The theorem at a key that the bucket does not hold. *)
Lemma Remove_is_idempotent_witness :
  yandex.Remove (client_of (conf_ru "a/b/")) "a/b/k" (machine ∅) =
    (Done None, machine ∅).
Proof.
  exact (proj2 (proj2 (proj2 Remove_is_idempotent (client_of (conf_ru "a/b/")) "a/b/k"
                         (machine ∅) eq_refl)) eq_refl).
Defined.

(** ** The local [Read] *)

Lemma store_run res buffer o j count w :
  (j + count ≤ length buffer)%nat → (o + j + count ≤ length res)%nat →
  local.store res buffer (Z.of_nat o) (Z.of_nat j) count w =
    (Done (take (o + j) res ++ take count (drop j buffer) ++ drop (o + j + count) res), w).
Proof.
  revert res j. induction count as [|count IH]; intros res j Hbuf Hres.
  - cbn [local.store]. rewrite Nat.add_0_r, take_0, app_nil_l. by rewrite take_drop.
  - cbn [local.store]. rewrite Nat2Z.id.
    destruct (lookup_lt_is_Some_2 buffer j) as [b Hb]; [lia|]. rewrite Hb.
    destruct (Z.ltb_spec (Z.of_nat o + Z.of_nat j) 0); [lia|].
    destruct (Z.leb_spec (Z.of_nat (length res)) (Z.of_nat o + Z.of_nat j)); [lia|].
    cbn [orb]. replace (Z.of_nat j + 1) with (Z.of_nat (S j)) by lia.
    replace (Z.to_nat (Z.of_nat o + Z.of_nat j)) with (o + j)%nat by lia.
    rewrite IH by (rewrite ?length_insert; lia).
    f_equal. f_equal.
    rewrite (drop_S buffer b j Hb), firstn_cons.
    replace (o + S j)%nat with (S (o + j)) by lia.
    rewrite take_S_r with (x := b) by (apply list_lookup_insert_eq; lia).
    rewrite take_insert_ge by lia.
    rewrite drop_insert_lt by lia.
    rewrite <- app_assoc. cbn [app].
    by replace (S (o + j) + count)%nat with (o + j + S count)%nat by lia.
Qed.

Lemma Read_loop_run fuel off offs res buffer w d t path :
  os.node_at w path = Some (RegularFile d t) →
  buffer ≠ [] →
  (off ≤ length d)%nat → (off < length d → offs = off)%nat →
  res = take off d ++ replicate (length d - off) x00 →
  (length d - off < fuel)%nat →
  local.Read_loop fuel {| os.name := path; os.mode := os.O_RDWR; os.offset := off |}
    buffer res (Z.of_nat offs) w = (Done (d, None), w).
Proof.
  intros Hpath. revert off offs res buffer.
  induction fuel as [|fuel IH]; intros off offs res buffer Hbuf Hoff Hoffs Hres Hfuel; [lia|].
  assert (0 < length buffer)%nat as Hpos by (destruct buffer; [done|cbn [length]; lia]).
  cbn [local.Read_loop].
  destruct (decide (off < length d)%nat) as [Hlt|Hge].
  - assert (take (length buffer) (drop off d) ≠ []) as Hchunk.
    { intros Hnil. apply (f_equal length) in Hnil.
      rewrite length_take, length_drop in Hnil. cbn [length] in Hnil. lia. }
    erewrite bind_Done; [|by apply (Read_chunk _ _ w d t)].
    cbn [os.offset os.name os.mode os.advance]. cbv beta iota.
    rewrite Nat2Z.id, (Hoffs Hlt).
    set (chunk := take (length buffer) (drop off d)) in *.
    assert (length chunk = Nat.min (length buffer) (length d - off)) as Hlen.
    { unfold chunk. by rewrite length_take, length_drop. }
    erewrite bind_Done.
    2:{ apply (store_run res _ off 0).
        - rewrite length_app, length_drop. lia.
        - rewrite Hres, length_app, length_take, length_replicate. lia. }
    rewrite Nat.add_0_r, drop_0, take_app_length.
    replace (Z.of_nat off + Z.of_nat (length (chunk ++ drop (length chunk) buffer)))
      with (Z.of_nat (off + length buffer))
      by (rewrite length_app, length_drop; lia).
    apply IH; cbn [os.offset os.name os.mode].
    + intros Hnil. apply (f_equal length) in Hnil.
      rewrite length_app, length_drop in Hnil. cbn [length] in Hnil. lia.
    + lia.
    + lia.
    + rewrite Hres. rewrite take_app_le, take_take by (rewrite length_take; lia).
      rewrite Nat.min_id.
      rewrite drop_app_ge by (rewrite length_take; lia).
      rewrite length_take, drop_replicate.
      rewrite <- (take_take_drop d off (length chunk)).
      rewrite <- app_assoc. do 2 f_equal.
      * rewrite Hlen. unfold chunk.
        destruct (decide (length buffer ≤ length d - off)%nat).
        -- by rewrite Nat.min_l by lia.
        -- rewrite Nat.min_r by lia. by rewrite !take_ge by (rewrite length_drop; lia).
      * f_equal. lia.
    + lia.
  - erewrite bind_Done; [|apply (Read_at_end _ _ w d t); try done; cbn; lia].
    cbv beta iota. unfold mret, M_ret.
    rewrite Hres. replace (length d - off)%nat with 0%nat by lia.
    rewrite take_ge by lia. cbn [replicate]. by rewrite app_nil_r.
Qed.

(** [Read] returns the content of a regular file, byte for byte, and
    leaves the world as it is. *)
Lemma Read_returns_the_file c path w d t :
  os.node_at w path = Some (RegularFile d t) →
  local.Read c path w = (Done (d, None), w).
Proof.
  intros Hpath. unfold local.Read.
  erewrite bind_Done.
  2:{ unfold os.OpenFile. unfold_M. rewrite Hpath. reflexivity. }
  cbv beta iota. unfold os.File_Stat. cbn [os.name].
  erewrite bind_Done; [|by apply Stat_existing]. cbv beta iota.
  erewrite bind_Done; [|reflexivity].
  cbn [os.info os.Size]. rewrite Nat2Z.id.
  apply (Read_loop_run _ 0 0 _ _ w d t).
  - done.
  - done.
  - lia.
  - done.
  - by rewrite take_0, Nat.sub_0_r.
  - unfold os.reads_to_end. rewrite Hpath. lia.
Qed.

(** ** [Read] after [Write] *)

Lemma bind_inv {A B} (m : M A) (k : A → M B) w b w'' :
  (m ≫= k) w = (Done b, w'') →
  ∃ a w', m w = (Done a, w') ∧ k a w' = (Done b, w'').
Proof.
  unfold mbind, M_bind. destruct (m w) as [[a|msg|] w']; [|done..].
  intros Hk. by exists a, w'.
Qed.

Lemma node_at_insert_file w p d t n :
  os.node_at w p = Some (RegularFile d t) →
  os.node_at (set_nodes (insert p n) w) p = Some n.
Proof.
  unfold os.node_at. destruct (String.eqb p "/" || String.eqb p "."); [done|].
  intros _. cbn [nodes set_nodes]. apply lookup_insert_eq.
Qed.

Lemma Read_pure fd buf w :
  ∃ n err buf' fd',
    os.Read fd buf w = (Done (n, err, buf', fd'), w) ∧ os.name fd' = os.name fd.
Proof.
  unfold os.Read. unfold_M.
  destruct (os.mode fd), (os.node_at w (os.name fd)) as [[d t|t]|], buf as [|b buf];
    try (by eexists _, _, _, _);
    destruct (take _ (drop (os.offset fd) d)); by eexists _, _, _, _.
Qed.

Lemma Write_keeps_file fd b w d t :
  os.node_at w (os.name fd) = Some (RegularFile d t) →
  ∃ n err fd' w' d' t',
    os.Write fd b w = (Done (n, err, fd'), w') ∧ os.name fd' = os.name fd
    ∧ os.node_at w' (os.name fd) = Some (RegularFile d' t').
Proof.
  intros Hfd. unfold os.Write. unfold_M. rewrite Hfd.
  destruct (os.mode fd).
  - by eexists _, _, _, _, _, _.
  - eexists _, _, _, _, _, _. split_and!; [done..|].
    by eapply node_at_insert_file.
  - eexists _, _, _, _, _, _. split_and!; [done..|].
    by eapply node_at_insert_file.
Qed.

Lemma Write_loop_keeps_file fuel rd fd buf w o w' d t :
  os.node_at w (os.name fd) = Some (RegularFile d t) →
  local.Write_loop fuel rd fd buf w = (o, w') →
  ∃ d' t', os.node_at w' (os.name fd) = Some (RegularFile d' t').
Proof.
  revert rd fd buf w d t. induction fuel as [|fuel IH]; intros rd fd buf w d t Hfd Hrun.
  - cbn in Hrun. injection Hrun as _ <-. by eexists _, _.
  - cbn [local.Write_loop] in Hrun.
    destruct (Read_pure rd buf w) as (n & err & buf' & rd' & Hread & _).
    erewrite bind_Done in Hrun by exact Hread. cbv beta iota in Hrun.
    destruct err as [e|].
    + assert (w' = w) as ->; [|by eexists _, _].
      destruct e; by injection Hrun.
    + destruct (0 <? n).
      * destruct (Write_keeps_file fd buf' w d t Hfd)
          as (m & werr & fd' & w1 & d1 & t1 & Hwrite & Hname & Hfd1).
        erewrite bind_Done in Hrun by exact Hwrite. cbv beta iota in Hrun.
        destruct werr as [e|].
        -- injection Hrun as _ <-. by eexists _, _.
        -- rewrite <- Hname in Hfd1.
           destruct (IH rd' fd' buf' w1 d1 t1 Hfd1 Hrun) as (d' & t' & Hfd').
           rewrite Hname in Hfd'. by eexists _, _.
      * by apply (IH rd' fd buf' w d t).
Qed.

Lemma IsExist_Stat p w :
  ∀ st w', os.Stat p w = (Done st, w') →
  w' = w ∧ IsExist (match st with Ok _ => None | Err e => Some e end) = false.
Proof.
  intros st w'. unfold os.Stat. unfold_M.
  destruct (os.node_at w p); intros [= <- <-]; done.
Qed.

Lemma OpenFile_create p w r w' :
  os.OpenFile p os.O_WRONLY true false w = (Done (Ok r), w') →
  os.name r = p ∧ ∃ d t, os.node_at w' p = Some (RegularFile d t).
Proof.
  unfold os.OpenFile. unfold_M.
  destruct (os.node_at w p) as [[d t|t]|] eqn:Hp.
  - intros [= <- <-]. split; [done|]. by eexists _, _.
  - done.
  - destruct (os.node_at w (path_dir p)) as [[d t|t]|]; [done| |done].
    intros [= <- <-]. split; [done|]. eexists _, _. by apply node_at_insert.
Qed.

Lemma OpenFile_read_only p w r w' :
  os.OpenFile p os.O_RDONLY false false w = (Done r, w') → w' = w.
Proof.
  unfold os.OpenFile. unfold_M.
  destruct (os.node_at w p) as [[d t|t]|]; by intros [= <- <-].
Qed.

(** A [Write] that succeeds leaves a regular file at the root joined with
    the destination. *)
Lemma Write_leaves_a_file c src dst w :
  (local.Write c src dst w).1 = Done None →
  ∃ d t, os.node_at (local.Write c src dst w).2 (fs.GetFullPath "" (local.root c) dst)
         = Some (RegularFile d t).
Proof.
  destruct (local.Write c src dst w) as [o w'] eqn:Hrun. cbn [fst snd].
  intros ->. unfold local.Write in Hrun.
  apply bind_inv in Hrun as ([e|] & w1 & _ & Hrun); [done|].
  apply bind_inv in Hrun as ([e|] & w2 & _ & Hrun); [done|].
  apply bind_inv in Hrun as (st & w3 & Hstat & Hrun).
  apply IsExist_Stat in Hstat as [-> Hexist]. rewrite Hexist in Hrun.
  apply bind_inv in Hrun as ([e|] & w4 & Hret & Hrun); [done|].
  injection Hret as <-.
  apply bind_inv in Hrun as ([fd|e] & w5 & Hopen & Hrun); [|done].
  apply OpenFile_create in Hopen as [Hname (d & t & Hfd)].
  apply bind_inv in Hrun as ([rd|e] & w6 & Hsrc & Hrun); [|done].
  apply OpenFile_read_only in Hsrc as ->.
  apply bind_inv in Hrun as (w7 & w8 & Hget & Hrun).
  injection Hget as <- <-.
  rewrite <- Hname in Hfd |- *.
  by apply (Write_loop_keeps_file _ _ _ _ _ _ _ d t Hfd Hrun).
Qed.

(** C6, as the code has it: [Read] takes the path as it is given and does
    not join it to the root; after a [Write] that succeeded, [Read] of the
    root joined with the key succeeds and returns, byte for byte, the
    content of the file that [Write] left there. *)
Theorem Read_returns_what_Write_left c src dst w :
  (local.Write c src dst w).1 = Done None →
  ∃ d t,
    os.node_at (local.Write c src dst w).2 (fs.GetFullPath "" (local.root c) dst)
      = Some (RegularFile d t)
    ∧ local.Read c (fs.GetFullPath "" (local.root c) dst) (local.Write c src dst w).2
      = (Done (d, None), (local.Write c src dst w).2).
Proof.
  intros Hrun. destruct (Write_leaves_a_file c src dst w Hrun) as (d & t & Hfile).
  exists d, t. split; [done|]. by apply (Read_returns_the_file _ _ _ d t).
Qed.

(** The theorem at the one-byte file of the scenario. *)
Lemma Read_returns_what_Write_left_witness :
  ∃ d t,
    os.node_at (local.Write store_client "/etc/hostname" "sub/hostname.txt" host_machine).2
      (fs.GetFullPath "" (local.root store_client) "sub/hostname.txt")
      = Some (RegularFile d t)
    ∧ local.Read store_client (fs.GetFullPath "" (local.root store_client) "sub/hostname.txt")
        (local.Write store_client "/etc/hostname" "sub/hostname.txt" host_machine).2
      = (Done (d, None), (local.Write store_client "/etc/hostname" "sub/hostname.txt" host_machine).2).
Proof.
  apply (Read_returns_what_Write_left store_client "/etc/hostname" "sub/hostname.txt" host_machine).
  vm_compute. reflexivity.
Defined.
(** * Further properties *)

(** ** Whole blocks *)

Lemma blocks_written_prefix fuel buf rest :
  buf ≠ [] → (length rest < fuel)%nat →
  take (length rest) (blocks_written fuel buf rest) = rest.
Proof.
  revert buf rest. induction fuel as [|fuel IH]; intros buf rest Hbuf Hfuel; [lia|].
  assert (0 < length buf)%nat as Hpos by (destruct buf; [done|cbn [length]; lia]).
  cbn [blocks_written].
  destruct (take (length buf) rest) as [|b chunk] eqn:Hchunk.
  - destruct rest as [|r rest]; [done|]. destruct buf; done.
  - rewrite <- Hchunk. clear b chunk Hchunk. cbv zeta.
    set (chunk := take (length buf) rest).
    assert (length chunk = Nat.min (length buf) (length rest)) as Hlen
      by (unfold chunk; apply length_take).
    destruct (decide (length rest ≤ length buf)%nat) as [Hle|Hgt].
    + assert (chunk = rest) as -> by (unfold chunk; by apply take_ge).
      rewrite <- app_assoc. by rewrite take_app_length.
    + rewrite <- app_assoc, take_app_ge by lia.
      rewrite take_app_ge by (rewrite length_drop; lia).
      rewrite length_drop, Hlen, Nat.min_l by lia.
      replace (length buf - length buf)%nat with 0%nat by lia.
      rewrite drop_all. cbn [app].
      replace (length rest - length buf - 0)%nat with (length (drop (length buf) rest))
        by (rewrite length_drop; lia).
      rewrite IH.
      * unfold chunk. apply take_drop.
      * intros Hnil. apply (f_equal length) in Hnil.
        rewrite ?length_app, ?length_drop in Hnil. cbn [length] in Hnil. lia.
      * rewrite length_drop. lia.
Qed.

Lemma blocks_written_length fuel buf rest :
  buf ≠ [] → (length rest < fuel)%nat →
  ∃ k, (length (blocks_written fuel buf rest) = k * length buf
        ∧ length rest ≤ k * length buf < length rest + length buf)%nat.
Proof.
  revert buf rest. induction fuel as [|fuel IH]; intros buf rest Hbuf Hfuel; [lia|].
  assert (0 < length buf)%nat as Hpos by (destruct buf; [done|cbn [length]; lia]).
  cbn [blocks_written].
  destruct (take (length buf) rest) as [|b chunk] eqn:Hchunk.
  - exists 0%nat. apply (f_equal length) in Hchunk. rewrite length_take in Hchunk.
    cbn [length] in *. lia.
  - rewrite <- Hchunk. cbv zeta.
    assert (0 < length rest)%nat as Hrest.
    { destruct rest; [by rewrite take_nil in Hchunk|cbn [length]; lia]. }
    clear b chunk Hchunk.
    set (chunk := take (length buf) rest).
    assert (length chunk = Nat.min (length buf) (length rest)) as Hlen
      by (unfold chunk; apply length_take).
    assert (length (chunk ++ drop (length chunk) buf) = length buf) as Hbuf'
      by (rewrite length_app, length_drop; lia).
    destruct (IH (chunk ++ drop (length chunk) buf) (drop (length chunk) rest))
      as (k & Hk & Hbounds).
    + intros Hnil. rewrite Hnil in Hbuf'. cbn [length] in Hbuf'. lia.
    + rewrite length_drop. lia.
    + exists (S k). rewrite length_app, Hk, Hbuf'. rewrite Hbuf', length_drop in Hbounds.
      rewrite Nat.mul_succ_l. split; [lia|].
      destruct (decide (length rest ≤ length buf)%nat).
      * rewrite Nat.min_r in Hlen by lia. rewrite Hlen, Nat.sub_diag in Hbounds.
        assert (k = 0)%nat as -> by (destruct k; [done|lia]). lia.
      * rewrite Nat.min_l in Hlen by lia. rewrite Hlen in Hbounds. lia.
Qed.

Lemma blocks_written_exact fuel buf rest k :
  buf ≠ [] → (length rest < fuel)%nat → (length rest = k * length buf)%nat →
  blocks_written fuel buf rest = rest.
Proof.
  intros Hbuf Hfuel Hk.
  destruct (blocks_written_length fuel buf rest Hbuf Hfuel) as (k' & Hlen & Hbounds).
  rewrite <- (blocks_written_prefix fuel buf rest Hbuf Hfuel) at 2.
  symmetry. apply take_ge. rewrite Hlen.
  assert (k' = k) as -> by nia. lia.
Qed.

Lemma overwrite_app d off b1 b2 :
  os.overwrite (os.overwrite d off b1) (off + length b1) b2 = os.overwrite d off (b1 ++ b2).
Proof.
  unfold os.overwrite.
  set (front := take off d ++ replicate (off - length d) x00).
  assert (length front = off) as Hfront.
  { unfold front. rewrite length_app, length_take, length_replicate. lia. }
  rewrite !app_assoc. fold front. rewrite <- !app_assoc.
  replace (front ++ b1 ++ drop (off + length b1) d)
    with ((front ++ b1) ++ drop (off + length b1) d) by by rewrite <- app_assoc.
  rewrite take_app_length' by (rewrite length_app; lia).
  rewrite drop_app_ge by (rewrite length_app; lia).
  rewrite !length_app, length_drop, Hfront, drop_drop.
  replace (off + length b1 - (off + length b1 + (length d - (off + length b1))))%nat
    with 0%nat by lia.
  cbn [replicate app]. rewrite <- !app_assoc. do 3 f_equal. f_equal. lia.
Qed.

Lemma set_nodes_insert_twice p n1 n2 w :
  set_nodes (insert p n2) (set_nodes (insert p n1) w) = set_nodes (insert p n2) w.
Proof. unfold set_nodes. cbn. by rewrite insert_insert_eq. Qed.

(** The copy loop of the local [Write], from any point of the copy: the
    destination gets the blocks written, from the write offset on. *)
Lemma Write_loop_run fuel src fpf d t off buf woff cur tcur w :
  src ≠ fpf →
  os.node_at w src = Some (RegularFile d t) →
  os.node_at w fpf = Some (RegularFile cur tcur) →
  buf ≠ [] → (length d - off < fuel)%nat →
  local.Write_loop fuel {| os.name := src; os.mode := os.O_RDONLY; os.offset := off |}
    {| os.name := fpf; os.mode := os.O_WRONLY; os.offset := woff |} buf w =
    (Done None,
     match blocks_written fuel buf (drop off d) with
     | [] => w
     | blocks =>
         set_nodes (insert fpf (RegularFile (os.overwrite cur woff blocks) (clock w))) w
     end).
Proof.
  intros Hne. revert off buf woff cur tcur w.
  induction fuel as [|fuel IH]; intros off buf woff cur tcur w Hsrc Hdst Hbuf Hfuel; [lia|].
  assert (0 < length buf)%nat as Hpos by (destruct buf; [done|cbn [length]; lia]).
  cbn [local.Write_loop blocks_written].
  destruct (take (length buf) (drop off d)) as [|b chunk] eqn:Hchunk.
  - erewrite bind_Done.
    2:{ apply (Read_at_end _ _ w d t); [done|done|done|]. cbn [os.offset].
        apply (f_equal length) in Hchunk. rewrite length_take, length_drop in Hchunk.
        cbn [length] in Hchunk. lia. }
    done.
  - erewrite bind_Done.
    2:{ apply (Read_chunk _ _ w d t); [done|done|done|]. cbn [os.offset]. by rewrite Hchunk. }
    cbn [os.offset os.advance os.name os.mode]. rewrite Hchunk. cbv beta iota zeta.
    set (buf' := (b :: chunk) ++ drop (length (b :: chunk)) buf).
    assert (buf' ≠ []) as Hbuf' by done.
    destruct (Z.ltb_spec 0 (Z.of_nat (length (b :: chunk)))) as [_|Hz];
      [|cbn [length] in Hz; lia].
    erewrite bind_Done; [|by apply (Write_file _ _ w cur tcur)].
    cbn [os.offset os.advance os.name os.mode]. cbv beta iota.
    set (w1 := set_nodes _ w). unfold os.advance. cbn [os.offset os.name os.mode].
    rewrite (IH _ buf' _ (os.overwrite cur woff buf') (clock w) w1).
    + rewrite drop_drop. unfold w1.
      destruct (blocks_written fuel buf' (drop (off + length (b :: chunk)) d)) as [|x blocks].
      * rewrite app_nil_r. by destruct buf'.
      * rewrite set_nodes_insert_twice, overwrite_app.
        destruct buf' as [|y buf'']; [done|]. reflexivity.
    + unfold w1. by rewrite node_at_insert_ne.
    + unfold w1. by eapply node_at_insert_file.
    + done.
    + apply (f_equal length) in Hchunk. rewrite length_take, length_drop in Hchunk.
      cbn [length] in *. lia.
Qed.

Lemma stat_or_mkdir_existing dir w n :
  os.node_at w dir = Some n → local.stat_or_mkdir dir w = (Done None, w).
Proof.
  intros Hdir. unfold local.stat_or_mkdir.
  erewrite bind_Done; [|by apply Stat_existing]. done.
Qed.

Lemma overwrite_from_start old blocks :
  os.overwrite old 0 blocks = blocks ++ drop (length blocks) old.
Proof. unfold os.overwrite. by rewrite take_0. Qed.

(** [Write] when the root and the parent of the destination are there, the
    source is a regular file other than the destination, and the
    destination is a regular file already: the blocks go over the old
    content from its start, and nothing is cut off. *)
Lemma Write_over_existing c src dst w d t tr tp old told :
  os.node_at w (local.root c) = Some (Directory tr) →
  os.node_at w (fs.Dir (fs.GetFullPath "" (local.root c) dst)) = Some (Directory tp) →
  os.node_at w src = Some (RegularFile d t) →
  src ≠ fs.GetFullPath "" (local.root c) dst →
  os.node_at w (fs.GetFullPath "" (local.root c) dst) = Some (RegularFile old told) →
  local.Write c src dst w =
    (Done None,
     match blocks_written (S (length d)) (replicate 4096 x00) d with
     | [] => w
     | blocks =>
         set_nodes (insert (fs.GetFullPath "" (local.root c) dst)
                      (RegularFile (blocks ++ drop (length blocks) old) (clock w))) w
     end).
Proof.
  intros Hroot Hfpd Hsrc Hne Hdst. unfold local.Write.
  erewrite bind_Done; [|by eapply stat_or_mkdir_existing]. cbv beta iota zeta.
  erewrite bind_Done; [|by eapply stat_or_mkdir_existing]. cbv beta iota.
  erewrite bind_Done; [|by eapply Stat_existing]. cbv beta iota. cbn [IsExist].
  erewrite bind_Done; [|reflexivity]. cbv beta iota.
  erewrite bind_Done.
  2:{ unfold os.OpenFile. unfold_M. rewrite Hdst. reflexivity. }
  cbv beta iota.
  erewrite bind_Done.
  2:{ unfold os.OpenFile. unfold_M. rewrite Hsrc. reflexivity. }
  cbv beta iota.
  erewrite bind_Done; [|reflexivity].
  unfold os.reads_to_end. rewrite Hsrc.
  change (Z.to_nat local.bufferOffset) with 4096%nat.
  rewrite (Write_loop_run _ src _ d t 0 _ 0 old told w) by (done || lia).
  rewrite drop_0.
  destruct (blocks_written (S (length d)) (replicate 4096 x00) d); [done|].
  by rewrite overwrite_from_start.
Qed.

(** The same when nothing is at the destination: the file is created. *)
Lemma Write_to_fresh c src dst w d t tr tp :
  os.node_at w (local.root c) = Some (Directory tr) →
  os.node_at w (fs.Dir (fs.GetFullPath "" (local.root c) dst)) = Some (Directory tp) →
  os.node_at w src = Some (RegularFile d t) →
  os.node_at w (fs.GetFullPath "" (local.root c) dst) = None →
  local.Write c src dst w =
    (Done None,
     set_nodes (insert (fs.GetFullPath "" (local.root c) dst)
                  (RegularFile (blocks_written (S (length d)) (replicate 4096 x00) d)
                     (clock w))) w).
Proof.
  intros Hroot Hfpd Hsrc Hdst.
  assert (fs.GetFullPath "" (local.root c) dst ≠ src) as Hne by (intros <-; congruence).
  unfold local.Write.
  erewrite bind_Done; [|by eapply stat_or_mkdir_existing]. cbv beta iota zeta.
  erewrite bind_Done; [|by eapply stat_or_mkdir_existing]. cbv beta iota.
  erewrite bind_Done; [|by eapply Stat_missing]. cbv beta iota. cbn [IsExist].
  erewrite bind_Done; [|reflexivity]. cbv beta iota.
  erewrite bind_Done.
  2:{ unfold os.OpenFile. unfold_M. rewrite Hdst.
      unfold fs.Dir in Hfpd. rewrite Hfpd. reflexivity. }
  cbv beta iota. set (w0 := set_nodes _ w).
  assert (os.node_at w0 src = Some (RegularFile d t)) as Hsrc0
    by (unfold w0; by rewrite node_at_insert_ne).
  erewrite bind_Done.
  2:{ unfold os.OpenFile. unfold_M. rewrite Hsrc0. reflexivity. }
  cbv beta iota.
  erewrite bind_Done; [|reflexivity].
  unfold os.reads_to_end. rewrite Hsrc0.
  change (Z.to_nat local.bufferOffset) with 4096%nat.
  assert (os.node_at w0 (fs.GetFullPath "" (local.root c) dst)
          = Some (RegularFile [] (clock w))) as Hdst0
    by (unfold w0; by apply node_at_insert).
  rewrite (Write_loop_run _ src _ d t 0 _ 0 [] (clock w) w0) by (done || lia).
  rewrite drop_0. unfold w0.
  destruct (blocks_written (S (length d)) (replicate 4096 x00) d) as [|b blocks]; [done|].
  rewrite set_nodes_insert_twice, overwrite_from_start. by rewrite drop_nil, app_nil_r.
Qed.

(** ** The local [Write], in general *)

(** X1: with the root and the parent directory in place and nothing at the
    destination, [Write] of a regular file succeeds and creates the
    destination, changing nothing else. The destination starts with the
    bytes of the source, and its length is the source's rounded up to a
    whole number of blocks of 4096 bytes. *)
Theorem local_Write_rounds_up_to_blocks c src dst w d t tr tp :
  os.node_at w (local.root c) = Some (Directory tr) →
  os.node_at w (fs.Dir (fs.GetFullPath "" (local.root c) dst)) = Some (Directory tp) →
  os.node_at w src = Some (RegularFile d t) →
  os.node_at w (fs.GetFullPath "" (local.root c) dst) = None →
  ∃ content,
    local.Write c src dst w =
      (Done None,
       set_nodes (insert (fs.GetFullPath "" (local.root c) dst)
                    (RegularFile content (clock w))) w)
    ∧ take (length d) content = d
    ∧ ∃ k, (length content = k * 4096 ∧ length d ≤ k * 4096 < length d + 4096)%nat.
Proof.
  intros Hroot Hfpd Hsrc Hdst.
  exists (blocks_written (S (length d)) (replicate 4096 x00) d).
  split; [by apply (Write_to_fresh c src dst w d t tr tp)|].
  split; [apply blocks_written_prefix; [done|lia]|].
  destruct (blocks_written_length (S (length d)) (replicate 4096 x00) d)
    as (k & Hk & Hbounds); [done|lia|].
  rewrite length_replicate in Hk, Hbounds. by exists k.
Qed.

(** The theorem at the one-byte file of the scenario. *)
Lemma local_Write_rounds_up_to_blocks_witness :
  ∃ content,
    local.Write store_client "/etc/hostname" "hostname.txt" host_machine =
      (Done None,
       set_nodes (insert (fs.GetFullPath "" (local.root store_client) "hostname.txt")
                    (RegularFile content (clock host_machine))) host_machine)
    ∧ take (length ["h"%byte]) content = ["h"%byte]
    ∧ ∃ k, (length content = k * 4096
            ∧ length ["h"%byte] ≤ k * 4096 < length ["h"%byte] + 4096)%nat.
Proof.
  exact (local_Write_rounds_up_to_blocks store_client "/etc/hostname" "hostname.txt"
           host_machine ["h"%byte] 0 0 0 eq_refl eq_refl eq_refl eq_refl).
Defined.

(** X2: under the same conditions a source of a whole number of blocks is
    copied exactly, and [Read] of the destination then returns the source:
    the round trip holds for such sources. *)
Theorem local_round_trip_for_whole_blocks c src dst w d t tr tp k :
  os.node_at w (local.root c) = Some (Directory tr) →
  os.node_at w (fs.Dir (fs.GetFullPath "" (local.root c) dst)) = Some (Directory tp) →
  os.node_at w src = Some (RegularFile d t) →
  os.node_at w (fs.GetFullPath "" (local.root c) dst) = None →
  (length d = k * 4096)%nat →
  local.Write c src dst w =
    (Done None,
     set_nodes (insert (fs.GetFullPath "" (local.root c) dst) (RegularFile d (clock w))) w)
  ∧ local.Read c (fs.GetFullPath "" (local.root c) dst) (local.Write c src dst w).2 =
    (Done (d, None), (local.Write c src dst w).2).
Proof.
  intros Hroot Hfpd Hsrc Hdst Hk.
  assert (local.Write c src dst w =
          (Done None,
           set_nodes (insert (fs.GetFullPath "" (local.root c) dst)
                        (RegularFile d (clock w))) w)) as Hrun.
  { rewrite (Write_to_fresh c src dst w d t tr tp) by done.
    rewrite (blocks_written_exact _ _ _ k); [done|done|lia|by rewrite length_replicate]. }
  split; [done|]. rewrite Hrun. cbn [snd].
  apply (Read_returns_the_file _ _ _ d (clock w)). by apply node_at_insert.
Qed.

(** The theorem at the file of one block. *)
Lemma local_round_trip_for_whole_blocks_witness :
  local.Write store_client "/etc/block" "block.bin" block_machine =
    (Done None,
     set_nodes (insert (fs.GetFullPath "" (local.root store_client) "block.bin")
                  (RegularFile (replicate 4096 "a"%byte) (clock block_machine)))
       block_machine)
  ∧ local.Read store_client (fs.GetFullPath "" (local.root store_client) "block.bin")
      (local.Write store_client "/etc/block" "block.bin" block_machine).2 =
    (Done (replicate 4096 "a"%byte, None),
     (local.Write store_client "/etc/block" "block.bin" block_machine).2).
Proof.
  exact (local_round_trip_for_whole_blocks store_client "/etc/block" "block.bin"
           block_machine (replicate 4096 "a"%byte) 0 0 0 1 eq_refl eq_refl eq_refl eq_refl
           eq_refl).
Defined.

(** X3: [Write] over a regular file that is there does not remove or cut
    it: an empty source leaves it as it was, and any other source leaves
    the old bytes beyond the blocks written in place. *)
Theorem local_Write_keeps_the_old_tail c src dst w d t tr tp old told :
  os.node_at w (local.root c) = Some (Directory tr) →
  os.node_at w (fs.Dir (fs.GetFullPath "" (local.root c) dst)) = Some (Directory tp) →
  os.node_at w src = Some (RegularFile d t) →
  src ≠ fs.GetFullPath "" (local.root c) dst →
  os.node_at w (fs.GetFullPath "" (local.root c) dst) = Some (RegularFile old told) →
  (d = [] → local.Write c src dst w = (Done None, w))
  ∧ (d ≠ [] →
     ∃ blocks,
       local.Write c src dst w =
         (Done None,
          set_nodes (insert (fs.GetFullPath "" (local.root c) dst)
                       (RegularFile (blocks ++ drop (length blocks) old) (clock w))) w)
       ∧ take (length d) blocks = d
       ∧ ∃ k, (length blocks = k * 4096 ∧ length d ≤ k * 4096 < length d + 4096)%nat).
Proof.
  intros Hroot Hfpd Hsrc Hne Hdst.
  rewrite (Write_over_existing c src dst w d t tr tp old told) by done.
  split.
  - by intros ->.
  - intros Hd. exists (blocks_written (S (length d)) (replicate 4096 x00) d).
    assert (take (length d) (blocks_written (S (length d)) (replicate 4096 x00) d) = d)
      as Hprefix by (apply blocks_written_prefix; [done|lia]).
    split_and!; [|done|].
    + destruct (blocks_written (S (length d)) (replicate 4096 x00) d); [|done].
      rewrite take_nil in Hprefix. congruence.
    + destruct (blocks_written_length (S (length d)) (replicate 4096 x00) d)
        as (k & Hk & Hbounds); [done|lia|].
      rewrite length_replicate in Hk, Hbounds. by exists k.
Qed.

(** The theorem at the empty file written over [old.txt]. *)
Lemma local_Write_keeps_the_old_tail_witness :
  local.Write store_client "/etc/empty" "old.txt" host_machine = (Done None, host_machine).
Proof.
  exact (proj1 (local_Write_keeps_the_old_tail store_client "/etc/empty" "old.txt"
                  host_machine [] 0 0 0 ["o"%byte; "l"%byte; "d"%byte] 0
                  eq_refl eq_refl eq_refl ltac:(discriminate) eq_refl) eq_refl).
Defined.

(** X4: when the source does not exist, [Write] returns its [ENOENT], but
    by then the destination was opened: a destination that was not there
    is left behind as an empty file. *)
Theorem local_Write_of_missing_source_leaves_empty_file c src dst w tr tp :
  os.node_at w (local.root c) = Some (Directory tr) →
  os.node_at w (fs.Dir (fs.GetFullPath "" (local.root c) dst)) = Some (Directory tp) →
  os.node_at w src = None →
  src ≠ fs.GetFullPath "" (local.root c) dst →
  os.node_at w (fs.GetFullPath "" (local.root c) dst) = None →
  local.Write c src dst w =
    (Done (Some (ENOENT src)),
     set_nodes (insert (fs.GetFullPath "" (local.root c) dst)
                  (RegularFile [] (clock w))) w).
Proof.
  intros Hroot Hfpd Hsrc Hne Hdst. unfold local.Write.
  erewrite bind_Done; [|by eapply stat_or_mkdir_existing]. cbv beta iota zeta.
  erewrite bind_Done; [|by eapply stat_or_mkdir_existing]. cbv beta iota.
  erewrite bind_Done; [|by eapply Stat_missing]. cbv beta iota. cbn [IsExist].
  erewrite bind_Done; [|reflexivity]. cbv beta iota.
  erewrite bind_Done.
  2:{ unfold os.OpenFile. unfold_M. rewrite Hdst.
      unfold fs.Dir in Hfpd. rewrite Hfpd. reflexivity. }
  cbv beta iota.
  erewrite bind_Done.
  2:{ unfold os.OpenFile. unfold_M. rewrite node_at_insert_ne by done.
      rewrite Hsrc. reflexivity. }
  done.
Qed.

(** The theorem at a source that the machine of the scenario does not have. *)
Lemma local_Write_of_missing_source_leaves_empty_file_witness :
  local.Write store_client "/etc/nothing" "copy.txt" host_machine =
    (Done (Some (ENOENT "/etc/nothing")),
     set_nodes (insert (fs.GetFullPath "" (local.root store_client) "copy.txt")
                  (RegularFile [] (clock host_machine))) host_machine).
Proof.
  exact (local_Write_of_missing_source_leaves_empty_file store_client "/etc/nothing"
           "copy.txt" host_machine 0 0 eq_refl eq_refl eq_refl ltac:(discriminate) eq_refl).
Defined.

(** ** The local [Read], [Remove] and [Ls] *)

Lemma local_Read_missing c path w :
  os.node_at w path = None →
  local.Read c path w = (Done ([], Some (ENOENT path)), w).
Proof.
  intros Hpath. unfold local.Read.
  erewrite bind_Done; [|unfold os.OpenFile; unfold_M; rewrite Hpath; reflexivity].
  done.
Qed.

(** X5: the local [Read] returns the content of a regular file of any
    length byte for byte, [EISDIR] for a directory and [ENOENT] when
    nothing is at the path; it never panics and never changes anything. *)
Theorem local_Read_by_kind c path w :
  (∀ d t, os.node_at w path = Some (RegularFile d t) →
          local.Read c path w = (Done (d, None), w))
  ∧ (∀ t, os.node_at w path = Some (Directory t) →
          local.Read c path w = (Done ([], Some (EISDIR path)), w))
  ∧ (os.node_at w path = None →
     local.Read c path w = (Done ([], Some (ENOENT path)), w)).
Proof.
  split_and!.
  - intros d t Hpath. by apply (Read_returns_the_file c path w d t).
  - intros t Hpath. unfold local.Read.
    erewrite bind_Done; [|unfold os.OpenFile; unfold_M; rewrite Hpath; reflexivity].
    done.
  - apply local_Read_missing.
Qed.

(** The theorem at the one-byte file of the scenario. *)
Lemma local_Read_by_kind_witness :
  local.Read store_client "/etc/hostname" host_machine = (Done (["h"%byte], None), host_machine).
Proof.
  exact (proj1 (local_Read_by_kind store_client "/etc/hostname" host_machine)
           ["h"%byte] 0 eq_refl).
Defined.

Lemma nodes_after_RemoveAll path w k :
  nodes (set_nodes (filter (λ kv, under path kv.1 = false)) w) !! k =
    if under path k then None else nodes w !! k.
Proof.
  cbn [nodes set_nodes]. destruct (under path k) eqn:Hk.
  - apply map_lookup_filter_None. right. intros n _. cbn [fst]. by rewrite Hk.
  - destruct (nodes w !! k) as [n|] eqn:Hn.
    + apply map_lookup_filter_Some. by split.
    + apply map_lookup_filter_None. by left.
Qed.

Lemma under_self path : under path path = true.
Proof. unfold under. by rewrite String.eqb_refl. Qed.

(** X6: after the local [Remove] of a path, nothing is left at the path or
    below it and every other node is as it was; [Read] and [Ls] of the path
    then fail with [ENOENT]. *)
Theorem local_Remove_then_nothing_is_there c path w :
  path ≠ "" → path ≠ "/" → path ≠ "." →
  local.Remove c path w =
    (Done None, set_nodes (filter (λ kv, under path kv.1 = false)) w)
  ∧ (∀ k, nodes (local.Remove c path w).2 !! k =
          if under path k then None else nodes w !! k)
  ∧ local.Read c path (local.Remove c path w).2 =
      (Done ([], Some (ENOENT path)), (local.Remove c path w).2)
  ∧ local.Ls c path (local.Remove c path w).2 =
      (Done ([], Some (ENOENT path)), (local.Remove c path w).2).
Proof.
  intros Hempty Hroot Hdot.
  assert (local.Remove c path w =
          (Done None, set_nodes (filter (λ kv, under path kv.1 = false)) w)) as Hrun.
  { unfold local.Remove. rewrite RemoveAll_run.
    by destruct (String.eqb_spec path ""). }
  rewrite Hrun. cbn [snd].
  assert (os.node_at (set_nodes (filter (λ kv, under path kv.1 = false)) w) path = None)
    as Hgone.
  { unfold os.node_at.
    destruct (String.eqb_spec path "/"); [done|].
    destruct (String.eqb_spec path "."); [done|].
    cbn [orb]. by rewrite nodes_after_RemoveAll, under_self. }
  split_and!.
  - done.
  - apply nodes_after_RemoveAll.
  - by apply local_Read_missing.
  - unfold local.Ls. erewrite bind_Done; [|by apply Stat_missing]. done.
Qed.

(** The theorem at the store of the scenario. *)
Lemma local_Remove_then_nothing_is_there_witness :
  local.Read store_client "/tmp/store" (local.Remove store_client "/tmp/store" host_machine).2 =
    (Done ([], Some (ENOENT "/tmp/store")),
     (local.Remove store_client "/tmp/store" host_machine).2).
Proof.
  exact (proj1 (proj2 (proj2 (local_Remove_then_nothing_is_there store_client "/tmp/store"
                                host_machine ltac:(discriminate) ltac:(discriminate)
                                ltac:(discriminate))))).
Defined.

Lemma Ls_of_directory c path w t :
  os.node_at w path = Some (Directory t) →
  local.Ls c path w =
    (Done (List.map (λ f, {| unit.Descriptor := None;
                             unit.Name := os.Name f;
                             unit.Date := os.ModTime f |}) (os.children w path), None), w).
Proof.
  intros Hpath. unfold local.Ls.
  erewrite bind_Done; [|by apply Stat_existing]. cbv beta iota. cbn [os.info os.IsDir negb].
  erewrite bind_Done; [|unfold os.ReadDir; unfold_M; rewrite Hpath; reflexivity].
  done.
Qed.

Lemma child_is_listed w path k n :
  nodes w !! k = Some n → path_dir k = path →
  os.info k n ∈ os.children w path.
Proof.
  intros Hk Hdir. unfold os.children. rewrite merge_sort_Permutation.
  apply list_elem_of_In. apply (in_map (λ kv, os.info kv.1 kv.2) _ (k, n)).
  apply filter_In. split.
  - apply list_elem_of_In. by apply elem_of_map_to_list.
  - cbn [fst]. rewrite Hdir. apply String.eqb_refl.
Qed.

(** X7: after a [Write] to a destination that was not there, [Ls] of the
    parent directory of the destination lists it: there is an entry with
    the base name of the destination, dated with the time of the write. *)
Theorem local_Ls_lists_what_Write_created c src dst w d t tr tp :
  os.node_at w (local.root c) = Some (Directory tr) →
  os.node_at w (fs.Dir (fs.GetFullPath "" (local.root c) dst)) = Some (Directory tp) →
  os.node_at w src = Some (RegularFile d t) →
  os.node_at w (fs.GetFullPath "" (local.root c) dst) = None →
  (local.Write c src dst w).1 = Done None
  ∧ ∃ entries,
      local.Ls c (fs.Dir (fs.GetFullPath "" (local.root c) dst)) (local.Write c src dst w).2 =
        (Done (entries, None), (local.Write c src dst w).2)
      ∧ {| unit.Descriptor := None;
           unit.Name := fs.Base (fs.GetFullPath "" (local.root c) dst);
           unit.Date := clock w |} ∈ entries.
Proof.
  intros Hroot Hfpd Hsrc Hdst.
  rewrite (Write_to_fresh c src dst w d t tr tp) by done. cbn [fst snd].
  split; [done|].
  set (fpf := fs.GetFullPath "" (local.root c) dst) in *.
  set (content := blocks_written _ _ _).
  assert (fpf ≠ fs.Dir fpf) as Hne by (intros Heq; rewrite <- Heq in Hfpd; congruence).
  eexists. split.
  - apply (Ls_of_directory _ _ _ tp). by rewrite node_at_insert_ne.
  - apply (list_elem_of_fmap_2
             (λ f, {| unit.Descriptor := None; unit.Name := os.Name f;
                      unit.Date := os.ModTime f |})
             _ (os.info fpf (RegularFile content (clock w)))).
    apply child_is_listed; [|done]. cbn [nodes set_nodes]. apply lookup_insert_eq.
Qed.

(** The theorem at the one-byte file of the scenario. *)
Lemma local_Ls_lists_what_Write_created_witness :
  ∃ entries,
    local.Ls store_client (fs.Dir (fs.GetFullPath "" (local.root store_client) "hostname.txt"))
      (local.Write store_client "/etc/hostname" "hostname.txt" host_machine).2 =
      (Done (entries, None),
       (local.Write store_client "/etc/hostname" "hostname.txt" host_machine).2)
    ∧ {| unit.Descriptor := None;
         unit.Name := fs.Base (fs.GetFullPath "" (local.root store_client) "hostname.txt");
         unit.Date := clock host_machine |} ∈ entries.
Proof.
  exact (proj2 (local_Ls_lists_what_Write_created store_client "/etc/hostname" "hostname.txt"
                  host_machine ["h"%byte] 0 0 0 eq_refl eq_refl eq_refl eq_refl)).
Defined.

(** ** The remote [Read] after [Write] *)

Lemma piece_fits (pieces : list (list byte)) :
  Forall (λ piece, (length piece ≤ length (concat pieces))%nat) pieces.
Proof.
  induction pieces as [|p pieces IH]; [constructor|].
  cbn [concat]. rewrite length_app. constructor; [lia|].
  eapply Forall_impl; [exact IH|]. intros piece; cbn beta. lia.
Qed.

Lemma in_one_piece_delivers_whole files : delivers_whole (machine files).
Proof.
  intros key d. exists [d]. split; [reflexivity|]. apply app_nil_r.
Defined.

Lemma yandex_Read_stored c key w d t :
  s3.resolve (yandex.s3client c) = None →
  delivers_whole w →
  objects w !! key = Some {| Data := d; Modified := t |} →
  yandex.Read c key w = (Done (d, None), w).
Proof.
  intros Hres Hwire Hkey. unfold yandex.Read, s3.GetObject. unfold_M.
  rewrite Hres, Hkey. cbn [s3.ContentLength s3.Body Data].
  destruct (Hwire key d) as (pieces & -> & Hd).
  replace (Z.of_nat (length d) <? 0) with false by (symmetry; apply Z.ltb_ge; lia).
  rewrite Nat2Z.id.
  rewrite yandex_Read_loop_drains.
  - by rewrite Hd.
  - rewrite length_map. lia.
  - rewrite length_replicate. rewrite <- Hd. apply piece_fits.
Qed.

(** X8: a file shorter than the threshold that the remote [Write] uploads
    is what the remote [Read] of the normalized key returns, byte for byte
    and without an error, when the network delivers bodies whole; neither
    call touches the file system. *)
Theorem remote_round_trip_under_the_threshold c src dst w d t :
  ready c → yandex.cloudRoot c ≠ "" →
  os.node_at w src = Some (RegularFile d t) →
  Z.of_nat (length d) < yandex.limit →
  delivers_whole w →
  yandex.Write c src dst w
    = (Done None, uploaded (normalize (yandex.cloudRoot c) dst) d w)
  ∧ yandex.Read c (normalize (yandex.cloudRoot c) dst)
      (uploaded (normalize (yandex.cloudRoot c) dst) d w)
    = (Done (d, None), uploaded (normalize (yandex.cloudRoot c) dst) d w)
  ∧ nodes (uploaded (normalize (yandex.cloudRoot c) dst) d w) = nodes w.
Proof.
  intros Hc Hroot Hsrc Hsize Hwire. split_and!; [| |done].
  - rewrite (Write_branch c src dst w d t Hsrc).
    replace (yandex.limit <=? Z.of_nat (length d)) with false
      by (symmetry; apply Z.leb_gt; exact Hsize).
    by apply (put_uploads c src dst w d t).
  - apply (yandex_Read_stored c _ _ d (clock w)); [apply Hc|exact Hwire|].
    cbn [uploaded log_request set_objects objects]. apply lookup_insert_eq.
Qed.

(** The theorem at the one-byte file of the scenario. *)
Lemma remote_round_trip_under_the_threshold_witness :
  yandex.Write (client_of (conf_ru "a/b/")) "/etc/hostname" "c\d.txt" host_machine
    = (Done None, uploaded "a/b/c/d.txt" ["h"%byte] host_machine)
  ∧ yandex.Read (client_of (conf_ru "a/b/")) "a/b/c/d.txt"
      (uploaded "a/b/c/d.txt" ["h"%byte] host_machine)
    = (Done (["h"%byte], None), uploaded "a/b/c/d.txt" ["h"%byte] host_machine)
  ∧ nodes (uploaded "a/b/c/d.txt" ["h"%byte] host_machine) = nodes host_machine.
Proof.
  exact (remote_round_trip_under_the_threshold (client_of (conf_ru "a/b/"))
           "/etc/hostname" "c\d.txt" host_machine ["h"%byte] 0
           (conj eq_refl eq_refl) ltac:(discriminate) eq_refl eq_refl
           (in_one_piece_delivers_whole _)).
Defined.

(** ** The remote [Ls] after [Write] *)

Lemma final_segment_from_after_slash seg a s :
  final_segment_from seg (a +:+ String slash s) = final_segment s.
Proof.
  revert seg. induction a as [|c a IH]; intros seg.
  - reflexivity.
  - change (String c a +:+ String slash s) with (String c (a +:+ String slash s)).
    cbn [final_segment_from]. destruct (Ascii.eqb c slash); apply IH.
Qed.

Lemma final_segment_normalize root dst :
  final_segment (normalize root dst) = final_segment (to_slashes dst).
Proof. apply final_segment_from_after_slash. Qed.

Lemma contents_short w prefix :
  (size (objects w) ≤ 1000)%nat →
  s3.contents w prefix ≡ₚ
    List.map (λ kv, {| s3.Key := kv.1; s3.LastModified := Modified kv.2 |})
      (List.filter (λ kv, HasPrefix kv.1 prefix) (map_to_list (objects w))).
Proof.
  intros Hsize. unfold s3.contents. rewrite take_ge.
  - apply merge_sort_Permutation.
  - rewrite merge_sort_Permutation, length_map.
    etrans; [apply List.filter_length_le|].
    by rewrite length_map_to_list.
Qed.

Lemma stored_is_listed w prefix key o :
  (size (objects w) ≤ 1000)%nat →
  objects w !! key = Some o → HasPrefix key prefix = true →
  {| s3.Key := key; s3.LastModified := Modified o |} ∈ s3.contents w prefix.
Proof.
  intros Hsize Hkey Hprefix. rewrite (contents_short w prefix Hsize).
  apply (list_elem_of_fmap_2
           (λ kv : string * Object, {| s3.Key := kv.1; s3.LastModified := Modified kv.2 |})
           _ (key, o)).
  apply list_elem_of_In, filter_In. split; [|exact Hprefix].
  apply list_elem_of_In. by apply elem_of_map_to_list.
Qed.

Lemma listed_is_stored w prefix o :
  o ∈ s3.contents w prefix →
  ∃ obj, objects w !! s3.Key o = Some obj ∧ HasPrefix (s3.Key o) prefix = true
         ∧ s3.LastModified o = Modified obj.
Proof.
  unfold s3.contents. intros Ho.
  apply (subseteq_take 1000) in Ho. rewrite merge_sort_Permutation in Ho.
  apply list_elem_of_fmap in Ho as ([key obj] & -> & Hin).
  apply list_elem_of_In, filter_In in Hin as [Hin Hprefix].
  apply list_elem_of_In, elem_of_map_to_list in Hin.
  by exists obj.
Qed.

(** X9: after the remote [Write] of a file shorter than the threshold into
    a bucket of fewer than a thousand objects, [Ls] of every prefix of the
    key lists the upload under the last component of the destination, with
    the time of the upload; the prefix is matched against the whole key,
    root included. *)
Theorem remote_Ls_lists_what_Write_uploaded c src dst w d t prefix :
  ready c → yandex.cloudRoot c ≠ "" →
  os.node_at w src = Some (RegularFile d t) →
  Z.of_nat (length d) < yandex.limit →
  (size (objects w) < 1000)%nat →
  HasPrefix (normalize (yandex.cloudRoot c) dst) prefix = true →
  final_segment (to_slashes dst) ≠ "" →
  ∃ files,
    yandex.Ls c prefix (yandex.Write c src dst w).2
      = (Done (files, None), (yandex.Write c src dst w).2)
    ∧ {| unit.Descriptor := None;
         unit.Name := final_segment (to_slashes dst);
         unit.Date := clock w |} ∈ files.
Proof.
  intros Hc Hroot Hsrc Hsize Hfew Hprefix Hname.
  rewrite (Write_branch c src dst w d t Hsrc).
  replace (yandex.limit <=? Z.of_nat (length d)) with false
    by (symmetry; apply Z.leb_gt; exact Hsize).
  unfold yandex.putOnce. rewrite (put_uploads c src dst w d t Hc Hroot Hsrc). cbn [snd].
  set (key := normalize (yandex.cloudRoot c) dst) in *.
  eexists. split.
  - unfold yandex.Ls, s3.ListObjectsV2. unfold_M. rewrite (proj1 Hc).
    by rewrite foldl_Ls_step.
  - unfold entries. rewrite app_nil_l.
    replace {| unit.Descriptor := None; unit.Name := final_segment (to_slashes dst);
               unit.Date := clock w |}
      with (entry_of {| s3.Key := key; s3.LastModified := clock w |}).
    2:{ unfold entry_of. cbn [s3.Key s3.LastModified]. unfold key.
        by rewrite final_segment_normalize. }
    apply (list_elem_of_fmap_2 entry_of).
    apply list_elem_of_In, filter_In. split.
    + apply list_elem_of_In.
      apply (stored_is_listed _ prefix key {| Data := d; Modified := clock w |}).
      * cbn [uploaded log_request set_objects objects].
        rewrite map_size_insert. destruct (objects w !! key); cbn; lia.
      * cbn [uploaded log_request set_objects objects]. apply lookup_insert_eq.
      * exact Hprefix.
    + unfold has_name. cbn [s3.Key]. unfold key. rewrite final_segment_normalize.
        by apply negb_true_iff, String.eqb_neq.
Qed.

(** The theorem at the one-byte file of the scenario, listed by the root. *)
Lemma remote_Ls_lists_what_Write_uploaded_witness :
  ∃ files,
    yandex.Ls (client_of (conf_ru "a/b/")) "a/b"
        (yandex.Write (client_of (conf_ru "a/b/")) "/etc/hostname" "c\d.txt" host_machine).2
      = (Done (files, None),
         (yandex.Write (client_of (conf_ru "a/b/")) "/etc/hostname" "c\d.txt" host_machine).2)
    ∧ {| unit.Descriptor := None; unit.Name := final_segment (to_slashes "c\d.txt");
         unit.Date := clock host_machine |} ∈ files.
Proof.
  apply (remote_Ls_lists_what_Write_uploaded (client_of (conf_ru "a/b/"))
           "/etc/hostname" "c\d.txt" host_machine ["h"%byte] 0 "a/b").
  - split; reflexivity.
  - discriminate.
  - reflexivity.
  - reflexivity.
  - vm_compute. lia.
  - reflexivity.
  - discriminate.
Defined.

(** ** The remote [Remove], then [Read] and [Ls] *)

(** X10: after the remote [Remove] of a key, by a client whose requests
    reach the bucket, [Read] of the key fails with [NoSuchKey] and returns
    no bytes, no [Ls] lists the key, every other key holds what it held,
    and the file system is as it was. *)
Theorem remote_Remove_then_nothing_is_there c key w :
  s3.resolve (yandex.s3client c) = None →
  yandex.Read c key (yandex.Remove c key w).2
    = (Done ([], Some (NoSuchKey key)), (yandex.Remove c key w).2)
  ∧ (∀ prefix o, o ∈ s3.contents (yandex.Remove c key w).2 prefix → s3.Key o ≠ key)
  ∧ (∀ k, k ≠ key → objects (yandex.Remove c key w).2 !! k = objects w !! k)
  ∧ nodes (yandex.Remove c key w).2 = nodes w.
Proof.
  intros Hres.
  assert (yandex.Remove c key w = (Done None, set_objects (delete key) w)) as ->.
  { unfold yandex.Remove, s3.DeleteObject. by rewrite Hres. }
  cbn [snd]. split_and!.
  - unfold yandex.Read, s3.GetObject. unfold_M. rewrite Hres.
    cbn [set_objects objects]. by rewrite lookup_delete_eq.
  - intros prefix o Ho Heq. apply listed_is_stored in Ho as (obj & Hobj & _).
    cbn [set_objects objects] in Hobj. rewrite Heq, lookup_delete_eq in Hobj. done.
  - intros k Hk. cbn [set_objects objects]. by apply lookup_delete_ne.
  - done.
Qed.

(** The theorem at the object of the scenario. *)
Lemma remote_Remove_then_nothing_is_there_witness :
  yandex.Read (client_of (conf_ru "a/b/")) "a/b/k"
      (yandex.Remove (client_of (conf_ru "a/b/")) "a/b/k" broken_network).2
    = (Done ([], Some (NoSuchKey "a/b/k")),
       (yandex.Remove (client_of (conf_ru "a/b/")) "a/b/k" broken_network).2).
Proof.
  exact (proj1 (remote_Remove_then_nothing_is_there (client_of (conf_ru "a/b/"))
                  "a/b/k" broken_network eq_refl)).
Defined.

(** ** The entries of a listing *)

Lemma local_Ls_entries c path w files err w' f :
  local.Ls c path w = (Done (files, err), w') → f ∈ files →
  unit.Descriptor f = None.
Proof.
  unfold local.Ls, os.Stat, os.ReadDir. unfold_M.
  destruct (os.node_at w path) as [[d t|t]|] eqn:Hpath; cbn; rewrite ?Hpath; cbn.
  - intros [= Hfiles] Hf. rewrite <- Hfiles in Hf. by apply elem_of_nil in Hf.
  - intros [= Hfiles] Hf. rewrite <- Hfiles in Hf. by apply list_elem_of_fmap in Hf as (i & -> & _).
  - intros [= Hfiles] Hf. rewrite <- Hfiles in Hf. by apply elem_of_nil in Hf.
Qed.

Lemma yandex_Ls_entries c path w files err w' f :
  yandex.Ls c path w = (Done (files, err), w') → f ∈ files →
  unit.Descriptor f = None.
Proof.
  unfold yandex.Ls, s3.ListObjectsV2. unfold_M.
  destruct (s3.resolve (yandex.s3client c)).
  - intros [= Hfiles] Hf. rewrite <- Hfiles in Hf. by apply elem_of_nil in Hf.
  - rewrite foldl_Ls_step, app_nil_l. intros [= Hfiles] Hf. rewrite <- Hfiles in Hf.
    by apply list_elem_of_fmap in Hf as (o & -> & _).
Qed.

(** X11: no entry that [Ls] returns, of either backend, carries a
    descriptor, so each of the four methods of [unit.File] panics on it
    with a nil dereference, whatever the state, and changes nothing. *)
Theorem listed_entries_panic_on_use f :
  (∃ c path w files err w', local.Ls c path w = (Done (files, err), w') ∧ f ∈ files)
  ∨ (∃ c path w files err w', yandex.Ls c path w = (Done (files, err), w') ∧ f ∈ files) →
  ∀ b w,
    unit.Close f w = (Panics "invalid memory address or nil pointer dereference", w)
    ∧ unit.Stat f w = (Panics "invalid memory address or nil pointer dereference", w)
    ∧ unit.Read f b w = (Panics "invalid memory address or nil pointer dereference", w)
    ∧ unit.Write f b w = (Panics "invalid memory address or nil pointer dereference", w).
Proof.
  intros Hf b w.
  assert (unit.Descriptor f = None) as Hnil.
  { destruct Hf as [(c & path & w0 & files & err & w' & Hrun & Hf)
                   |(c & path & w0 & files & err & w' & Hrun & Hf)].
    - by eapply local_Ls_entries.
    - by eapply yandex_Ls_entries. }
  unfold unit.Close, unit.Stat, unit.Read, unit.Write. by rewrite Hnil.
Qed.

(** The theorem at the entry that the local [Ls] returns for the one-byte
    file of the scenario. *)
Lemma listed_entries_panic_on_use_witness :
  unit.Close {| unit.Descriptor := None; unit.Name := "hostname"; unit.Date := 0 |}
      host_machine
    = (Panics "invalid memory address or nil pointer dereference", host_machine).
Proof.
  refine (proj1 (listed_entries_panic_on_use
                   {| unit.Descriptor := None; unit.Name := "hostname"; unit.Date := 0 |}
                   (or_introl _) [] host_machine)).
  exists store_client, "/etc", host_machine. eexists _, _, _. split.
  - vm_compute. reflexivity.
  - vm_compute. do 2 constructor.
Defined.

(** ** The names of the remote listing *)

Lemma has_slash_snoc seg c :
  has_slash (seg +:+ String c "") = has_slash seg || Ascii.eqb c slash.
Proof.
  induction seg as [|b seg IH].
  - change (has_slash (String c "") = false || Ascii.eqb c slash).
    cbn [has_slash orb]. apply orb_false_r.
  - change (String b seg +:+ String c "") with (String b (seg +:+ String c "")).
    cbn [has_slash]. rewrite IH. by rewrite orb_assoc.
Qed.

Lemma append_assoc (a b c : string) : (a +:+ b) +:+ c = a +:+ (b +:+ c).
Proof.
  induction a as [|x a IH]; [reflexivity|].
  change (String x (a +:+ b) +:+ c = String x (a +:+ (b +:+ c))).
  change (String x ((a +:+ b) +:+ c) = String x (a +:+ (b +:+ c))).
  by rewrite IH.
Qed.

Lemma final_segment_from_splits seg s :
  has_slash seg = false →
  has_slash (final_segment_from seg s) = false
  ∧ ∃ pre, seg +:+ s = pre +:+ final_segment_from seg s
           ∧ (pre = "" ∨ ∃ dir, pre = dir +:+ "/").
Proof.
  revert seg. induction s as [|c s IH]; intros seg Hseg.
  - cbn [final_segment_from]. split; [done|]. exists "". split; [|by left].
    by rewrite append_empty_r.
  - cbn [final_segment_from]. destruct (Ascii.eqb c slash) eqn:Hc.
    + apply Ascii.eqb_eq in Hc as ->.
      destruct (IH "" eq_refl) as (Hno & pre & Heq & Hpre). split; [done|].
      exists ((seg +:+ "/") +:+ pre). split.
      * change ("" +:+ s) with s in Heq. rewrite Heq at 1.
        rewrite append_assoc. rewrite (append_assoc seg "/").
        reflexivity.
      * right. destruct Hpre as [->|(dir & ->)].
        -- exists seg. by rewrite append_empty_r.
        -- exists ((seg +:+ "/") +:+ dir). symmetry. apply append_assoc.
    + destruct (IH (seg +:+ String c "")) as (Hno & pre & Heq & Hpre).
      { by rewrite has_slash_snoc, Hseg, Hc. }
      split; [done|]. exists pre. split; [|done].
      by rewrite <- Heq, append_assoc_char.
Qed.

(** X12: every name that the remote [Ls] returns holds no slash and is the
    end of the key of an object of the bucket that starts with the prefix
    asked for: the key is the name, or the name behind a directory part
    that ends in a slash; the date is that of the object. Objects in
    different directories are listed by their bare names. *)
Theorem remote_Ls_names_are_last_components c path w files err w' f :
  yandex.Ls c path w = (Done (files, err), w') → f ∈ files →
  has_slash (unit.Name f) = false
  ∧ unit.Name f ≠ ""
  ∧ ∃ key obj pre,
      objects w !! key = Some obj ∧ HasPrefix key path = true
      ∧ key = pre +:+ unit.Name f ∧ (pre = "" ∨ ∃ dir, pre = dir +:+ "/")
      ∧ unit.Date f = Modified obj.
Proof.
  unfold yandex.Ls, s3.ListObjectsV2. unfold_M.
  destruct (s3.resolve (yandex.s3client c)).
  { intros [= Hfiles] Hf. rewrite <- Hfiles in Hf. by apply elem_of_nil in Hf. }
  rewrite foldl_Ls_step, app_nil_l. intros [= Hfiles] Hf. rewrite <- Hfiles in Hf.
  apply list_elem_of_fmap in Hf as (o & -> & Ho).
  apply list_elem_of_In, filter_In in Ho as [Ho Hname].
  apply list_elem_of_In, listed_is_stored in Ho as (obj & Hobj & Hprefix & Hdate).
  destruct (final_segment_from_splits "" (s3.Key o) eq_refl) as (Hno & pre & Heq & Hpre).
  cbn [entry_of unit.Name unit.Date]. split_and!.
  - exact Hno.
  - unfold has_name in Hname. by apply negb_true_iff, String.eqb_neq in Hname.
  - exists (s3.Key o), obj, pre. split_and!; done.
Qed.

(** The theorem at the object of the scenario. *)
Lemma remote_Ls_names_are_last_components_witness :
  has_slash "k" = false
  ∧ "k" ≠ ""
  ∧ ∃ key obj pre,
      objects broken_network !! key = Some obj ∧ HasPrefix key "a/" = true
      ∧ key = pre +:+ "k" ∧ (pre = "" ∨ ∃ dir, pre = dir +:+ "/")
      ∧ 0 = Modified obj.
Proof.
  refine (remote_Ls_names_are_last_components (client_of (conf_ru "a/b/")) "a/" broken_network
           [{| unit.Descriptor := None; unit.Name := "k"; unit.Date := 0 |}] None
           broken_network {| unit.Descriptor := None; unit.Name := "k"; unit.Date := 0 |} _ _).
  - vm_compute. reflexivity.
  - constructor.
Defined.

(** ** The paths of the temporary files *)

Lemma has_slash_app a b : has_slash (a +:+ b) = has_slash a || has_slash b.
Proof.
  induction a as [|c a IH]; [reflexivity|].
  change (String c a +:+ b) with (String c (a +:+ b)).
  cbn [has_slash]. rewrite IH. apply orb_assoc.
Qed.

Lemma Split_no_slash s : has_slash s = false → Split s slash = [s].
Proof.
  induction s as [|c s IH]; [done|].
  cbn [has_slash Split]. intros [Hc Hs]%orb_false_elim.
  by rewrite Hc, (IH Hs).
Qed.

Lemma Split_not_nil s : Split s slash ≠ [].
Proof.
  destruct s as [|c s]; [done|]. cbn [Split].
  destruct (Ascii.eqb c slash); [done|]. by destruct (Split s slash).
Qed.

Lemma Split_app_slash a s :
  Split (a +:+ String slash s) slash = Split a slash ++ Split s slash.
Proof.
  induction a as [|c a IH].
  - change ("" +:+ String slash s) with (String slash s). reflexivity.
  - change (String c a +:+ String slash s) with (String c (a +:+ String slash s)).
    cbn [Split]. rewrite IH. destruct (Ascii.eqb c slash); [done|].
    pose proof (Split_not_nil a). by destruct (Split a slash).
Qed.

Lemma Join_Split s : Join (Split s slash) "/" = s.
Proof.
  induction s as [|c s IH]; [done|].
  cbn [Split]. destruct (Ascii.eqb_spec c slash) as [->|Hc].
  - pose proof (Split_not_nil s). destruct (Split s slash) as [|h t] eqn:Hs; [done|].
    change (Join ("" :: h :: t) "/") with ("" +:+ "/" +:+ Join (h :: t) "/").
    by rewrite IH.
  - pose proof (Split_not_nil s). destruct (Split s slash) as [|h [|h' t]] eqn:Hs; [done| |].
    + cbn [Join] in *. by rewrite IH.
    + change (Join (String c h :: h' :: t) "/")
        with (String c (h +:+ "/" +:+ Join (h' :: t) "/")).
      change (Join (h :: h' :: t) "/") with (h +:+ "/" +:+ Join (h' :: t) "/") in IH.
      by rewrite IH.
Qed.

Lemma Split_empty s : Split s slash = [""] → s = "".
Proof. intros Hs. rewrite <- (Join_Split s), Hs. reflexivity. Qed.

Lemma path_base_join dir name :
  has_slash name = false → path_base (dir +:+ "/" +:+ name) = name.
Proof.
  intros Hname. unfold path_base.
  change (dir +:+ "/" +:+ name) with (dir +:+ String slash name).
  rewrite Split_app_slash, (Split_no_slash name Hname). apply last_last.
Qed.

Lemma path_dir_join dir name :
  has_slash name = false → dir ≠ "" → path_dir (dir +:+ "/" +:+ name) = dir.
Proof.
  intros Hname Hdir. unfold path_dir.
  change (dir +:+ "/" +:+ name) with (dir +:+ String slash name).
  rewrite Split_app_slash, (Split_no_slash name Hname), removelast_last.
  pose proof (Split_not_nil dir) as Hnil. pose proof (Split_empty dir) as Hempty.
  pose proof (Join_Split dir) as Hjoin.
  destruct (Split dir slash) as [|h t]; [done|].
  destruct h, t; done.
Qed.

Lemma has_slash_zeros k :
  has_slash (String.string_of_list_ascii (replicate k "0"%char)) = false.
Proof. induction k as [|k IH]; [done|]. cbn. exact IH. Qed.

Lemma has_slash_uint d : has_slash (NilEmpty.string_of_uint d) = false.
Proof. induction d; cbn; done. Qed.

Lemma has_slash_digits n : has_slash (digits n) = false.
Proof.
  unfold digits, NilZero.string_of_uint.
  destruct (N.to_uint _) eqn:Hd; [done|..]; rewrite <- Hd; apply has_slash_uint.
Qed.

Lemma has_slash_Sprintf_03d i : has_slash (Sprintf_03d i) = false.
Proof.
  unfold Sprintf_03d, zero_pad. destruct (i <? 0).
  - change ("-" +:+ ?s) with (String "-" s). cbn [has_slash].
    by rewrite has_slash_app, has_slash_zeros, has_slash_digits.
  - by rewrite has_slash_app, has_slash_zeros, has_slash_digits.
Qed.

Lemma has_slash_part_name i : has_slash ("zip." +:+ Sprintf_03d i) = false.
Proof. by rewrite has_slash_app, has_slash_Sprintf_03d. Qed.

Lemma Base_part_path w i : fs.Base (part_path w i) = "zip." +:+ Sprintf_03d i.
Proof. apply path_base_join, has_slash_part_name. Qed.

Lemma Dir_part_path w i : TempDir w ≠ "" → path_dir (part_path w i) = TempDir w.
Proof. intros Htmp. by apply path_dir_join; [apply has_slash_part_name|]. Qed.

Lemma part_key_eq c w dst i :
  part_key c w dst i =
    normalize (yandex.cloudRoot c) (dst +:+ "/" +:+ "zip." +:+ Sprintf_03d i).
Proof. unfold part_key. by rewrite Base_part_path. Qed.

(** ** The chunked upload, part by part *)

Lemma parts_written_concat fuel buf rest :
  concat (parts_written fuel buf rest) = blocks_written fuel buf rest.
Proof.
  revert buf rest. induction fuel as [|fuel IH]; intros buf rest; [done|].
  cbn [parts_written blocks_written].
  destruct (take (length buf) rest) as [|b chunk]; [done|].
  cbv zeta. cbn [concat]. by rewrite IH.
Qed.

Lemma parts_written_whole fuel buf rest :
  Forall (λ part, length part = length buf) (parts_written fuel buf rest).
Proof.
  revert buf rest. induction fuel as [|fuel IH]; intros buf rest; [constructor|].
  cbn [parts_written].
  destruct (take (length buf) rest) as [|b chunk] eqn:Hchunk; [constructor|].
  cbv zeta.
  assert (length ((b :: chunk) ++ drop (length (b :: chunk)) buf) = length buf) as Hlen.
  { apply (f_equal length) in Hchunk. rewrite length_take in Hchunk.
    rewrite length_app, length_drop. lia. }
  constructor; [exact Hlen|].
  eapply Forall_impl; [apply IH|]. intros part; cbn beta. by rewrite Hlen.
Qed.

Lemma length_concat_whole (parts : list (list byte)) n :
  Forall (λ part, length part = n) parts →
  length (concat parts) = (length parts * n)%nat.
Proof.
  induction 1 as [|part parts Hpart _ IH]; [done|].
  cbn [concat length]. rewrite length_app, IH, Hpart. lia.
Qed.

Lemma parts_written_count fuel buf rest :
  buf ≠ [] → (length rest < fuel)%nat →
  (length rest ≤ length (parts_written fuel buf rest) * length buf
   < length rest + length buf)%nat.
Proof.
  intros Hbuf Hfuel.
  destruct (blocks_written_length fuel buf rest Hbuf Hfuel) as (k & Hk & Hbounds).
  rewrite <- parts_written_concat in Hk.
  rewrite (length_concat_whole _ (length buf)) in Hk by apply parts_written_whole.
  by rewrite Hk.
Qed.

Lemma upload_parts_nodes c dst i parts w :
  nodes (upload_parts c dst i parts w) = nodes w
  ∧ TempDir (upload_parts c dst i parts w) = TempDir w.
Proof.
  revert i w. induction parts as [|part parts IH]; intros i w; [done|].
  cbn [upload_parts]. by destruct (IH (i + 1) (uploaded (part_key c w dst i) part w)).
Qed.

Lemma upload_parts_requests c dst i parts w :
  requests (upload_parts c dst i parts w) =
    requests w ++ imap (λ j part, (part_key c w dst (i + Z.of_nat j), part)) parts.
Proof.
  revert i w. induction parts as [|part parts IH]; intros i w.
  - cbn. by rewrite app_nil_r.
  - cbn [upload_parts imap]. rewrite IH. cbn [uploaded log_request requests].
    rewrite <- app_assoc. cbn [app]. rewrite Z.add_0_r. do 2 f_equal.
    apply imap_ext. intros j x _. unfold compose.
    replace (i + 1 + Z.of_nat j) with (i + Z.of_nat (S j)) by lia. reflexivity.
Qed.

Lemma putSplitedFile_loop_run fuel c src dst w d t td off buf i :
  ready c → yandex.cloudRoot c ≠ "" →
  os.node_at w src = Some (RegularFile d t) →
  buf ≠ [] → (length d - off < fuel)%nat →
  (∀ j, os.node_at w (part_path w j) = None) →
  (∀ j, os.node_at w (path_dir (part_path w j)) = Some (Directory td)) →
  yandex.putSplitedFile_loop fuel c
    {| os.name := src; os.mode := os.O_RDONLY; os.offset := off |} buf i dst w =
    (Done None, upload_parts c dst i (parts_written fuel buf (drop off d)) w).
Proof.
  intros Hc Hroot. revert off buf i w.
  induction fuel as [|fuel IH]; intros off buf i w Hsrc Hbuf Hfuel Hfree Hdir; [lia|].
  assert (0 < length buf)%nat as Hpos by (destruct buf; [done|cbn [length]; lia]).
  cbn [yandex.putSplitedFile_loop parts_written].
  destruct (take (length buf) (drop off d)) as [|b chunk] eqn:Hchunk.
  - erewrite bind_Done.
    2:{ apply (writeAndPutPartOfFiles_end c src off buf i dst w d t); [done|done|].
        apply (f_equal length) in Hchunk. rewrite length_take, length_drop in Hchunk.
        cbn [length] in Hchunk. lia. }
    done.
  - erewrite bind_Done.
    2:{ apply (writeAndPutPartOfFiles_part c src off buf i dst w d t td (b :: chunk)
                 (part_path w i)); done. }
    cbv beta iota zeta. cbn [upload_parts].
    set (buf' := (b :: chunk) ++ drop (length (b :: chunk)) buf).
    rewrite (IH _ buf' (i + 1) (uploaded (part_key c w dst i) buf' w)).
    + by rewrite drop_drop.
    + by rewrite node_at_uploaded.
    + done.
    + apply (f_equal length) in Hchunk. rewrite length_take, length_drop in Hchunk.
      cbn [length] in *. lia.
    + intros j. apply Hfree.
    + intros j. apply Hdir.
Qed.

Lemma putSplitedFile_loop_parts c src dst w d t td buf :
  ready c → yandex.cloudRoot c ≠ "" →
  os.node_at w src = Some (RegularFile d t) →
  buf ≠ [] →
  TempDir w ≠ "" →
  os.node_at w (TempDir w) = Some (Directory td) →
  (∀ j, os.node_at w (part_path w j) = None) →
  ∃ parts,
    yandex.putSplitedFile_loop (S (length d)) c
      {| os.name := src; os.mode := os.O_RDONLY; os.offset := 0 |} buf 1 dst w
      = (Done None, upload_parts c dst 1 parts w)
    ∧ Forall (λ part, length part = length buf) parts
    ∧ (length d ≤ length parts * length buf < length d + length buf)%nat
    ∧ take (length d) (concat parts) = d
    ∧ requests (upload_parts c dst 1 parts w) =
        requests w ++
        imap (λ j part,
                (normalize (yandex.cloudRoot c)
                   (dst +:+ "/" +:+ "zip." +:+ Sprintf_03d (1 + Z.of_nat j)), part)) parts
    ∧ nodes (upload_parts c dst 1 parts w) = nodes w.
Proof.
  intros Hc Hroot Hsrc Hbuf Htmp Hdir Hfree.
  exists (parts_written (S (length d)) buf d).
  refine (conj _ (conj _ (conj _ (conj _ (conj _ _))))).
  - rewrite (putSplitedFile_loop_run _ c src dst w d t td 0 buf 1 Hc Hroot Hsrc Hbuf).
    + by rewrite drop_0.
    + lia.
    + exact Hfree.
    + intros j. by rewrite Dir_part_path.
  - apply parts_written_whole.
  - apply parts_written_count; [done|lia].
  - rewrite parts_written_concat. apply blocks_written_prefix; [done|lia].
  - rewrite upload_parts_requests. f_equal. apply imap_ext. intros j part _.
    cbn beta. by rewrite part_key_eq.
  - apply upload_parts_nodes.
Qed.

Lemma replicate_not_nil {A} n (x : A) : (0 < n)%nat → replicate n x ≠ [].
Proof. intros Hn Hnil. apply (f_equal length) in Hnil. rewrite length_replicate in Hnil. cbn [length] in Hnil. lia. Qed.

(** X13: [Write] of a file of the threshold's length or longer, whatever
    its length, uploads it in parts and succeeds: every part is a whole
    buffer of the threshold's length, there are as many as the length
    needs, rounded up, and together they begin with the source; part [j]
    (from zero) goes, in this order, under the key of the destination
    joined with [zip.] and the number [j + 1] in three digits; the file
    system is afterwards as before, the temporary files gone. *)
Theorem Write_uploads_whole_parts_in_order c src dst w d t td :
  ready c → yandex.cloudRoot c ≠ "" →
  os.node_at w src = Some (RegularFile d t) →
  yandex.limit ≤ Z.of_nat (length d) →
  TempDir w ≠ "" →
  os.node_at w (TempDir w) = Some (Directory td) →
  (∀ j, os.node_at w (part_path w j) = None) →
  ∃ parts,
    yandex.Write c src dst w = (Done None, upload_parts c dst 1 parts w)
    ∧ Forall (λ part, length part = Z.to_nat yandex.limit) parts
    ∧ (length d ≤ length parts * Z.to_nat yandex.limit
       < length d + Z.to_nat yandex.limit)%nat
    ∧ take (length d) (concat parts) = d
    ∧ requests (upload_parts c dst 1 parts w) =
        requests w ++
        imap (λ j part,
                (normalize (yandex.cloudRoot c)
                   (dst +:+ "/" +:+ "zip." +:+ Sprintf_03d (1 + Z.of_nat j)), part)) parts
    ∧ nodes (upload_parts c dst 1 parts w) = nodes w.
Proof.
  intros Hc Hroot Hsrc Hsize Htmp Hdir Hfree.
  rewrite (Write_branch c src dst w d t Hsrc).
  destruct (Z.leb_spec yandex.limit (Z.of_nat (length d))) as [_|Hlt];
    [|exfalso; apply (Z.lt_irrefl yandex.limit); by eapply Z.le_lt_trans].
  rewrite (putSplitedFile_loop_eq _ _ _ _ _ Hsrc).
  replace (os.reads_to_end w src) with (S (length d))
    by (unfold os.reads_to_end; by rewrite Hsrc).
  pose proof (putSplitedFile_loop_parts c src dst w d t td _ Hc Hroot Hsrc
                (replicate_not_nil (Z.to_nat yandex.limit) x00 limit_pos) Htmp Hdir Hfree)
    as Hparts.
  rewrite length_replicate in Hparts. exact Hparts.
Qed.

Lemma dump_machine_parts_free dump j :
  os.node_at (dump_machine dump) (part_path (dump_machine dump) j) = None.
Proof.
  change (part_path (dump_machine dump) j)
    with (String "/" (String "t" (String "m" (String "p" (String "/"
            ("zip." +:+ Sprintf_03d j)))))).
  apply dump_machine_free; discriminate.
Qed.

(** The theorem at a dump of 536870913 bytes. *)
Lemma Write_uploads_whole_parts_in_order_witness :
  ∃ parts,
    yandex.Write (client_of (conf_ru "a/b/")) "/data/dump.bin" "dump.bin"
        (dump_machine dump_over_limit)
      = (Done None,
         upload_parts (client_of (conf_ru "a/b/")) "dump.bin" 1 parts
           (dump_machine dump_over_limit))
    ∧ Forall (λ part, length part = Z.to_nat yandex.limit) parts
    ∧ (length dump_over_limit ≤ length parts * Z.to_nat yandex.limit
       < length dump_over_limit + Z.to_nat yandex.limit)%nat
    ∧ take (length dump_over_limit) (concat parts) = dump_over_limit
    ∧ requests (upload_parts (client_of (conf_ru "a/b/")) "dump.bin" 1 parts
                  (dump_machine dump_over_limit)) =
        requests (dump_machine dump_over_limit) ++
        imap (λ j part,
                (normalize (yandex.cloudRoot (client_of (conf_ru "a/b/")))
                   ("dump.bin" +:+ "/" +:+ "zip." +:+ Sprintf_03d (1 + Z.of_nat j)), part))
          parts
    ∧ nodes (upload_parts (client_of (conf_ru "a/b/")) "dump.bin" 1 parts
               (dump_machine dump_over_limit)) = nodes (dump_machine dump_over_limit).
Proof.
  apply (Write_uploads_whole_parts_in_order (client_of (conf_ru "a/b/")) "/data/dump.bin"
           "dump.bin" (dump_machine dump_over_limit) dump_over_limit 0 0).
  - apply ready_client_ru.
  - discriminate.
  - apply dump_machine_src.
  - rewrite length_dump_over_limit. unfold yandex.limit. lia.
  - discriminate.
  - apply dump_machine_tmp.
  - apply dump_machine_parts_free.
Defined.

(** ** The chunked upload that fails *)

Lemma put_refused c src dst w d t e :
  s3.resolve (yandex.s3client c) = Some e → yandex.cloudRoot c ≠ "" →
  os.node_at w src = Some (RegularFile d t) →
  yandex.put c src dst w = (Done (Some e), w).
Proof.
  intros Hres Hroot Hsrc. unfold yandex.put.
  unfold mbind at 1, M_bind at 1. rewrite (Open_existing _ _ _ Hsrc).
  unfold mbind at 1, M_bind at 1. unfold os.File_Stat. cbn [os.name].
  rewrite (Stat_existing _ _ _ Hsrc).
  rewrite put_key by done.
  unfold s3.PutObject. unfold_M. by rewrite Hres.
Qed.

(** A part whose upload is refused stays in its temporary file. *)
Lemma writeAndPutPartOfFiles_refused c src off buf part dst w d t td chunk fp e :
  chunk = take (length buf) (drop off d) →
  fp = fs.GetFullPath "" (TempDir w) ("zip." +:+ Sprintf_03d part) →
  s3.resolve (yandex.s3client c) = Some e → yandex.cloudRoot c ≠ "" →
  os.node_at w src = Some (RegularFile d t) →
  buf ≠ [] → chunk ≠ [] →
  os.node_at w fp = None →
  os.node_at w (path_dir fp) = Some (Directory td) →
  yandex.writeAndPutPartOfFiles c
    {| os.name := src; os.mode := os.O_RDONLY; os.offset := off |} buf part dst w =
    (Done (false, Some e, chunk ++ drop (length chunk) buf,
           {| os.name := src; os.mode := os.O_RDONLY; os.offset := (off + length chunk)%nat |}),
     set_nodes (insert fp (RegularFile (chunk ++ drop (length chunk) buf) (clock w))) w).
Proof.
  intros Hchunk_eq Hfp_eq Hres Hroot Hsrc Hbuf Hchunk Hfp Hdir.
  unfold yandex.writeAndPutPartOfFiles.
  erewrite bind_Done; [|apply (Read_chunk _ buf w d t); cbn; (done || congruence)].
  cbn [os.offset os.name os.mode]. rewrite <- Hchunk_eq. cbv beta iota.
  destruct (Z.eqb_spec (Z.of_nat (length chunk)) 0) as [Hz|_].
  { destruct chunk; [done|simpl in Hz; lia]. }
  erewrite bind_Done; [|reflexivity]. rewrite <- Hfp_eq.
  erewrite bind_Done; [|by eapply Create_fresh]. cbv beta iota.
  erewrite bind_Done;
    [|eapply (Write_file _ _ _ [] (clock w)); [done|by apply node_at_insert]].
  cbn [os.name os.offset]. rewrite overwrite_fresh. cbv beta iota.
  erewrite bind_Done; [|reflexivity]. cbv beta iota.
  rewrite set_nodes_insert_twice.
  set (buf' := chunk ++ drop (length chunk) buf).
  erewrite bind_Done.
  2:{ apply (put_refused c fp _ _ buf' (clock w) e Hres Hroot).
      by eapply node_at_insert. }
  reflexivity.
Qed.

(** A part whose temporary file cannot be created, a directory being in its
    place, changes nothing. *)
Lemma writeAndPutPartOfFiles_blocked c src off buf part dst w d t t2 chunk fp :
  chunk = take (length buf) (drop off d) →
  fp = fs.GetFullPath "" (TempDir w) ("zip." +:+ Sprintf_03d part) →
  os.node_at w src = Some (RegularFile d t) →
  buf ≠ [] → chunk ≠ [] →
  os.node_at w fp = Some (Directory t2) →
  yandex.writeAndPutPartOfFiles c
    {| os.name := src; os.mode := os.O_RDONLY; os.offset := off |} buf part dst w =
    (Done (true, Some (EISDIR fp), chunk ++ drop (length chunk) buf,
           {| os.name := src; os.mode := os.O_RDONLY; os.offset := (off + length chunk)%nat |}),
     w).
Proof.
  intros Hchunk_eq Hfp_eq Hsrc Hbuf Hchunk Hfp.
  unfold yandex.writeAndPutPartOfFiles.
  erewrite bind_Done; [|apply (Read_chunk _ buf w d t); cbn; (done || congruence)].
  cbn [os.offset os.name os.mode]. rewrite <- Hchunk_eq. cbv beta iota.
  destruct (Z.eqb_spec (Z.of_nat (length chunk)) 0) as [Hz|_].
  { destruct chunk; [done|simpl in Hz; lia]. }
  erewrite bind_Done; [|reflexivity]. rewrite <- Hfp_eq.
  erewrite bind_Done.
  2:{ unfold os.Create, os.OpenFile. unfold_M. rewrite Hfp. reflexivity. }
  reflexivity.
Qed.

Lemma first_chunk_whole (buf d : list byte) :
  buf ≠ [] → (length buf ≤ length d)%nat →
  take (length buf) d ≠ []
  ∧ take (length buf) d ++ drop (length (take (length buf) d)) buf = take (length buf) d.
Proof.
  intros Hbuf Hlen.
  assert (length (take (length buf) d) = length buf) as Htake
    by (rewrite length_take; lia).
  split.
  - intros Hnil. rewrite Hnil in Htake. cbn [length] in Htake. by destruct buf.
  - by rewrite Htake, drop_all, app_nil_r.
Qed.

Lemma putSplitedFile_loop_refused c src dst w d t td buf e :
  s3.resolve (yandex.s3client c) = Some e → yandex.cloudRoot c ≠ "" →
  os.node_at w src = Some (RegularFile d t) →
  buf ≠ [] → (length buf ≤ length d)%nat →
  os.node_at w (fs.GetFullPath "" (TempDir w) "zip.001") = None →
  os.node_at w (path_dir (fs.GetFullPath "" (TempDir w) "zip.001")) = Some (Directory td) →
  yandex.putSplitedFile_loop (S (length d)) c
    {| os.name := src; os.mode := os.O_RDONLY; os.offset := 0 |} buf 1 dst w =
    (Done (Some e),
     set_nodes (insert (fs.GetFullPath "" (TempDir w) "zip.001")
                  (RegularFile (take (length buf) d) (clock w))) w).
Proof.
  intros Hres Hroot Hsrc Hbuf Hlen Hfree Hdir.
  destruct (first_chunk_whole buf d Hbuf Hlen) as [Hchunk Hwhole].
  cbn [yandex.putSplitedFile_loop].
  erewrite bind_Done.
  2:{ apply (writeAndPutPartOfFiles_refused c src 0 buf 1 dst w d t td (take (length buf) d)
               (fs.GetFullPath "" (TempDir w) "zip.001") e); done. }
  cbv beta iota. by rewrite Hwhole.
Qed.

Lemma putSplitedFile_loop_blocked c src dst w d t td t2 buf :
  ready c → yandex.cloudRoot c ≠ "" →
  os.node_at w src = Some (RegularFile d t) →
  buf ≠ [] → (length buf < length d)%nat →
  os.node_at w (fs.GetFullPath "" (TempDir w) "zip.001") = None →
  os.node_at w (path_dir (fs.GetFullPath "" (TempDir w) "zip.001")) = Some (Directory td) →
  os.node_at w (fs.GetFullPath "" (TempDir w) "zip.002") = Some (Directory t2) →
  yandex.putSplitedFile_loop (S (length d)) c
    {| os.name := src; os.mode := os.O_RDONLY; os.offset := 0 |} buf 1 dst w =
    (Done (Some (EISDIR (fs.GetFullPath "" (TempDir w) "zip.002"))),
     uploaded (normalize (yandex.cloudRoot c)
                 (fs.GetFullPath "" dst (fs.Base (fs.GetFullPath "" (TempDir w) "zip.001"))))
       (take (length buf) d) w).
Proof.
  intros Hc Hroot Hsrc Hbuf Hlen Hfree Hdir Hblock.
  destruct (first_chunk_whole buf d Hbuf) as [Hchunk Hwhole]; [lia|].
  assert (length (take (length buf) d) = length buf) as Htake
    by (rewrite length_take; lia).
  destruct (length d) as [|n] eqn:Hd; [lia|]. destruct n as [|n].
  { destruct buf; [done|cbn [length] in Hlen; lia]. }
  cbn [yandex.putSplitedFile_loop].
  erewrite bind_Done.
  2:{ apply (writeAndPutPartOfFiles_part c src 0 buf 1 dst w d t td (take (length buf) d)
               (fs.GetFullPath "" (TempDir w) "zip.001")); done. }
  cbv beta iota. rewrite Hwhole, Htake.
  assert (take (length (take (length buf) d)) (drop (length buf) d) ≠ []) as Hnext.
  { intros Hnil. apply (f_equal length) in Hnil.
    rewrite length_take, length_drop, Htake in Hnil. cbn [length] in Hnil.
    destruct buf; [done|cbn [length] in *; lia]. }
  erewrite bind_Done.
  2:{ apply (writeAndPutPartOfFiles_blocked c src _ (take (length buf) d) 2 dst _ d t t2
               (take (length (take (length buf) d)) (drop (length buf) d))
               (fs.GetFullPath "" (TempDir w) "zip.002")); done. }
  reflexivity.
Qed.

(** X14: when the request to the bucket is refused, [Write] returns the
    error of the request; for a file under the threshold nothing has
    changed then, but for a file of the threshold's length or longer the
    temporary file of the first part stays behind, holding the first
    threshold's worth of the source, and the bucket is as it was. *)
Theorem Write_leaves_the_part_file_when_refused c src dst w d t td e :
  s3.resolve (yandex.s3client c) = Some e → yandex.cloudRoot c ≠ "" →
  os.node_at w src = Some (RegularFile d t) →
  TempDir w ≠ "" →
  os.node_at w (TempDir w) = Some (Directory td) →
  os.node_at w (fs.GetFullPath "" (TempDir w) "zip.001") = None →
  (Z.of_nat (length d) < yandex.limit →
     yandex.Write c src dst w = (Done (Some e), w))
  ∧ (yandex.limit ≤ Z.of_nat (length d) →
     yandex.Write c src dst w =
       (Done (Some e),
        set_nodes (insert (fs.GetFullPath "" (TempDir w) "zip.001")
                     (RegularFile (take (Z.to_nat yandex.limit) d) (clock w))) w)).
Proof.
  intros Hres Hroot Hsrc Htmp Hdir Hfree.
  rewrite (Write_branch c src dst w d t Hsrc). split; intros Hsize.
  - destruct (Z.leb_spec yandex.limit (Z.of_nat (length d))) as [Hle|_];
      [exfalso; apply (Z.lt_irrefl yandex.limit); by eapply Z.le_lt_trans|].
    by apply (put_refused c src dst w d t).
  - destruct (Z.leb_spec yandex.limit (Z.of_nat (length d))) as [_|Hlt];
      [|exfalso; apply (Z.lt_irrefl yandex.limit); by eapply Z.le_lt_trans].
    rewrite (putSplitedFile_loop_eq _ _ _ _ _ Hsrc).
    replace (os.reads_to_end w src) with (S (length d))
      by (unfold os.reads_to_end; by rewrite Hsrc).
    pose proof (putSplitedFile_loop_refused c src dst w d t td
                  (replicate (Z.to_nat yandex.limit) x00) e Hres Hroot Hsrc
                  (replicate_not_nil (Z.to_nat yandex.limit) x00 limit_pos)) as Hrun.
    rewrite length_replicate in Hrun. apply Hrun.
    + apply Nat2Z.inj_le. rewrite Z2Nat.id; [exact Hsize|]. by apply Z.lt_le_incl.
    + exact Hfree.
    + change (fs.GetFullPath "" (TempDir w) "zip.001") with (part_path w 1).
      by rewrite Dir_part_path.
Qed.

(** The theorem at a dump of 536870913 bytes and a client of another
    region. *)
Lemma Write_leaves_the_part_file_when_refused_witness :
  yandex.Write (client_of conf_us) "/data/dump.bin" "dump.bin" (dump_machine dump_over_limit) =
    (Done (Some (Errorf "unknown endpoint requested")),
     set_nodes (insert "/tmp/zip.001"
                  (RegularFile (take (Z.to_nat yandex.limit) dump_over_limit) 1700000000))
       (dump_machine dump_over_limit)).
Proof.
  apply (proj2 (Write_leaves_the_part_file_when_refused (client_of conf_us) "/data/dump.bin"
                  "dump.bin" (dump_machine dump_over_limit) dump_over_limit 0 0
                  (Errorf "unknown endpoint requested")
                  (resolve_other conf_us ltac:(discriminate)) ltac:(discriminate)
                  (dump_machine_src _) ltac:(discriminate) (dump_machine_tmp _)
                  (dump_machine_parts_free _ 1))).
  rewrite length_dump_over_limit. unfold yandex.limit. lia.
Defined.

(** X15: nothing is rolled back. When the source is longer than the
    threshold and a directory is in the place of the temporary file of the
    second part, [Write] fails with the error of creating that file, and
    the first part stays in the bucket under its key: the bucket then
    holds the first threshold's worth of a file that was not uploaded. *)
Theorem Write_keeps_the_parts_put_before_a_failure c src dst w d t td t2 :
  ready c → yandex.cloudRoot c ≠ "" →
  os.node_at w src = Some (RegularFile d t) →
  yandex.limit < Z.of_nat (length d) →
  TempDir w ≠ "" →
  os.node_at w (TempDir w) = Some (Directory td) →
  os.node_at w (fs.GetFullPath "" (TempDir w) "zip.001") = None →
  os.node_at w (fs.GetFullPath "" (TempDir w) "zip.002") = Some (Directory t2) →
  yandex.Write c src dst w =
    (Done (Some (EISDIR (fs.GetFullPath "" (TempDir w) "zip.002"))),
     uploaded (normalize (yandex.cloudRoot c) (dst +:+ "/zip.001"))
       (take (Z.to_nat yandex.limit) d) w)
  ∧ objects (uploaded (normalize (yandex.cloudRoot c) (dst +:+ "/zip.001"))
               (take (Z.to_nat yandex.limit) d) w)
      !! normalize (yandex.cloudRoot c) (dst +:+ "/zip.001")
    = Some {| Data := take (Z.to_nat yandex.limit) d; Modified := clock w |}.
Proof.
  intros Hc Hroot Hsrc Hsize Htmp Hdir Hfree Hblock. split.
  - rewrite (Write_branch c src dst w d t Hsrc).
    destruct (Z.leb_spec yandex.limit (Z.of_nat (length d))) as [_|Hlt];
      [|exfalso; apply (Z.lt_irrefl yandex.limit); by eapply Z.lt_trans].
    rewrite (putSplitedFile_loop_eq _ _ _ _ _ Hsrc).
    replace (os.reads_to_end w src) with (S (length d))
      by (unfold os.reads_to_end; by rewrite Hsrc).
    pose proof (putSplitedFile_loop_blocked c src dst w d t td t2
                  (replicate (Z.to_nat yandex.limit) x00) Hc Hroot Hsrc
                  (replicate_not_nil (Z.to_nat yandex.limit) x00 limit_pos)) as Hrun.
    rewrite length_replicate in Hrun.
    change (fs.GetFullPath "" (TempDir w) "zip.001") with (part_path w 1) in *.
    rewrite Base_part_path in Hrun. apply Hrun.
    + apply Nat2Z.inj_lt. rewrite Z2Nat.id; [exact Hsize|]. by apply Z.lt_le_incl.
    + exact Hfree.
    + by rewrite Dir_part_path.
    + exact Hblock.
  - cbn [uploaded log_request set_objects objects]. apply lookup_insert_eq.
Qed.

Lemma blocked_machine_node p :
  p ≠ "/tmp/zip.002" →
  os.node_at blocked_machine p = os.node_at (dump_machine dump_over_limit) p.
Proof. intros Hp. unfold blocked_machine. by rewrite node_at_insert_ne. Qed.

(** The theorem at a dump of 536870913 bytes. *)
Lemma Write_keeps_the_parts_put_before_a_failure_witness :
  yandex.Write (client_of (conf_ru "a/b/")) "/data/dump.bin" "dump.bin" blocked_machine =
    (Done (Some (EISDIR "/tmp/zip.002")),
     uploaded "a/b/dump.bin/zip.001" (take (Z.to_nat yandex.limit) dump_over_limit)
       blocked_machine).
Proof.
  refine (proj1 (Write_keeps_the_parts_put_before_a_failure (client_of (conf_ru "a/b/"))
                   "/data/dump.bin" "dump.bin" blocked_machine dump_over_limit 0 0 0
                   (ready_client_ru _) ltac:(discriminate) _ _ ltac:(discriminate) _ _ _)).
  - rewrite blocked_machine_node by discriminate. apply dump_machine_src.
  - rewrite length_dump_over_limit. unfold yandex.limit. lia.
  - rewrite blocked_machine_node by discriminate. apply dump_machine_tmp.
  - rewrite blocked_machine_node by discriminate. apply dump_machine_free; discriminate.
  - unfold blocked_machine. apply node_at_insert. apply dump_machine_free; discriminate.
Defined.

(** ** Reading back what went up in parts *)

Lemma length_append a b : String.length (a +:+ b) = (String.length a + String.length b)%nat.
Proof.
  induction a as [|c a IH]; [done|].
  change (S (String.length (a +:+ b)) = S (String.length a + String.length b)).
  by rewrite IH.
Qed.

Lemma length_to_slashes s : String.length (to_slashes s) = String.length s.
Proof.
  induction s as [|c s IH]; [done|].
  change (S (String.length (to_slashes s)) = S (String.length s)).
  by rewrite IH.
Qed.

Lemma append_inv_head a b c : a +:+ b = a +:+ c → b = c.
Proof.
  induction a as [|x a IH]; [done|].
  change (String x (a +:+ b) = String x (a +:+ c) → b = c).
  intros [= Heq]. by apply IH.
Qed.

Lemma part_key_is_not_the_key c w dst i :
  part_key c w dst i ≠ normalize (yandex.cloudRoot c) dst.
Proof.
  rewrite part_key_eq. unfold normalize. intros Heq.
  apply append_inv_head, append_inv_head, (f_equal String.length) in Heq.
  rewrite !length_to_slashes, length_append in Heq.
  change ("/" +:+ "zip." +:+ Sprintf_03d i) with (String "/" ("zip." +:+ Sprintf_03d i)) in Heq.
  cbn [String.length] in Heq. lia.
Qed.

Lemma upload_parts_objects c dst i parts w key :
  (∀ w' j, part_key c w' dst j ≠ key) →
  objects (upload_parts c dst i parts w) !! key = objects w !! key.
Proof.
  intros Hkey. revert i w. induction parts as [|part parts IH]; intros i w; [done|].
  cbn [upload_parts]. rewrite IH. cbn [uploaded log_request set_objects objects].
  apply lookup_insert_ne. apply Hkey.
Qed.

Lemma Write_uploads_parts c src dst w d t td :
  ready c → yandex.cloudRoot c ≠ "" →
  os.node_at w src = Some (RegularFile d t) →
  yandex.limit ≤ Z.of_nat (length d) →
  TempDir w ≠ "" →
  os.node_at w (TempDir w) = Some (Directory td) →
  (∀ j, os.node_at w (part_path w j) = None) →
  ∃ parts, yandex.Write c src dst w = (Done None, upload_parts c dst 1 parts w).
Proof.
  intros Hc Hroot Hsrc Hsize Htmp Hdir Hfree.
  rewrite (Write_branch c src dst w d t Hsrc).
  destruct (Z.leb_spec yandex.limit (Z.of_nat (length d))) as [_|Hlt];
    [|exfalso; apply (Z.lt_irrefl yandex.limit); by eapply Z.le_lt_trans].
  rewrite (putSplitedFile_loop_eq _ _ _ _ _ Hsrc).
  replace (os.reads_to_end w src) with (S (length d))
    by (unfold os.reads_to_end; by rewrite Hsrc).
  destruct (putSplitedFile_loop_parts c src dst w d t td _ Hc Hroot Hsrc
              (replicate_not_nil (Z.to_nat yandex.limit) x00 limit_pos) Htmp Hdir Hfree)
    as (parts & Hrun & _).
  by exists parts.
Qed.

(** X16: a file of the threshold's length or longer is not read back under
    its destination. After its [Write] succeeded, the bucket holds the
    parts under their own keys and nothing under the normalized key of the
    destination, unless it was there before: [Read] of that key fails
    with [NoSuchKey]. *)
Theorem Write_in_parts_is_not_read_back c src dst w d t td :
  ready c → yandex.cloudRoot c ≠ "" →
  os.node_at w src = Some (RegularFile d t) →
  yandex.limit ≤ Z.of_nat (length d) →
  TempDir w ≠ "" →
  os.node_at w (TempDir w) = Some (Directory td) →
  (∀ j, os.node_at w (part_path w j) = None) →
  objects w !! normalize (yandex.cloudRoot c) dst = None →
  (yandex.Write c src dst w).1 = Done None
  ∧ yandex.Read c (normalize (yandex.cloudRoot c) dst) (yandex.Write c src dst w).2
    = (Done ([], Some (NoSuchKey (normalize (yandex.cloudRoot c) dst))),
       (yandex.Write c src dst w).2).
Proof.
  intros Hc Hroot Hsrc Hsize Htmp Hdir Hfree Hkey.
  destruct (Write_uploads_parts c src dst w d t td Hc Hroot Hsrc Hsize Htmp Hdir Hfree)
    as (parts & ->).
  cbn [fst snd]. split; [done|].
  unfold yandex.Read, s3.GetObject. unfold_M. rewrite (proj1 Hc).
  rewrite upload_parts_objects, Hkey; [done|].
  intros w' j. apply part_key_is_not_the_key.
Qed.

(** The theorem at a dump of 536870913 bytes. *)
Lemma Write_in_parts_is_not_read_back_witness :
  (yandex.Write (client_of (conf_ru "a/b/")) "/data/dump.bin" "dump.bin"
     (dump_machine dump_over_limit)).1 = Done None
  ∧ yandex.Read (client_of (conf_ru "a/b/")) "a/b/dump.bin"
      (yandex.Write (client_of (conf_ru "a/b/")) "/data/dump.bin" "dump.bin"
         (dump_machine dump_over_limit)).2
    = (Done ([], Some (NoSuchKey "a/b/dump.bin")),
       (yandex.Write (client_of (conf_ru "a/b/")) "/data/dump.bin" "dump.bin"
          (dump_machine dump_over_limit)).2).
Proof.
  apply (Write_in_parts_is_not_read_back (client_of (conf_ru "a/b/")) "/data/dump.bin"
           "dump.bin" (dump_machine dump_over_limit) dump_over_limit 0 0).
  - apply ready_client_ru.
  - discriminate.
  - apply dump_machine_src.
  - rewrite length_dump_over_limit. unfold yandex.limit. lia.
  - discriminate.
  - apply dump_machine_tmp.
  - apply dump_machine_parts_free.
  - reflexivity.
Defined.

(** ** The directories that the local [Write] makes *)

Lemma mkdirs_keeps ps w e w1 q n :
  os.mkdirs ps w = (e, w1) → os.node_at w q = Some n → os.node_at w1 q = Some n.
Proof.
  revert w. induction ps as [|p ps IH]; intros w Hrun Hq.
  - by injection Hrun as _ <-.
  - cbn [os.mkdirs] in Hrun. destruct (os.node_at w p) as [[dp tp|tp]|] eqn:Hp.
    + by injection Hrun as _ <-.
    + by apply (IH w).
    + apply (IH _ Hrun). rewrite node_at_insert_ne; [done|]. intros ->. congruence.
Qed.

Lemma mkdirs_makes ps w w1 p :
  os.mkdirs ps w = (None, w1) → p ∈ ps → ∃ t, os.node_at w1 p = Some (Directory t).
Proof.
  revert w. induction ps as [|p0 ps IH]; intros w Hrun Hp.
  - by apply elem_of_nil in Hp.
  - cbn [os.mkdirs] in Hrun. destruct (os.node_at w p0) as [[d0 t0|t0]|] eqn:Hp0.
    + done.
    + apply elem_of_cons in Hp as [->|Hp]; [|by apply (IH w)].
      exists t0. by apply (mkdirs_keeps ps w None w1).
    + apply elem_of_cons in Hp as [->|Hp]; [|by apply (IH _ Hrun)].
      exists (clock w). apply (mkdirs_keeps ps _ None w1 _ _ Hrun).
      by apply node_at_insert.
Qed.

Lemma self_in_ancestors p : p ≠ "" → p ∈ ancestors p.
Proof.
  intros Hp. unfold ancestors. apply list_elem_of_In, filter_In. split.
  - apply in_map_iff. exists (length (Split p slash)). split.
    + by rewrite firstn_all, Join_Split.
    + apply in_seq. pose proof (Split_not_nil p).
      destruct (Split p slash); [done|cbn [length]; lia].
  - by apply negb_true_iff, String.eqb_neq.
Qed.

Lemma path_dir_not_empty p : path_dir p ≠ "".
Proof.
  unfold path_dir. destruct (removelast (Split p slash)) as [|x [|y parts]]; [done| |].
  - by destruct x.
  - destruct x as [|c x]; [|done].
    change (Join ("" :: y :: parts) "/") with (String "/" (Join (y :: parts) "/")).
    by destruct parts.
Qed.

Lemma Write_after_MkdirAll c src dst w w1 e tr :
  os.node_at w (local.root c) = Some (Directory tr) →
  os.node_at w (fs.Dir (fs.GetFullPath "" (local.root c) dst)) = None →
  os.MkdirAll (fs.Dir (fs.GetFullPath "" (local.root c) dst)) w = (Done e, w1) →
  local.Write c src dst w =
    match e with
    | Some e => (Done (Some e), w1)
    | None => local.Write c src dst w1
    end.
Proof.
  intros Hroot Hfpd Hmk.
  assert (local.stat_or_mkdir (fs.Dir (fs.GetFullPath "" (local.root c) dst)) w
          = (Done e, w1)) as Hstat.
  { unfold local.stat_or_mkdir. erewrite bind_Done; [|by apply Stat_missing]. exact Hmk. }
  destruct e as [e|].
  - unfold local.Write.
    erewrite bind_Done; [|by eapply stat_or_mkdir_existing]. cbv beta iota zeta.
    erewrite bind_Done; [|exact Hstat]. reflexivity.
  - unfold os.MkdirAll in Hmk.
    destruct (os.mkdirs _ w) as [err w'] eqn:Hrun. injection Hmk as -> ->.
    destruct (mkdirs_makes _ w w1 (fs.Dir (fs.GetFullPath "" (local.root c) dst)) Hrun)
      as [tp Hfpd1]; [apply self_in_ancestors, path_dir_not_empty|].
    pose proof (mkdirs_keeps _ w None w1 _ _ Hrun Hroot) as Hroot1.
    unfold local.Write. etrans.
    { erewrite bind_Done; [|by eapply stat_or_mkdir_existing]. cbv beta iota zeta.
      erewrite bind_Done; [|exact Hstat]. reflexivity. }
    symmetry.
    erewrite bind_Done; [|by eapply stat_or_mkdir_existing]. cbv beta iota zeta.
    erewrite bind_Done; [|by eapply stat_or_mkdir_existing]. reflexivity.
Qed.

(** X17: when the parent directory of the destination is missing, the local
    [Write] makes it, and the directories above it, before it copies: if
    [MkdirAll] fails, [Write] returns its error and creates no
    destination; if it succeeds, the parent is a directory afterwards and
    the destination, created in it, starts with the bytes of the source. *)
Theorem local_Write_makes_the_parent_directory c src dst w w1 e d t tr :
  os.node_at w (local.root c) = Some (Directory tr) →
  os.node_at w (fs.Dir (fs.GetFullPath "" (local.root c) dst)) = None →
  os.MkdirAll (fs.Dir (fs.GetFullPath "" (local.root c) dst)) w = (Done e, w1) →
  os.node_at w src = Some (RegularFile d t) →
  os.node_at w1 (fs.GetFullPath "" (local.root c) dst) = None →
  match e with
  | Some e => local.Write c src dst w = (Done (Some e), w1)
  | None =>
      (∃ tp, os.node_at w1 (fs.Dir (fs.GetFullPath "" (local.root c) dst))
             = Some (Directory tp))
      ∧ ∃ content,
          local.Write c src dst w =
            (Done None,
             set_nodes (insert (fs.GetFullPath "" (local.root c) dst)
                          (RegularFile content (clock w1))) w1)
          ∧ take (length d) content = d
  end.
Proof.
  intros Hroot Hfpd Hmk Hsrc Hdst.
  rewrite (Write_after_MkdirAll c src dst w w1 e tr Hroot Hfpd Hmk).
  destruct e as [e|]; [done|].
  unfold os.MkdirAll in Hmk.
  destruct (os.mkdirs _ w) as [err w'] eqn:Hrun. injection Hmk as -> ->.
  destruct (mkdirs_makes _ w w1 (fs.Dir (fs.GetFullPath "" (local.root c) dst)) Hrun)
    as [tp Hfpd1]; [apply self_in_ancestors, path_dir_not_empty|].
  split; [by exists tp|].
  eexists. split.
  - apply (Write_to_fresh c src dst w1 d t tr tp); [|done| |done].
    + by apply (mkdirs_keeps _ w None w1 _ _ Hrun).
    + by apply (mkdirs_keeps _ w None w1 _ _ Hrun).
  - apply blocks_written_prefix; [|lia]. by apply replicate_not_nil; lia.
Qed.

(** The theorem at the one-byte file of the scenario, written into a
    directory that is not there. *)
Lemma local_Write_makes_the_parent_directory_witness :
  (∃ tp, os.node_at (os.MkdirAll "/tmp/store/sub" host_machine).2 "/tmp/store/sub"
         = Some (Directory tp))
  ∧ ∃ content,
      local.Write store_client "/etc/hostname" "sub/hostname.txt" host_machine =
        (Done None,
         set_nodes (insert "/tmp/store/sub/hostname.txt"
                      (RegularFile content (clock (os.MkdirAll "/tmp/store/sub" host_machine).2)))
           (os.MkdirAll "/tmp/store/sub" host_machine).2)
      ∧ take (length ["h"%byte]) content = ["h"%byte].
Proof.
  apply (local_Write_makes_the_parent_directory store_client "/etc/hostname"
           "sub/hostname.txt" host_machine (os.MkdirAll "/tmp/store/sub" host_machine).2
           None ["h"%byte] 0 0).
  - reflexivity.
  - reflexivity.
  - vm_compute. reflexivity.
  - reflexivity.
  - vm_compute. reflexivity.
Defined.

(** ** The local [Write] of a file onto itself *)

Lemma length_overwrite d off (b : list byte) :
  (off ≤ length d)%nat →
  length (os.overwrite d off b) = Nat.max (length d) (off + length b).
Proof.
  intros Hoff. unfold os.overwrite.
  rewrite !length_app, length_take, length_replicate, length_drop. lia.
Qed.

(** While the reader is behind the end of the file it writes to, or both
    descriptors stand at the same whole number of blocks in a file that is
    not a whole number of blocks long, the loop does not return, however
    many iterations it is given. *)
Lemma Write_loop_self fuel path roff woff buf cur tc w :
  buf ≠ [] →
  os.node_at w path = Some (RegularFile cur tc) →
  (roff = woff ∧ (∃ j, woff = j * length buf) ∧ woff ≤ length cur
   ∧ length cur mod length buf ≠ 0
   ∨ roff < length cur ∧ woff = length cur)%nat →
  ∃ w' cur' tc',
    local.Write_loop fuel {| os.name := path; os.mode := os.O_RDONLY; os.offset := roff |}
      {| os.name := path; os.mode := os.O_WRONLY; os.offset := woff |} buf w
      = (Diverges, w')
    ∧ os.node_at w' path = Some (RegularFile cur' tc')
    ∧ (length cur ≤ length cur')%nat.
Proof.
  revert roff woff buf cur tc w.
  induction fuel as [|fuel IH]; intros roff woff buf cur tc w Hbuf Hpath Hinv.
  { exists w, cur, tc. by split_and!. }
  assert (0 < length buf)%nat as Hpos by (destruct buf; [done|cbn [length]; lia]).
  assert (roff < length cur ∧ woff ≤ length cur)%nat as [Hroff Hwoff].
  { destruct Hinv as [(-> & (j & Hj) & Hle & Hmod)|[Hlt ->]]; [|lia].
    split; [|done]. destruct (decide (woff = length cur)) as [Heq|]; [|lia].
    destruct Hmod. rewrite <- Heq, Hj. apply Nat.Div0.mod_mul. }
  set (chunk := take (length buf) (drop roff cur)).
  assert (length chunk = Nat.min (length buf) (length cur - roff)) as Hchunk
    by (unfold chunk; by rewrite length_take, length_drop).
  assert (chunk ≠ []) as Hne.
  { intros Hnil. rewrite Hnil in Hchunk. cbn [length] in Hchunk. lia. }
  cbn [local.Write_loop].
  erewrite bind_Done; [|by apply (Read_chunk _ _ w cur tc)].
  cbn [os.offset os.advance os.name os.mode]. fold chunk. cbv beta iota zeta.
  set (buf' := chunk ++ drop (length chunk) buf).
  assert (length buf' = length buf) as Hlen'
    by (unfold buf'; rewrite length_app, length_drop; lia).
  assert (buf' ≠ []) as Hbuf' by (intros Hnil; rewrite Hnil in Hlen'; cbn [length] in Hlen'; lia).
  destruct (Z.ltb_spec 0 (Z.of_nat (length chunk))) as [_|Hz]; [|lia].
  erewrite bind_Done; [|by apply (Write_file _ _ w cur tc)].
  cbn [os.offset os.advance os.name os.mode]. cbv beta iota.
  set (w1 := set_nodes _ w). unfold os.advance. cbn [os.offset os.name os.mode].
  pose proof (length_overwrite cur woff buf' Hwoff) as Hover.
  destruct (IH (roff + length chunk)%nat (woff + length buf')%nat buf'
              (os.overwrite cur woff buf') (clock w) w1 Hbuf')
    as (w' & cur' & tc' & Hrun & Hpath' & Hgrow).
  - unfold w1. by eapply node_at_insert_file.
  - rewrite Hover, Hlen'.
    destruct Hinv as [(-> & (j & Hj) & Hle & Hmod)|[Hlt ->]]; [|right; lia].
    destruct (decide (length buf ≤ length cur - woff)%nat).
    + left. split_and!; [lia| |lia|].
      * exists (S j). lia.
      * by replace (Nat.max (length cur) (woff + length buf)) with (length cur) by lia.
    + right. lia.
  - exists w', cur', tc'. split_and!; [done|done|]. rewrite Hover in Hgrow. lia.
Qed.

(** X18: the local [Write] of a file onto itself, the source being the
    root joined with the destination, does not end when the file is not a
    whole number of blocks of 4096 bytes long: the copy loop is still
    running after any number of iterations, the reader never reaching the
    end of the file that the writer extends, and the file does not get
    shorter. *)
Theorem local_Write_onto_itself_never_ends c dst w d t tr tp :
  os.node_at w (local.root c) = Some (Directory tr) →
  os.node_at w (fs.Dir (fs.GetFullPath "" (local.root c) dst)) = Some (Directory tp) →
  os.node_at w (fs.GetFullPath "" (local.root c) dst) = Some (RegularFile d t) →
  (length d mod 4096 ≠ 0)%nat →
  (∀ fuel, ∃ w' d' t',
     local.Write_loop fuel
       {| os.name := fs.GetFullPath "" (local.root c) dst; os.mode := os.O_RDONLY;
          os.offset := 0 |}
       {| os.name := fs.GetFullPath "" (local.root c) dst; os.mode := os.O_WRONLY;
          os.offset := 0 |}
       (replicate 4096 x00) w = (Diverges, w')
     ∧ os.node_at w' (fs.GetFullPath "" (local.root c) dst) = Some (RegularFile d' t')
     ∧ (length d ≤ length d')%nat)
  ∧ (local.Write c (fs.GetFullPath "" (local.root c) dst) dst w).1 = Diverges.
Proof.
  intros Hroot Hfpd Hfile Hmod.
  assert (∀ fuel, ∃ w' d' t',
     local.Write_loop fuel
       {| os.name := fs.GetFullPath "" (local.root c) dst; os.mode := os.O_RDONLY;
          os.offset := 0 |}
       {| os.name := fs.GetFullPath "" (local.root c) dst; os.mode := os.O_WRONLY;
          os.offset := 0 |}
       (replicate 4096 x00) w = (Diverges, w')
     ∧ os.node_at w' (fs.GetFullPath "" (local.root c) dst) = Some (RegularFile d' t')
     ∧ (length d ≤ length d')%nat) as Hloop.
  { intros fuel. apply (Write_loop_self fuel _ 0 0 _ d t w); [done|done|].
    left. rewrite length_replicate. split_and!; [done|by exists 0%nat|lia|done]. }
  split; [exact Hloop|].
  unfold local.Write.
  erewrite bind_Done; [|by eapply stat_or_mkdir_existing]. cbv beta iota zeta.
  erewrite bind_Done; [|by eapply stat_or_mkdir_existing]. cbv beta iota.
  erewrite bind_Done; [|by eapply Stat_existing]. cbv beta iota. cbn [IsExist].
  erewrite bind_Done; [|reflexivity]. cbv beta iota.
  erewrite bind_Done.
  2:{ unfold os.OpenFile. unfold_M. rewrite Hfile. reflexivity. }
  cbv beta iota.
  erewrite bind_Done.
  2:{ unfold os.OpenFile. unfold_M. rewrite Hfile. reflexivity. }
  cbv beta iota.
  erewrite bind_Done; [|reflexivity].
  change (Z.to_nat local.bufferOffset) with 4096%nat.
  destruct (Hloop (os.reads_to_end w (fs.GetFullPath "" (local.root c) dst)))
    as (w' & d' & t' & -> & _). done.
Qed.

(** The theorem at the older copy of the scenario, three bytes long. *)
Lemma local_Write_onto_itself_never_ends_witness :
  (local.Write store_client "/tmp/store/old.txt" "old.txt" host_machine).1 = Diverges.
Proof.
  exact (proj2 (local_Write_onto_itself_never_ends store_client "old.txt" host_machine
                  ["o"%byte; "l"%byte; "d"%byte] 0 0 0 eq_refl eq_refl eq_refl
                  ltac:(discriminate))).
Defined.
